(** * Sakila ORM data sync: a shallow embedding of [etl.py] and [models.py]

    The synchronisation engine copies a normalised source store (Sakila)
    into a star schema: watermark driven extraction, upsert by natural key,
    key maps from natural to surrogate keys, bridge rebuild, calendar
    generation and validation.

    Tables are lists of rows in rowid order, the [SyncState] table and the
    key maps are finite maps, the target session is a pair of a committed
    and a working database, and the wall clock is an oracle read through a
    tick counter. *)

From Stdlib Require Import ZArith Lia String Ascii PrimFloat Uint63.
From stdpp Require Import base gmap list strings.

Open Scope Z_scope.

(** ** Dates and times ([datetime.date], [datetime.datetime]) *)

Module date.
Record t := mk { year : Z; month : Z; day : Z }.
End date.

Module datetime.
(** [us] is the time of day in microseconds. *)
Record t := mk { date : date.t; us : Z }.
End datetime.

Definition MINYEAR : Z := 1.
Definition MAXYEAR : Z := 9999.

Definition _is_leap (y : Z) : bool :=
  (y mod 4 =? 0) && (negb (y mod 100 =? 0) || (y mod 400 =? 0)).

Definition _days_in_month (y m : Z) : Z :=
  if (m =? 2) && _is_leap y then 29
  else if m =? 2 then 28
  else if (m =? 4) || (m =? 6) || (m =? 9) || (m =? 11) then 30
  else 31.

Definition _days_before_year (year : Z) : Z :=
  let y := year - 1 in y * 365 + y / 4 - y / 100 + y / 400.

Definition _DAYS_BEFORE_MONTH (m : Z) : Z :=
  if m =? 1 then 0 else if m =? 2 then 31 else if m =? 3 then 59
  else if m =? 4 then 90 else if m =? 5 then 120 else if m =? 6 then 151
  else if m =? 7 then 181 else if m =? 8 then 212 else if m =? 9 then 243
  else if m =? 10 then 273 else if m =? 11 then 304 else 334.

Definition _days_before_month (y m : Z) : Z :=
  _DAYS_BEFORE_MONTH m + (if (2 <? m) && _is_leap y then 1 else 0).

Definition toordinal (d : date.t) : Z :=
  _days_before_year (date.year d) + _days_before_month (date.year d) (date.month d)
  + date.day d.

(** [date.weekday()]: Monday is 0 and Sunday is 6. *)
Definition weekday (d : date.t) : Z := (toordinal d + 6) mod 7.

(** The dates the [date] constructor accepts. *)
Definition valid_date (d : date.t) : Prop :=
  MINYEAR <= date.year d <= MAXYEAR /\ 1 <= date.month d <= 12 /\
  1 <= date.day d <= _days_in_month (date.year d) (date.month d).

Definition valid_dateb (d : date.t) : bool :=
  (MINYEAR <=? date.year d) && (date.year d <=? MAXYEAR) &&
  (1 <=? date.month d) && (date.month d <=? 12) &&
  (1 <=? date.day d) && (date.day d <=? _days_in_month (date.year d) (date.month d)).

(** [d + timedelta(days=1)]; [None] is the [OverflowError] past 9999-12-31. *)
Definition next_day (d : date.t) : option date.t :=
  let '(date.mk y m dd) := d in
  if dd <? _days_in_month y m then Some (date.mk y m (dd + 1))
  else if m <? 12 then Some (date.mk y (m + 1) 1)
  else if y <? MAXYEAR then Some (date.mk (y + 1) 1 1)
  else None.

Definition date_ltb (a b : date.t) : bool :=
  (date.year a <? date.year b)
  || ((date.year a =? date.year b)
      && ((date.month a <? date.month b)
          || ((date.month a =? date.month b) && (date.day a <? date.day b)))).

Definition date_leb (a b : date.t) : bool := negb (date_ltb b a).

Definition date_eqb (a b : date.t) : bool :=
  (date.year a =? date.year b) && (date.month a =? date.month b)
  && (date.day a =? date.day b).

(** [a < b] on [datetime] values. *)
Definition datetime_ltb (a b : datetime.t) : bool :=
  date_ltb (datetime.date a) (datetime.date b)
  || (date_eqb (datetime.date a) (datetime.date b)
      && (datetime.us a <? datetime.us b)).

Definition datetime_leb (a b : datetime.t) : bool := negb (datetime_ltb b a).

(** [datetime.datetime.min] *)
Definition datetime_min : datetime.t := datetime.mk (date.mk 1 1 1) 0.

Definition US_PER_DAY : Z := 86400000000.

(** [(a - b).days]: the timedelta is normalised, so the days are floored. *)
Definition timedelta_days (a b : datetime.t) : Z :=
  toordinal (datetime.date a) - toordinal (datetime.date b)
  + (datetime.us a - datetime.us b) / US_PER_DAY.

(** ** [strftime('%Y%m%d')] and [int] *)

Definition digit_char (d : Z) : ascii := ascii_of_nat (48 + Z.to_nat d).

Definition digit_value (c : ascii) : Z := Z.of_nat (nat_of_ascii c) - 48.

Definition pad2 (n : Z) : string :=
  String (digit_char (n / 10 mod 10)) (String (digit_char (n mod 10)) EmptyString).

Definition pad4 (n : Z) : string :=
  String (digit_char (n / 1000 mod 10))
    (String (digit_char (n / 100 mod 10)) (pad2 n)).

(** The year is written with four digits; a C library that does not pad the
    years below 1000 yields a shorter string with the same [int]. *)
Definition strftime_Ymd (d : date.t) : string :=
  (pad4 (date.year d) ++ pad2 (date.month d) ++ pad2 (date.day d))%string.

Fixpoint int_digits (acc : Z) (s : string) : Z :=
  match s with
  | EmptyString => acc
  | String c rest => int_digits (10 * acc + digit_value c) rest
  end.

(** [int(s)] for a string of decimal digits. *)
Definition int (s : string) : Z := int_digits 0 s.

Definition generate_date_key (dt : option datetime.t) : option Z :=
  match dt with
  | None => None
  | Some d => Some (int (strftime_Ymd (datetime.date d)))
  end.

(** ** Source models (reflected from the Sakila schema; the columns [etl.py] reads) *)

(** A [DECIMAL] with two fraction digits, held as its number of hundredths. *)
Definition Decimal : Type := Z.

Module SakilaFilm.
Record t := mk { film_id : Z; title : string; rating : string; length : Z;
  last_update : datetime.t }.
End SakilaFilm.

Module SakilaAddress.
Record t := mk { address_id : Z; city_id : Z }.
End SakilaAddress.

Module SakilaCity.
Record t := mk { city_id : Z; city : string; country_id : Z }.
End SakilaCity.

Module SakilaCountry.
Record t := mk { country_id : Z; country : string }.
End SakilaCountry.

Module SakilaCustomer.
Record t := mk { customer_id : Z; first_name : string; last_name : string;
  email : string; active : Z; address_id : Z;
  last_update : datetime.t }.
End SakilaCustomer.

Module SakilaStore.
Record t := mk { store_id : Z; address_id : Z; last_update : datetime.t }.
End SakilaStore.

Module SakilaActor.
Record t := mk { actor_id : Z; first_name : string; last_name : string;
  last_update : datetime.t }.
End SakilaActor.

Module SakilaCategory.
Record t := mk { category_id : Z; name : string; last_update : datetime.t }.
End SakilaCategory.

Module SakilaInventory.
Record t := mk { inventory_id : Z; film_id : Z }.
End SakilaInventory.

Module SakilaStaff.
Record t := mk { staff_id : Z; store_id : Z }.
End SakilaStaff.

Module SakilaRental.
Record t := mk { rental_id : Z; rental_date : datetime.t; inventory_id : Z;
  customer_id : Z; return_date : option datetime.t;
  staff_id : Z; last_update : datetime.t }.
End SakilaRental.

Module SakilaPayment.
Record t := mk { payment_id : Z; customer_id : Z; staff_id : Z;
  amount : Decimal; payment_date : datetime.t;
  last_update : datetime.t }.
End SakilaPayment.

Module SakilaFilmActor.
Record t := mk { actor_id : Z; film_id : Z }.
End SakilaFilmActor.

Module SakilaFilmCategory.
Record t := mk { film_id : Z; category_id : Z }.
End SakilaFilmCategory.

(** The source store: one list of rows per table, in the order a query
    without [ORDER BY] returns them. *)
Record SourceDB := mkSourceDB {
  src_film : list SakilaFilm.t;
  src_customer : list SakilaCustomer.t;
  src_address : list SakilaAddress.t;
  src_city : list SakilaCity.t;
  src_country : list SakilaCountry.t;
  src_store : list SakilaStore.t;
  src_actor : list SakilaActor.t;
  src_category : list SakilaCategory.t;
  src_inventory : list SakilaInventory.t;
  src_staff : list SakilaStaff.t;
  src_rental : list SakilaRental.t;
  src_payment : list SakilaPayment.t;
  src_film_actor : list SakilaFilmActor.t;
  src_film_category : list SakilaFilmCategory.t
}.

(** ** Target models ([models.py]) *)

Module DimDate.
Record t := mk { date_key : Z; date : date.t; year : Z; quarter : Z;
  month : Z; day_of_month : Z; day_of_week : Z;
  is_weekend : bool }.
End DimDate.

Module DimFilm.
Record t := mk { film_key : Z; film_id : Z; title : string; rating : string;
  length : Z; language : option string;
  release_year : option Z; last_update : datetime.t }.
End DimFilm.

Module DimCustomer.
Record t := mk { customer_key : Z; customer_id : Z; first_name : string;
  last_name : string; email : string; active : Z;
  city : string; country : string; last_update : datetime.t }.
End DimCustomer.

Module DimStore.
Record t := mk { store_key : Z; store_id : Z; city : string; country : string;
  last_update : datetime.t }.
End DimStore.

Module DimActor.
Record t := mk { actor_key : Z; actor_id : Z; first_name : string;
  last_name : string; last_update : datetime.t }.
End DimActor.

Module DimCategory.
Record t := mk { category_key : Z; category_id : Z; name : string;
  last_update : datetime.t }.
End DimCategory.

Module BridgeFilmActor.
Record t := mk { film_key : Z; actor_key : Z }.
End BridgeFilmActor.

Module BridgeFilmCategory.
Record t := mk { film_key : Z; category_key : Z }.
End BridgeFilmCategory.

Module FactRental.
Record t := mk { fact_rental_key : Z; rental_id : Z;
  date_key_rented : option Z; date_key_returned : option Z;
  film_key : option Z; store_key : option Z;
  customer_key : option Z; staff_id : Z;
  rental_duration_days : Z; last_update : datetime.t }.
End FactRental.

Module FactPayment.
Record t := mk { fact_payment_key : Z; payment_id : Z;
  date_key_paid : option Z; customer_key : option Z;
  store_key : option Z; staff_id : Z; amount : float;
  last_update : datetime.t }.
End FactPayment.

(** The target store. [sync_state] is the [SyncState] table, keyed by
    [table_name]. *)
Record TargetDB := mkTargetDB {
  dim_date : list DimDate.t;
  dim_film : list DimFilm.t;
  dim_customer : list DimCustomer.t;
  dim_store : list DimStore.t;
  dim_actor : list DimActor.t;
  dim_category : list DimCategory.t;
  bridge_film_actor : list BridgeFilmActor.t;
  bridge_film_category : list BridgeFilmCategory.t;
  fact_rental : list FactRental.t;
  fact_payment : list FactPayment.t;
  sync_state : gmap string datetime.t
}.

Definition empty_target : TargetDB :=
  mkTargetDB [] [] [] [] [] [] [] [] [] [] ∅.

Definition with_dim_date v (db : TargetDB) : TargetDB :=
  mkTargetDB v (dim_film db) (dim_customer db) (dim_store db) (dim_actor db)
    (dim_category db) (bridge_film_actor db) (bridge_film_category db)
    (fact_rental db) (fact_payment db) (sync_state db).
Definition with_dim_film v (db : TargetDB) : TargetDB :=
  mkTargetDB (dim_date db) v (dim_customer db) (dim_store db) (dim_actor db)
    (dim_category db) (bridge_film_actor db) (bridge_film_category db)
    (fact_rental db) (fact_payment db) (sync_state db).
Definition with_dim_customer v (db : TargetDB) : TargetDB :=
  mkTargetDB (dim_date db) (dim_film db) v (dim_store db) (dim_actor db)
    (dim_category db) (bridge_film_actor db) (bridge_film_category db)
    (fact_rental db) (fact_payment db) (sync_state db).
Definition with_dim_store v (db : TargetDB) : TargetDB :=
  mkTargetDB (dim_date db) (dim_film db) (dim_customer db) v (dim_actor db)
    (dim_category db) (bridge_film_actor db) (bridge_film_category db)
    (fact_rental db) (fact_payment db) (sync_state db).
Definition with_dim_actor v (db : TargetDB) : TargetDB :=
  mkTargetDB (dim_date db) (dim_film db) (dim_customer db) (dim_store db) v
    (dim_category db) (bridge_film_actor db) (bridge_film_category db)
    (fact_rental db) (fact_payment db) (sync_state db).
Definition with_dim_category v (db : TargetDB) : TargetDB :=
  mkTargetDB (dim_date db) (dim_film db) (dim_customer db) (dim_store db)
    (dim_actor db) v (bridge_film_actor db) (bridge_film_category db)
    (fact_rental db) (fact_payment db) (sync_state db).
Definition with_bridge_film_actor v (db : TargetDB) : TargetDB :=
  mkTargetDB (dim_date db) (dim_film db) (dim_customer db) (dim_store db)
    (dim_actor db) (dim_category db) v (bridge_film_category db)
    (fact_rental db) (fact_payment db) (sync_state db).
Definition with_bridge_film_category v (db : TargetDB) : TargetDB :=
  mkTargetDB (dim_date db) (dim_film db) (dim_customer db) (dim_store db)
    (dim_actor db) (dim_category db) (bridge_film_actor db) v
    (fact_rental db) (fact_payment db) (sync_state db).
Definition with_fact_rental v (db : TargetDB) : TargetDB :=
  mkTargetDB (dim_date db) (dim_film db) (dim_customer db) (dim_store db)
    (dim_actor db) (dim_category db) (bridge_film_actor db)
    (bridge_film_category db) v (fact_payment db) (sync_state db).
Definition with_fact_payment v (db : TargetDB) : TargetDB :=
  mkTargetDB (dim_date db) (dim_film db) (dim_customer db) (dim_store db)
    (dim_actor db) (dim_category db) (bridge_film_actor db)
    (bridge_film_category db) (fact_rental db) v (sync_state db).
Definition with_sync_state v (db : TargetDB) : TargetDB :=
  mkTargetDB (dim_date db) (dim_film db) (dim_customer db) (dim_store db)
    (dim_actor db) (dim_category db) (bridge_film_actor db)
    (bridge_film_category db) (fact_rental db) (fact_payment db) v.

(** Natural and surrogate key columns of the dimension and fact models. *)
Class TargetRow (R : Type) := {
  surrogate_key : R -> Z;
  natural_key : R -> Z
}.

#[export] Instance DimFilm_row : TargetRow DimFilm.t :=
  {| surrogate_key := DimFilm.film_key; natural_key := DimFilm.film_id |}.
#[export] Instance DimCustomer_row : TargetRow DimCustomer.t :=
  {| surrogate_key := DimCustomer.customer_key;
     natural_key := DimCustomer.customer_id |}.
#[export] Instance DimStore_row : TargetRow DimStore.t :=
  {| surrogate_key := DimStore.store_key; natural_key := DimStore.store_id |}.
#[export] Instance DimActor_row : TargetRow DimActor.t :=
  {| surrogate_key := DimActor.actor_key; natural_key := DimActor.actor_id |}.
#[export] Instance DimCategory_row : TargetRow DimCategory.t :=
  {| surrogate_key := DimCategory.category_key;
     natural_key := DimCategory.category_id |}.
#[export] Instance FactRental_row : TargetRow FactRental.t :=
  {| surrogate_key := FactRental.fact_rental_key;
     natural_key := FactRental.rental_id |}.
#[export] Instance FactPayment_row : TargetRow FactPayment.t :=
  {| surrogate_key := FactPayment.fact_payment_key;
     natural_key := FactPayment.payment_id |}.

(** ** The target session, the clock and the console *)

Inductive Status := OK | FAIL.

Inductive Event :=
  | GeneratingDimDate
  | DimDateComplete
  | Syncing (what : string) (since : datetime.t)
  | Processed (count : nat) (what : string)
  | SyncingBridgeTables
  | Loaded (count : nat) (what : string)
  | ClearingExistingData
  | DataCleared
  | FullLoadCompleted
  | ErrorDuringFullLoad
  | StartingIncrementalLoad
  | IncrementalLoadCompleted
  | ErrorDuringIncrementalLoad
  | ValidationHeader
  | CountLine (name : string) (src_count tgt_count : nat) (status : Status)
  | RevenueLine (src_rev tgt_rev : float) (status : Status)
  | ValidationFailed
  | ValidationPassed.

(** [committed] is what the target store holds; [working] is what the open
    session sees (pending and flushed changes of the current transaction);
    [ticks] counts the readings of the wall clock so far. *)
Record St := mkSt {
  committed : TargetDB;
  working : TargetDB;
  ticks : nat;
  stdout : list Event
}.

Definition with_working (db : TargetDB) (st : St) : St :=
  mkSt (committed st) db (ticks st) (stdout st).
Definition with_ticks (n : nat) (st : St) : St :=
  mkSt (committed st) (working st) n (stdout st).

Definition commit (st : St) : St :=
  mkSt (working st) (working st) (ticks st) (stdout st).
Definition rollback (st : St) : St :=
  mkSt (committed st) (committed st) (ticks st) (stdout st).
(** [get_target_session()] opens a session on the committed store and
    [close()] drops whatever it has not committed. *)
Definition get_target_session (st : St) : St := rollback st.
Definition close (st : St) : St := rollback st.
Definition print (e : Event) (st : St) : St :=
  mkSt (committed st) (working st) (ticks st) (stdout st ++ [e]).

Inductive Exn := ValueError | OverflowError | IntegrityError.

(** What a call leaves behind: the state, and the exception when it raised. *)
Inductive Outcome :=
  | Returned (st : St)
  | Raised (e : Exn) (st : St).

#[export] Instance BridgeFilmActor_eq_dec : EqDecision BridgeFilmActor.t.
Proof. solve_decision. Defined.
#[export] Instance BridgeFilmCategory_eq_dec : EqDecision BridgeFilmCategory.t.
Proof. solve_decision. Defined.

(** ** Helper functions *)

(** [{row[0]: row[1] for row in results}]: a later row overwrites an
    earlier one with the same natural key. *)
Definition get_surrogate_key_map {R : Type} `{TargetRow R} (tbl : list R)
  : gmap Z Z :=
  foldl (fun m row => <[natural_key row := surrogate_key row]> m) ∅ tbl.

Definition update_sync_state (table_name : string) (timestamp : datetime.t)
    (st : St) : St :=
  with_working
    (with_sync_state (<[table_name := timestamp]> (sync_state (working st)))
       (working st)) st.

(** [state.last_sync_timestamp if state else datetime.datetime.min] *)
Definition last_sync_of (table_name : string) (st : St) : datetime.t :=
  match sync_state (working st) !! table_name with
  | Some ts => ts
  | None => datetime_min
  end.

(** The rowid SQLite gives to a row inserted without one: one more than the
    largest rowid in the table, 1 in an empty table. *)
Definition next_rowid {R : Type} `{TargetRow R} (tbl : list R) : Z :=
  match map surrogate_key tbl with
  | [] => 1
  | k :: ks => foldr Z.max k ks + 1
  end.

(** Python truthiness of an optional integer: [None] and [0] are false. *)
Definition truthy (k : option Z) : bool :=
  match k with
  | Some v => negb (v =? 0)
  | None => false
  end.

(** [float(d)] for a two digit decimal: the double nearest to [d / 100]. *)
Definition float_of_Z (z : Z) : float :=
  if z <? 0 then PrimFloat.opp (PrimFloat.of_uint63 (Uint63.of_Z (- z)))
  else PrimFloat.of_uint63 (Uint63.of_Z z).

Definition float_of_decimal (d : Decimal) : float :=
  PrimFloat.div (float_of_Z d) (float_of_Z 100).

(** An inner join: the pairs of rows that satisfy [on]. *)
Definition join {A B : Type} (on : A -> B -> bool) (l : list A) (r : list B)
  : list (A * B) :=
  a ← l; b ← filter (fun b => on a b) r; [(a, b)].

(** ** The upsert shared by the dimension and fact synchronizers

    [existing = target.query(Model).filter_by(id=key).first()], then either
    the attributes of [existing] are overwritten in place or a new row is
    added, which the store numbers with [next_rowid]. *)
Section Upsert.
  Context {S R : Type} `{TargetRow R}.
  Variable key_of : S -> Z.
  Variable update : S -> datetime.t -> R -> R.
  Variable insert : S -> datetime.t -> Z -> R.

Definition filter_by_first (k : Z) (tbl : list R) : option (nat * R) :=
  list_find (fun row => natural_key row = k) tbl.

Definition upsert (now : datetime.t) (src : S) (tbl : list R) : list R :=
  match filter_by_first (key_of src) tbl with
  | Some (i, existing) => <[i := update src now existing]> tbl
  | None => tbl ++ [insert src now (next_rowid tbl)]
  end.

(** The loop over [changes]; each row reads the clock once. *)
Definition upsert_loop (clock : nat -> datetime.t) (changes : list S)
    (acc : list R * nat) : list R * nat :=
  foldl (fun '(tbl, n) src => (upsert (clock n) src tbl, Datatypes.S n))
    acc changes.

End Upsert.

(** ** Extraction queries: the source rows changed since the watermark *)

Definition changes_film (source : SourceDB) (last_sync : datetime.t)
  : list SakilaFilm.t :=
  filter (fun f => datetime_ltb last_sync (SakilaFilm.last_update f))
    (src_film source).

(** Customer -> Address -> City -> Country *)
Definition changes_customer (source : SourceDB) (last_sync : datetime.t)
  : list (SakilaCustomer.t * string * string) :=
  let j1 := join (fun c a => SakilaCustomer.address_id c =? SakilaAddress.address_id a)
              (src_customer source) (src_address source) in
  let j2 := join (fun '(_, a) ci => SakilaAddress.city_id a =? SakilaCity.city_id ci)
              j1 (src_city source) in
  let j3 := join (fun '(_, ci) co => SakilaCity.country_id ci =? SakilaCountry.country_id co)
              j2 (src_country source) in
  (fun '(c, _, ci, co) => (c, SakilaCity.city ci, SakilaCountry.country co))
  <$> filter (fun '(c, _, _, _) =>
                datetime_ltb last_sync (SakilaCustomer.last_update c)) j3.

(** Store -> Address -> City -> Country *)
Definition changes_store (source : SourceDB) (last_sync : datetime.t)
  : list (SakilaStore.t * string * string) :=
  let j1 := join (fun s a => SakilaStore.address_id s =? SakilaAddress.address_id a)
              (src_store source) (src_address source) in
  let j2 := join (fun '(_, a) ci => SakilaAddress.city_id a =? SakilaCity.city_id ci)
              j1 (src_city source) in
  let j3 := join (fun '(_, ci) co => SakilaCity.country_id ci =? SakilaCountry.country_id co)
              j2 (src_country source) in
  (fun '(s, _, ci, co) => (s, SakilaCity.city ci, SakilaCountry.country co))
  <$> filter (fun '(s, _, _, _) =>
                datetime_ltb last_sync (SakilaStore.last_update s)) j3.

Definition changes_actor (source : SourceDB) (last_sync : datetime.t)
  : list SakilaActor.t :=
  filter (fun a => datetime_ltb last_sync (SakilaActor.last_update a))
    (src_actor source).

Definition changes_category (source : SourceDB) (last_sync : datetime.t)
  : list SakilaCategory.t :=
  filter (fun c => datetime_ltb last_sync (SakilaCategory.last_update c))
    (src_category source).

(** Rental joined with Inventory for the film id *)
Definition changes_rental (source : SourceDB) (last_sync : datetime.t)
  : list (SakilaRental.t * Z) :=
  (fun '(r, i) => (r, SakilaInventory.film_id i))
  <$> filter (fun '(r, _) => datetime_ltb last_sync (SakilaRental.last_update r))
        (join (fun r i => SakilaRental.inventory_id r =? SakilaInventory.inventory_id i)
           (src_rental source) (src_inventory source)).

(** Payment joined with Staff for the store id *)
Definition changes_payment (source : SourceDB) (last_sync : datetime.t)
  : list (SakilaPayment.t * Z) :=
  (fun '(p, s) => (p, SakilaStaff.store_id s))
  <$> filter (fun '(p, _) => datetime_ltb last_sync (SakilaPayment.last_update p))
        (join (fun p s => SakilaPayment.staff_id p =? SakilaStaff.staff_id s)
           (src_payment source) (src_staff source)).

(** ** The update and insert branches of each synchronizer *)

Definition update_film (src : SakilaFilm.t) (now : datetime.t)
    (existing : DimFilm.t) : DimFilm.t :=
  DimFilm.mk (DimFilm.film_key existing) (DimFilm.film_id existing)
    (SakilaFilm.title src) (SakilaFilm.rating src) (SakilaFilm.length src)
    (DimFilm.language existing) (DimFilm.release_year existing) now.

Definition insert_film (src : SakilaFilm.t) (now : datetime.t) (key : Z)
  : DimFilm.t :=
  DimFilm.mk key (SakilaFilm.film_id src) (SakilaFilm.title src)
    (SakilaFilm.rating src) (SakilaFilm.length src) None None now.

Definition update_customer (src : SakilaCustomer.t * string * string)
    (now : datetime.t) (existing : DimCustomer.t) : DimCustomer.t :=
  let '(cust_obj, city_name, country_name) := src in
  DimCustomer.mk (DimCustomer.customer_key existing)
    (DimCustomer.customer_id existing)
    (SakilaCustomer.first_name cust_obj) (SakilaCustomer.last_name cust_obj)
    (SakilaCustomer.email cust_obj) (SakilaCustomer.active cust_obj)
    city_name country_name now.

Definition insert_customer (src : SakilaCustomer.t * string * string)
    (now : datetime.t) (key : Z) : DimCustomer.t :=
  let '(cust_obj, city_name, country_name) := src in
  DimCustomer.mk key (SakilaCustomer.customer_id cust_obj)
    (SakilaCustomer.first_name cust_obj) (SakilaCustomer.last_name cust_obj)
    (SakilaCustomer.email cust_obj) (SakilaCustomer.active cust_obj)
    city_name country_name now.

Definition update_store (src : SakilaStore.t * string * string)
    (now : datetime.t) (existing : DimStore.t) : DimStore.t :=
  let '(store_obj, city_name, country_name) := src in
  DimStore.mk (DimStore.store_key existing) (DimStore.store_id existing)
    city_name country_name now.

Definition insert_store (src : SakilaStore.t * string * string)
    (now : datetime.t) (key : Z) : DimStore.t :=
  let '(store_obj, city_name, country_name) := src in
  DimStore.mk key (SakilaStore.store_id store_obj) city_name country_name now.

Definition update_actor (src : SakilaActor.t) (now : datetime.t)
    (existing : DimActor.t) : DimActor.t :=
  DimActor.mk (DimActor.actor_key existing) (DimActor.actor_id existing)
    (SakilaActor.first_name src) (SakilaActor.last_name src) now.

Definition insert_actor (src : SakilaActor.t) (now : datetime.t) (key : Z)
  : DimActor.t :=
  DimActor.mk key (SakilaActor.actor_id src) (SakilaActor.first_name src)
    (SakilaActor.last_name src) now.

Definition update_category (src : SakilaCategory.t) (now : datetime.t)
    (existing : DimCategory.t) : DimCategory.t :=
  DimCategory.mk (DimCategory.category_key existing)
    (DimCategory.category_id existing) (SakilaCategory.name src) now.

Definition insert_category (src : SakilaCategory.t) (now : datetime.t) (key : Z)
  : DimCategory.t :=
  DimCategory.mk key (SakilaCategory.category_id src) (SakilaCategory.name src)
    now.

(** [duration = 0], or the whole days between rental and return. *)
Definition rental_duration (r_obj : SakilaRental.t) : Z :=
  match SakilaRental.return_date r_obj with
  | Some return_date => timedelta_days return_date (SakilaRental.rental_date r_obj)
  | None => 0
  end.

Definition update_rental (src : SakilaRental.t * Z) (now : datetime.t)
    (fact : FactRental.t) : FactRental.t :=
  let '(r_obj, film_id) := src in
  FactRental.mk (FactRental.fact_rental_key fact) (FactRental.rental_id fact)
    (FactRental.date_key_rented fact)
    (generate_date_key (SakilaRental.return_date r_obj))
    (FactRental.film_key fact) (FactRental.store_key fact)
    (FactRental.customer_key fact) (FactRental.staff_id fact)
    (rental_duration r_obj) now.

Definition insert_rental (film_map cust_map : gmap Z Z)
    (src : SakilaRental.t * Z) (now : datetime.t) (key : Z) : FactRental.t :=
  let '(r_obj, film_id) := src in
  FactRental.mk key (SakilaRental.rental_id r_obj)
    (generate_date_key (Some (SakilaRental.rental_date r_obj)))
    (generate_date_key (SakilaRental.return_date r_obj))
    (film_map !! film_id) None
    (cust_map !! SakilaRental.customer_id r_obj)
    (SakilaRental.staff_id r_obj) (rental_duration r_obj) now.

Definition update_payment (cust_map store_map : gmap Z Z)
    (src : SakilaPayment.t * Z) (now : datetime.t) (fact : FactPayment.t)
  : FactPayment.t :=
  let '(p_obj, store_id) := src in
  let cust_key := cust_map !! SakilaPayment.customer_id p_obj in
  let st_key := store_map !! store_id in
  let date_key := generate_date_key (Some (SakilaPayment.payment_date p_obj)) in
  FactPayment.mk (FactPayment.fact_payment_key fact)
    (FactPayment.payment_id fact) date_key cust_key st_key
    (FactPayment.staff_id fact) (float_of_decimal (SakilaPayment.amount p_obj))
    now.

Definition insert_payment (cust_map store_map : gmap Z Z)
    (src : SakilaPayment.t * Z) (now : datetime.t) (key : Z) : FactPayment.t :=
  let '(p_obj, store_id) := src in
  let cust_key := cust_map !! SakilaPayment.customer_id p_obj in
  let st_key := store_map !! store_id in
  let date_key := generate_date_key (Some (SakilaPayment.payment_date p_obj)) in
  FactPayment.mk key (SakilaPayment.payment_id p_obj) date_key cust_key st_key
    (SakilaPayment.staff_id p_obj)
    (float_of_decimal (SakilaPayment.amount p_obj)) now.

(** ** Synchronization functions *)

Section Engine.
  (** The [n]-th reading of [datetime.datetime.now()]. *)
  Variable wall_clock : nat -> datetime.t.

Definition now (st : St) : datetime.t * St :=
  (wall_clock (ticks st), with_ticks (Datatypes.S (ticks st)) st).

(** Steps 3 and 4 leave the session with the upserted table in place and the
    clock advanced by one reading per row. *)
Definition after_loop {R : Type} (put : list R -> TargetDB -> TargetDB)
    (res : list R * nat) (target : St) : St :=
  with_ticks (snd res) (with_working (put (fst res) (working target)) target).

Definition sync_dim_film (source : SourceDB) (target : St) : St :=
  let table_name := "dim_film"%string in
  let last_sync := last_sync_of table_name target in
  let target := print (Syncing "Films" last_sync) target in
  let changes := changes_film source last_sync in
  match changes with
  | [] => target
  | _ =>
    let target :=
      after_loop with_dim_film
        (upsert_loop SakilaFilm.film_id update_film insert_film wall_clock
           changes (dim_film (working target), ticks target)) target in
    let '(t, target) := now target in
    let target := update_sync_state table_name t target in
    let target := commit target in
    print (Processed (length changes) "films") target
  end.

Definition sync_dim_customer (source : SourceDB) (target : St) : St :=
  let table_name := "dim_customer"%string in
  let last_sync := last_sync_of table_name target in
  let target := print (Syncing "Customers" last_sync) target in
  let changes := changes_customer source last_sync in
  match changes with
  | [] => target
  | _ =>
    let target :=
      after_loop with_dim_customer
        (upsert_loop (fun '(cust_obj, _, _) => SakilaCustomer.customer_id cust_obj)
           update_customer insert_customer wall_clock
           changes (dim_customer (working target), ticks target)) target in
    let '(t, target) := now target in
    let target := update_sync_state table_name t target in
    let target := commit target in
    print (Processed (length changes) "customers") target
  end.

Definition sync_dim_store (source : SourceDB) (target : St) : St :=
  let table_name := "dim_store"%string in
  let last_sync := last_sync_of table_name target in
  let target := print (Syncing "Stores" last_sync) target in
  let changes := changes_store source last_sync in
  match changes with
  | [] => target
  | _ =>
    let target :=
      after_loop with_dim_store
        (upsert_loop (fun '(store_obj, _, _) => SakilaStore.store_id store_obj)
           update_store insert_store wall_clock
           changes (dim_store (working target), ticks target)) target in
    let '(t, target) := now target in
    let target := update_sync_state table_name t target in
    let target := commit target in
    print (Processed (length changes) "stores") target
  end.

Definition sync_dim_actor (source : SourceDB) (target : St) : St :=
  let table_name := "dim_actor"%string in
  let last_sync := last_sync_of table_name target in
  let target := print (Syncing "Actors" last_sync) target in
  let changes := changes_actor source last_sync in
  match changes with
  | [] => target
  | _ =>
    let target :=
      after_loop with_dim_actor
        (upsert_loop SakilaActor.actor_id update_actor insert_actor wall_clock
           changes (dim_actor (working target), ticks target)) target in
    let '(t, target) := now target in
    let target := update_sync_state table_name t target in
    let target := commit target in
    print (Processed (length changes) "actors") target
  end.

Definition sync_dim_category (source : SourceDB) (target : St) : St :=
  let table_name := "dim_category"%string in
  let last_sync := last_sync_of table_name target in
  let target := print (Syncing "Categories" last_sync) target in
  let changes := changes_category source last_sync in
  match changes with
  | [] => target
  | _ =>
    let target :=
      after_loop with_dim_category
        (upsert_loop SakilaCategory.category_id update_category insert_category
           wall_clock changes (dim_category (working target), ticks target))
        target in
    let '(t, target) := now target in
    let target := update_sync_state table_name t target in
    let target := commit target in
    print (Processed (length changes) "categories") target
  end.

Definition sync_fact_rental (source : SourceDB) (target : St) : St :=
  let table_name := "fact_rental"%string in
  let last_sync := last_sync_of table_name target in
  let target := print (Syncing "Rentals" last_sync) target in
  let changes := changes_rental source last_sync in
  match changes with
  | [] => target
  | _ =>
    let film_map := get_surrogate_key_map (dim_film (working target)) in
    let cust_map := get_surrogate_key_map (dim_customer (working target)) in
    let target :=
      after_loop with_fact_rental
        (upsert_loop (fun '(r_obj, _) => SakilaRental.rental_id r_obj)
           update_rental (insert_rental film_map cust_map) wall_clock
           changes (fact_rental (working target), ticks target)) target in
    let '(t, target) := now target in
    let target := update_sync_state table_name t target in
    let target := commit target in
    print (Processed (length changes) "rentals") target
  end.

Definition sync_fact_payment (source : SourceDB) (target : St) : St :=
  let table_name := "fact_payment"%string in
  let last_sync := last_sync_of table_name target in
  let target := print (Syncing "Payments" last_sync) target in
  let changes := changes_payment source last_sync in
  match changes with
  | [] => target
  | _ =>
    let cust_map := get_surrogate_key_map (dim_customer (working target)) in
    let store_map := get_surrogate_key_map (dim_store (working target)) in
    let target :=
      after_loop with_fact_payment
        (upsert_loop (fun '(p_obj, _) => SakilaPayment.payment_id p_obj)
           (update_payment cust_map store_map)
           (insert_payment cust_map store_map) wall_clock
           changes (fact_payment (working target), ticks target)) target in
    let '(t, target) := now target in
    let target := update_sync_state table_name t target in
    let target := commit target in
    print (Processed (length changes) "payments") target
  end.

(** *** Bridge tables: delete all, insert all *)

Definition film_actor_row (film_map actor_map : gmap Z Z)
    (link : SakilaFilmActor.t) : option BridgeFilmActor.t :=
  let f_key := film_map !! SakilaFilmActor.film_id link in
  let a_key := actor_map !! SakilaFilmActor.actor_id link in
  match f_key, a_key with
  | Some f, Some a =>
      if truthy f_key && truthy a_key then Some (BridgeFilmActor.mk f a)
      else None
  | _, _ => None
  end.

Definition film_category_row (film_map category_map : gmap Z Z)
    (link : SakilaFilmCategory.t) : option BridgeFilmCategory.t :=
  let f_key := film_map !! SakilaFilmCategory.film_id link in
  let c_key := category_map !! SakilaFilmCategory.category_id link in
  match f_key, c_key with
  | Some f, Some c =>
      if truthy f_key && truthy c_key then Some (BridgeFilmCategory.mk f c)
      else None
  | _, _ => None
  end.

(** [target.add_all(batch)] on a bridge table *)
Definition add_all_film_actor (batch : list BridgeFilmActor.t) (st : St) : St :=
  with_working
    (with_bridge_film_actor (bridge_film_actor (working st) ++ batch)
       (working st)) st.

Definition add_all_film_category (batch : list BridgeFilmCategory.t) (st : St)
  : St :=
  with_working
    (with_bridge_film_category (bridge_film_category (working st) ++ batch)
       (working st)) st.

(** The final [commit] flushes the pending bridge rows; two rows with the
    same composite primary key make the flush fail. *)
Definition sync_bridge_tables (source : SourceDB) (target : St) : Outcome :=
  let target := print SyncingBridgeTables target in
  let target :=
    with_working (with_bridge_film_actor [] (working target)) target in
  let target :=
    with_working (with_bridge_film_category [] (working target)) target in
  let film_map := get_surrogate_key_map (dim_film (working target)) in
  let actor_map := get_surrogate_key_map (dim_actor (working target)) in
  let category_map := get_surrogate_key_map (dim_category (working target)) in
  let fa_links := src_film_actor source in
  let batch_fa := omap (film_actor_row film_map actor_map) fa_links in
  let target :=
    match batch_fa with
    | [] => target
    | _ => add_all_film_actor batch_fa target
    end in
  let target := print (Loaded (length batch_fa) "film-actor") target in
  let fc_links := src_film_category source in
  let batch_fc := omap (film_category_row film_map category_map) fc_links in
  let target :=
    match batch_fc with
    | [] => target
    | _ => add_all_film_category batch_fc target
    end in
  let target := print (Loaded (length batch_fc) "film-category") target in
  if bool_decide (NoDup batch_fa) && bool_decide (NoDup batch_fc)
  then Returned (commit target)
  else Raised IntegrityError target.

(** *** Calendar generation *)

Definition make_dim_date (current_date : date.t) : DimDate.t :=
  let d_key := int (strftime_Ymd current_date) in
  let is_weekend := 5 <=? weekday current_date in
  DimDate.mk d_key current_date (date.year current_date)
    ((date.month current_date - 1) / 3 + 1) (date.month current_date)
    (date.day current_date) (weekday current_date) is_weekend.

Definition add_all_dim_date (batch : list DimDate.t) (st : St) : St :=
  with_working (with_dim_date (dim_date (working st) ++ batch) (working st)) st.

Inductive LoopResult :=
  | Exhausted
  | LoopRaised (e : Exn) (st : St)
  | LoopDone (batch : list DimDate.t) (st : St).

(** [while current_date <= end_date]; [fuel] bounds the iterations. *)
Fixpoint load_dim_date_loop (fuel : nat) (existing_keys : gset Z)
    (end_date current_date : date.t) (batch : list DimDate.t) (st : St)
  : LoopResult :=
  match fuel with
  | O => Exhausted
  | Datatypes.S fuel =>
    if date_leb current_date end_date then
      let d_key := int (strftime_Ymd current_date) in
      let batch :=
        if decide (d_key ∈ existing_keys) then batch
        else batch ++ [make_dim_date current_date] in
      match next_day current_date with
      | None => LoopRaised OverflowError st
      | Some current_date =>
        if 1000 <=? Z.of_nat (length batch) then
          load_dim_date_loop fuel existing_keys end_date current_date []
            (commit (add_all_dim_date batch st))
        else
          load_dim_date_loop fuel existing_keys end_date current_date batch st
      end
    else LoopDone batch st
  end.

Definition year_in_range (y : Z) : bool := (MINYEAR <=? y) && (y <=? MAXYEAR).

(** [None] would mean that the loop did not finish within its fuel. *)
Definition load_dim_date (target_session : St) (start_year end_year : Z)
  : option Outcome :=
  let st := print GeneratingDimDate target_session in
  if year_in_range start_year && year_in_range end_year then
    let start_date := date.mk start_year 1 1 in
    let end_date := date.mk end_year 12 31 in
    let existing_keys : gset Z :=
      list_to_set (DimDate.date_key <$> dim_date (working st)) in
    let fuel := Z.to_nat (372 * (end_year - start_year + 1)) in
    match load_dim_date_loop (Datatypes.S fuel) existing_keys end_date
            start_date [] st with
    | Exhausted => None
    | LoopRaised e st => Some (Raised e st)
    | LoopDone batch st =>
      let st :=
        match batch with
        | [] => st
        | _ => commit (add_all_dim_date batch st)
        end in
      Some (Returned (print DimDateComplete st))
    end
  else Some (Raised ValueError st).

(** *** Orchestration *)

Definition run (steps : list (St -> St)) (st : St) : St :=
  foldl (fun st step => step st) st steps.

(** The state after each step, in order. *)
Fixpoint trace (steps : list (St -> St)) (st : St) : list St :=
  match steps with
  | [] => []
  | step :: rest => step st :: trace rest (step st)
  end.

Definition clear_steps : list (St -> St) :=
  [ (fun t => with_working (with_fact_rental [] (working t)) t);
    (fun t => with_working (with_fact_payment [] (working t)) t);
    (fun t => with_working (with_dim_store [] (working t)) t);
    (fun t => with_working (with_dim_customer [] (working t)) t);
    (fun t => with_working (with_dim_film [] (working t)) t);
    (fun t => with_working (with_dim_actor [] (working t)) t);
    (fun t => with_working (with_dim_category [] (working t)) t);
    (fun t => with_working (with_sync_state ∅ (working t)) t);
    commit ].

Definition sync_steps (source : SourceDB) : list (St -> St) :=
  [ sync_dim_film source; sync_dim_customer source; sync_dim_store source;
    sync_dim_actor source; sync_dim_category source;
    sync_fact_rental source; sync_fact_payment source ].

Definition full_load (source : SourceDB) (st : St) : St :=
  let target_session := get_target_session st in
  let '(current_time, target_session) := now target_session in
  let target_session := print ClearingExistingData target_session in
  let target_session := run clear_steps target_session in
  let target_session := print DataCleared target_session in
  let target_session := run (sync_steps source) target_session in
  let target_session :=
    match sync_bridge_tables source target_session with
    | Returned t => print FullLoadCompleted (commit t)
    | Raised _ t => print ErrorDuringFullLoad (rollback t)
    end in
  close target_session.

Definition incremental_load (source : SourceDB) (st : St) : St :=
  let target_session := get_target_session st in
  let target_session := print StartingIncrementalLoad target_session in
  let target_session := run (sync_steps source) target_session in
  let target_session :=
    match sync_bridge_tables source target_session with
    | Returned t => print IncrementalLoadCompleted t
    | Raised _ t => rollback (print ErrorDuringIncrementalLoad t)
    end in
  close target_session.

(** The session states a full load passes through up to the bridge rebuild:
    after each clearing statement and after each synchronizer. *)
Definition full_load_points (source : SourceDB) (st : St) : list St :=
  let start :=
    print ClearingExistingData (snd (now (get_target_session st))) in
  let cleared := print DataCleared (run clear_steps start) in
  trace clear_steps start ++ trace (sync_steps source) cleared.

(** *** Validation *)

#[warnings="-inexact-float"]
Definition TOLERANCE : float := 0.01%float.

(** [func.count(col)] over a primary key column: the number of rows. *)
Definition checks : list (string * (SourceDB -> nat) * (TargetDB -> nat)) :=
  [ ("Films"%string, fun s => length (src_film s), fun t => length (dim_film t));
    ("Customers"%string, fun s => length (src_customer s),
       fun t => length (dim_customer t));
    ("Stores"%string, fun s => length (src_store s), fun t => length (dim_store t));
    ("Actors"%string, fun s => length (src_actor s), fun t => length (dim_actor t));
    ("Categories"%string, fun s => length (src_category s),
       fun t => length (dim_category t));
    ("Rentals"%string, fun s => length (src_rental s),
       fun t => length (fact_rental t));
    ("Payments"%string, fun s => length (src_payment s),
       fun t => length (fact_payment t)) ].

Definition count_status (src_count tgt_count : nat) : Status :=
  if (src_count =? tgt_count)%nat then OK else FAIL.

Definition is_fail (s : Status) : bool :=
  match s with
  | FAIL => true
  | OK => false
  end.

(** One pass of the count loop: [(issues_found, state)] before and after. *)
Definition count_check (source : SourceDB)
    (acc : bool * St) (check : string * (SourceDB -> nat) * (TargetDB -> nat))
  : bool * St :=
  let '(issues_found, st) := acc in
  let '(name, src_col, tgt_col) := check in
  let src_count := src_col source in
  let tgt_count := tgt_col (working st) in
  let status := count_status src_count tgt_count in
  let issues_found := if is_fail status then true else issues_found in
  (issues_found, print (CountLine name src_count tgt_count status) st).

(** [func.sum(SakilaPayment.amount)] is exact on decimals and [NULL] on an
    empty table; [x or 0.0] also replaces a zero sum. *)
Definition source_revenue (source : SourceDB) : float :=
  match SakilaPayment.amount <$> src_payment source with
  | [] => 0%float
  | amounts =>
    let total := foldr Z.add 0 amounts in
    if total =? 0 then 0%float else float_of_decimal total
  end.

(** [func.sum(FactPayment.amount)]: the doubles are added in row order. *)
Definition target_revenue (target : TargetDB) : float :=
  match FactPayment.amount <$> fact_payment target with
  | [] => 0%float
  | amounts =>
    let total := foldl PrimFloat.add 0%float amounts in
    if PrimFloat.eqb total 0%float then 0%float else total
  end.

Definition revenue_status (src_rev tgt_rev : float) : Status :=
  let diff := PrimFloat.abs (PrimFloat.sub src_rev tgt_rev) in
  if PrimFloat.ltb diff TOLERANCE then OK else FAIL.

Definition validate_data (source : SourceDB) (st : St) : St :=
  let target := get_target_session st in
  let target := print ValidationHeader target in
  let issues_found := false in
  let '(issues_found, target) :=
    foldl (count_check source) (issues_found, target) checks in
  let src_rev := source_revenue source in
  let tgt_rev := target_revenue (working target) in
  let rev_status := revenue_status src_rev tgt_rev in
  let issues_found := if is_fail rev_status then true else issues_found in
  let target := print (RevenueLine src_rev tgt_rev rev_status) target in
  let target :=
    if issues_found then print ValidationFailed target
    else print ValidationPassed target in
  close target.

(** ** The seven synchronized tables, uniformly *)

Inductive Table :=
  | T_dim_film | T_dim_customer | T_dim_store | T_dim_actor | T_dim_category
  | T_fact_rental | T_fact_payment.

Definition all_tables : list Table :=
  [T_dim_film; T_dim_customer; T_dim_store; T_dim_actor; T_dim_category;
   T_fact_rental; T_fact_payment].

Definition table_name (t : Table) : string :=
  match t with
  | T_dim_film => "dim_film"
  | T_dim_customer => "dim_customer"
  | T_dim_store => "dim_store"
  | T_dim_actor => "dim_actor"
  | T_dim_category => "dim_category"
  | T_fact_rental => "fact_rental"
  | T_fact_payment => "fact_payment"
  end.

Definition sync_table (t : Table) : SourceDB -> St -> St :=
  match t with
  | T_dim_film => sync_dim_film
  | T_dim_customer => sync_dim_customer
  | T_dim_store => sync_dim_store
  | T_dim_actor => sync_dim_actor
  | T_dim_category => sync_dim_category
  | T_fact_rental => sync_fact_rental
  | T_fact_payment => sync_fact_payment
  end.

(** The natural keys of the rows the extraction query of [t] returns. *)
Definition changed_keys (t : Table) (source : SourceDB) (last_sync : datetime.t)
  : list Z :=
  match t with
  | T_dim_film => SakilaFilm.film_id <$> changes_film source last_sync
  | T_dim_customer =>
      (fun '(c, _, _) => SakilaCustomer.customer_id c)
      <$> changes_customer source last_sync
  | T_dim_store =>
      (fun '(s, _, _) => SakilaStore.store_id s)
      <$> changes_store source last_sync
  | T_dim_actor => SakilaActor.actor_id <$> changes_actor source last_sync
  | T_dim_category =>
      SakilaCategory.category_id <$> changes_category source last_sync
  | T_fact_rental =>
      (fun '(r, _) => SakilaRental.rental_id r)
      <$> changes_rental source last_sync
  | T_fact_payment =>
      (fun '(p, _) => SakilaPayment.payment_id p)
      <$> changes_payment source last_sync
  end.

(** The [(natural key, surrogate key)] pairs of a table, in row order. *)
Definition keys_of {R : Type} `{TargetRow R} (tbl : list R) : list (Z * Z) :=
  (fun row => (natural_key row, surrogate_key row)) <$> tbl.

Definition table_keys (t : Table) (db : TargetDB) : list (Z * Z) :=
  match t with
  | T_dim_film => keys_of (dim_film db)
  | T_dim_customer => keys_of (dim_customer db)
  | T_dim_store => keys_of (dim_store db)
  | T_dim_actor => keys_of (dim_actor db)
  | T_dim_category => keys_of (dim_category db)
  | T_fact_rental => keys_of (fact_rental db)
  | T_fact_payment => keys_of (fact_payment db)
  end.

End Engine.

(** ** Specification vocabulary *)

(** The upsert seen on [(natural key, surrogate key)] pairs alone. *)
Definition next_key (keys : list (Z * Z)) : Z :=
  match keys.*2 with
  | [] => 1
  | k :: ks => foldr Z.max k ks + 1
  end.

Definition upsert_key (k : Z) (keys : list (Z * Z)) : list (Z * Z) :=
  if decide (k ∈ keys.*1) then keys else keys ++ [(k, next_key keys)].

(** At most one row per natural key. *)
Definition natural_keys_unique (keys : list (Z * Z)) : Prop := NoDup keys.*1.

(** Any number of dimension or fact sync runs, each against its own
    snapshot of the source. *)
Definition sync_runs (wall_clock : nat -> datetime.t)
    (runs : list (Table * SourceDB)) (st : St) : St :=
  foldl (fun st '(t, source) => sync_table wall_clock t source st) st runs.

(** Console labels of the synchronizers. *)
Definition heading (t : Table) : string :=
  match t with
  | T_dim_film => "Films"
  | T_dim_customer => "Customers"
  | T_dim_store => "Stores"
  | T_dim_actor => "Actors"
  | T_dim_category => "Categories"
  | T_fact_rental => "Rentals"
  | T_fact_payment => "Payments"
  end.

Definition noun (t : Table) : string :=
  match t with
  | T_dim_film => "films"
  | T_dim_customer => "customers"
  | T_dim_store => "stores"
  | T_dim_actor => "actors"
  | T_dim_category => "categories"
  | T_fact_rental => "rentals"
  | T_fact_payment => "payments"
  end.

(** [a] and [b] agree on every table but the one [t] synchronizes. *)
Definition same_except (t : Table) (a b : TargetDB) : Prop :=
  dim_date a = dim_date b /\
  bridge_film_actor a = bridge_film_actor b /\
  bridge_film_category a = bridge_film_category b /\
  sync_state a = sync_state b /\
  (t <> T_dim_film -> dim_film a = dim_film b) /\
  (t <> T_dim_customer -> dim_customer a = dim_customer b) /\
  (t <> T_dim_store -> dim_store a = dim_store b) /\
  (t <> T_dim_actor -> dim_actor a = dim_actor b) /\
  (t <> T_dim_category -> dim_category a = dim_category b) /\
  (t <> T_fact_rental -> fact_rental a = fact_rental b) /\
  (t <> T_fact_payment -> fact_payment a = fact_payment b).

(** Step 4 of a synchronizer, from the state [mid] the upsert loop left:
    read the clock, write the watermark, commit, report. *)
Definition finish_sync (wall_clock : nat -> datetime.t) (t : Table)
    (count : nat) (mid : St) : St :=
  print (Processed count (noun t))
    (commit
       (update_sync_state (table_name t) (wall_clock (ticks mid))
          (with_ticks (Datatypes.S (ticks mid)) mid))).

#[export] Instance Table_eq_dec : EqDecision Table.
Proof. solve_decision. Defined.

(** The columns of a [FactRental] row outside the update branch. *)
Definition rental_frame (a b : FactRental.t) : Prop :=
  FactRental.fact_rental_key a = FactRental.fact_rental_key b /\
  FactRental.rental_id a = FactRental.rental_id b /\
  FactRental.date_key_rented a = FactRental.date_key_rented b /\
  FactRental.film_key a = FactRental.film_key b /\
  FactRental.customer_key a = FactRental.customer_key b /\
  FactRental.store_key a = FactRental.store_key b /\
  FactRental.staff_id a = FactRental.staff_id b.

(** Every rental fact row whose natural key is among the changes extracted
    since [last_sync] stores the film and customer keys that the dimension
    tables of [db] give today. *)
Definition rental_keys_current (source : SourceDB) (last_sync : datetime.t)
    (db : TargetDB) : bool :=
  forallb
    (fun '(r_obj, film_id) =>
       forallb
         (fun fact =>
            if FactRental.rental_id fact =? SakilaRental.rental_id r_obj then
              bool_decide
                (FactRental.film_key fact
                 = get_surrogate_key_map (dim_film db) !! film_id)
              && bool_decide
                   (FactRental.customer_key fact
                    = get_surrogate_key_map (dim_customer db)
                      !! SakilaRental.customer_id r_obj)
            else true)
         (fact_rental db))
    (changes_rental source last_sync).

(** The primary key of a dimension table: surrogate keys are distinct, and,
    being rowids the store hands out, not zero. *)
Definition primary_key_ok {R : Type} `{TargetRow R} (tbl : list R) : Prop :=
  NoDup (surrogate_key <$> tbl) /\ Forall (fun row => surrogate_key row <> 0) tbl.

(** Every bridge row refers to surrogate keys present in the dimensions. *)
Definition bridge_refs_ok (db : TargetDB) : bool :=
  forallb
    (fun b =>
       bool_decide (BridgeFilmActor.film_key b ∈ DimFilm.film_key <$> dim_film db)
       && bool_decide
            (BridgeFilmActor.actor_key b ∈ DimActor.actor_key <$> dim_actor db))
    (bridge_film_actor db)
  && forallb
       (fun b =>
          bool_decide
            (BridgeFilmCategory.film_key b ∈ DimFilm.film_key <$> dim_film db)
          && bool_decide
               (BridgeFilmCategory.category_key b
                  ∈ DimCategory.category_key <$> dim_category db))
       (bridge_film_category db).

(** No row of a watermarked source table was modified after [t]. *)
Definition source_not_after (source : SourceDB) (t : datetime.t) : bool :=
  forallb (fun r => negb (datetime_ltb t (SakilaFilm.last_update r)))
    (src_film source)
  && forallb (fun r => negb (datetime_ltb t (SakilaCustomer.last_update r)))
       (src_customer source)
  && forallb (fun r => negb (datetime_ltb t (SakilaStore.last_update r)))
       (src_store source)
  && forallb (fun r => negb (datetime_ltb t (SakilaActor.last_update r)))
       (src_actor source)
  && forallb (fun r => negb (datetime_ltb t (SakilaCategory.last_update r)))
       (src_category source)
  && forallb (fun r => negb (datetime_ltb t (SakilaRental.last_update r)))
       (src_rental source)
  && forallb (fun r => negb (datetime_ltb t (SakilaPayment.last_update r)))
       (src_payment source).

(** The console lines that report processed rows. *)
Definition is_processed (e : Event) : bool :=
  match e with
  | Processed _ _ => true
  | _ => false
  end.

(** ** Sample data *)

Definition ts (y m d us : Z) : datetime.t := datetime.mk (date.mk y m d) us.

(** A clock that reads 2024-01-01 and one microsecond more at every reading. *)
Definition clock_2024 (n : nat) : datetime.t := ts 2024 1 1 (Z.of_nat n).

(** A loader clock that lags the clock of the source: it reads 20:00 on
    2006-02-14 while the sample source rows are stamped 2006-02-15. *)
Definition clock_lagging (n : nat) : datetime.t :=
  ts 2006 2 14 (72000000000 + Z.of_nat n).

(** A clock that reads midnight of 2024-01-01 first and one day more at every
    further reading. *)
Definition clock_daily (n : nat) : datetime.t := ts 2024 1 (1 + Z.of_nat n) 0.

(** Three snapshots of a source: a first film; then a second film that
    arrives with an old timestamp, and a rental of it on 2024-01-02; then, on
    2024-01-04, the second film touched and the rental returned. *)
Definition late_film_1 : SourceDB :=
  mkSourceDB [SakilaFilm.mk 1 "ACADEMY DINOSAUR" "PG" 86 (ts 2006 2 15 0)]
    [] [] [] [] [] [] [] [] [] [] [] [] [].

Definition late_film_2 : SourceDB :=
  mkSourceDB
    [SakilaFilm.mk 1 "ACADEMY DINOSAUR" "PG" 86 (ts 2006 2 15 0);
     SakilaFilm.mk 7 "AIRPLANE SIERRA" "PG-13" 62 (ts 2006 2 15 0)]
    [] [] [] [] [] [] [] [SakilaInventory.mk 1 7] []
    [SakilaRental.mk 1 (ts 2024 1 2 43200000000) 1 1 None 1
       (ts 2024 1 2 43200000000)]
    [] [] [].

Definition late_film_3 : SourceDB :=
  mkSourceDB
    [SakilaFilm.mk 1 "ACADEMY DINOSAUR" "PG" 86 (ts 2006 2 15 0);
     SakilaFilm.mk 7 "AIRPLANE SIERRA" "PG-13" 62 (ts 2024 1 4 21600000000)]
    [] [] [] [] [] [] [] [SakilaInventory.mk 1 7] []
    [SakilaRental.mk 1 (ts 2024 1 2 43200000000) 1 1
       (Some (ts 2024 1 4 28800000000)) 1 (ts 2024 1 4 28800000000)]
    [] [] [].

(** A store with empty tables and nothing on the console. *)
Definition empty_store : St := mkSt empty_target empty_target 0 [].

Definition sample_source : SourceDB :=
  mkSourceDB
    [SakilaFilm.mk 1 "ACADEMY DINOSAUR" "PG" 86 (ts 2006 2 15 0)]
    [SakilaCustomer.mk 1 "MARY" "SMITH" "mary@example.org" 1 5 (ts 2006 2 15 0)]
    [SakilaAddress.mk 5 463; SakilaAddress.mk 1 300]
    [SakilaCity.mk 463 "Sasebo" 50; SakilaCity.mk 300 "Lethbridge" 20]
    [SakilaCountry.mk 50 "Japan"; SakilaCountry.mk 20 "Canada"]
    [SakilaStore.mk 1 1 (ts 2006 2 15 0)]
    [SakilaActor.mk 1 "PENELOPE" "GUINESS" (ts 2006 2 15 0)]
    [SakilaCategory.mk 6 "Documentary" (ts 2006 2 15 0)]
    [SakilaInventory.mk 1 1]
    [SakilaStaff.mk 1 1]
    [SakilaRental.mk 1 (ts 2005 5 24 0) 1 1 (Some (ts 2005 5 26 0)) 1
       (ts 2006 2 15 0)]
    [SakilaPayment.mk 1 1 1 299 (ts 2005 5 25 0) (ts 2006 2 15 0)]
    [SakilaFilmActor.mk 1 1]
    [SakilaFilmCategory.mk 1 6].

(** The bridge rebuild on the store alone, as a run leaves it once the session
    is closed: both bridge tables replaced, or, when the flush failed and the
    transaction was rolled back, nothing changed. *)
Definition rebuild_bridges (source : SourceDB) (db : TargetDB) : TargetDB :=
  let film_map := get_surrogate_key_map (dim_film db) in
  let actor_map := get_surrogate_key_map (dim_actor db) in
  let category_map := get_surrogate_key_map (dim_category db) in
  let batch_fa :=
    omap (film_actor_row film_map actor_map) (src_film_actor source) in
  let batch_fc :=
    omap (film_category_row film_map category_map) (src_film_category source) in
  if bool_decide (NoDup batch_fa) && bool_decide (NoDup batch_fc)
  then with_bridge_film_category batch_fc (with_bridge_film_actor batch_fa db)
  else db.

(** [out] reports no processed rows. *)
Definition quiet (out : list Event) : Prop :=
  Forall (fun e => is_processed e = false) out.

(** The line the validator prints for one entity pair. *)
Definition check_status (source : SourceDB) (db : TargetDB)
    (check : string * (SourceDB -> nat) * (TargetDB -> nat)) : Status :=
  count_status (check.1.2 source) (check.2 db).

Definition count_line (source : SourceDB) (db : TargetDB)
    (check : string * (SourceDB -> nat) * (TargetDB -> nat)) : Event :=
  CountLine check.1.1 (check.1.2 source) (check.2 db)
    (check_status source db check).

(** ** Calendar vocabulary *)

(** The days the generation loop visits from [current_date] on. *)
Fixpoint days_visited (fuel : nat) (end_date current_date : date.t)
  : list date.t :=
  match fuel with
  | O => []
  | Datatypes.S fuel =>
    if date_leb current_date end_date then
      current_date ::
        match next_day current_date with
        | Some d => days_visited fuel end_date d
        | None => []
        end
    else []
  end.

(** The rows generated for the days whose key is not among [keys]. *)
Definition new_rows (keys : gset Z) (days : list date.t) : list DimDate.t :=
  make_dim_date <$> filter (fun d => int (strftime_Ymd d) ∉ keys) days.

(** A rank that grows with the calendar order (not the day count). *)
Definition day_rank (d : date.t) : Z :=
  372 * date.year d + 31 * date.month d + date.day d.

(** The days the generator visits for a year range. *)
Definition calendar_days (start_year end_year : Z) : list date.t :=
  days_visited (Z.to_nat (372 * (end_year - start_year + 1)))
    (date.mk end_year 12 31) (date.mk start_year 1 1).

Definition date_keys (tbl : list DimDate.t) : gset Z :=
  list_to_set (DimDate.date_key <$> tbl).

(** A few synchronizer runs against the sample source, and the store an
    incremental load of it leaves. *)
Definition sample_runs : list (Table * SourceDB) :=
  [(T_dim_film, sample_source); (T_dim_customer, sample_source);
   (T_fact_rental, sample_source); (T_dim_film, sample_source)].

Definition loaded_store : St :=
  incremental_load clock_2024 sample_source empty_store.

(** ** Stores the pipeline can produce *)

(** In every synchronized table natural keys are unique and surrogate keys
    are distinct and positive. *)
Definition keys_ok (keys : list (Z * Z)) : Prop :=
  natural_keys_unique keys /\ NoDup keys.*2 /\ Forall (fun s => 0 < s) keys.*2.

Definition store_ok (db : TargetDB) : Prop :=
  forall t, keys_ok (table_keys t db).

(** The states reached from the empty store by synchronizer runs, loads,
    calendar generation and validation, against any sources. *)
Inductive reachable (wall_clock : nat -> datetime.t) : St -> Prop :=
  | reach_empty : reachable wall_clock empty_store
  | reach_sync_table t source st :
      reachable wall_clock st ->
      reachable wall_clock (sync_table wall_clock t source st)
  | reach_incremental_load source st :
      reachable wall_clock st ->
      reachable wall_clock (incremental_load wall_clock source st)
  | reach_full_load source st :
      reachable wall_clock st ->
      reachable wall_clock (full_load wall_clock source st)
  | reach_load_dim_date st start_year end_year st' :
      reachable wall_clock st ->
      MINYEAR <= start_year <= MAXYEAR -> MINYEAR <= end_year < MAXYEAR ->
      load_dim_date st start_year end_year = Some (Returned st') ->
      reachable wall_clock st'
  | reach_validate_data source st :
      reachable wall_clock st ->
      reachable wall_clock (validate_data source st).

(** The last day [datetime.date] can represent. *)
Definition last_day : date.t := date.mk MAXYEAR 12 31.

(** * Properties *)

(** ** The upsert on key pairs *)

Section UpsertFacts.
  Context {S R : Type} `{TargetRow R}.
  Variable key_of : S -> Z.
  Variable update : S -> datetime.t -> R -> R.
  Variable insert : S -> datetime.t -> Z -> R.
  Hypothesis update_keys : forall src now row,
    natural_key (update src now row) = natural_key row /\
    surrogate_key (update src now row) = surrogate_key row.
  Hypothesis insert_keys : forall src now k,
    natural_key (insert src now k) = key_of src /\
    surrogate_key (insert src now k) = k.

Lemma next_rowid_keys_of (tbl : list R) : next_rowid tbl = next_key (keys_of tbl).
Proof.
  unfold next_rowid, next_key, keys_of.
  replace (((fun row : R => (natural_key row, surrogate_key row)) <$> tbl).*2)
    with (map surrogate_key tbl); [done|].
  induction tbl as [|r tbl IH]; [done|]. simpl. by rewrite IH.
Qed.

Lemma natural_keys_of (tbl : list R) : (keys_of tbl).*1 = natural_key <$> tbl.
Proof. unfold keys_of. rewrite <- list_fmap_compose. done. Qed.

(** The two branches of [upsert]. *)
Lemma upsert_cases (now : datetime.t) (src : S) (tbl : list R) :
  (exists i existing,
      tbl !! i = Some existing /\ natural_key existing = key_of src /\
      (forall j row, tbl !! j = Some row -> (j < i)%nat ->
                     natural_key row <> key_of src) /\
      upsert key_of update insert now src tbl
      = <[i := update src now existing]> tbl)
  \/ (Forall (fun row => natural_key row <> key_of src) tbl /\
      upsert key_of update insert now src tbl
      = tbl ++ [insert src now (next_rowid tbl)]).
Proof.
  unfold upsert, filter_by_first.
  destruct (list_find _ tbl) as [[i existing]|] eqn:Hfind.
  - left. apply list_find_Some in Hfind as (Hi & Hk & Hbefore).
    exists i, existing. repeat split; eauto.
  - right. apply list_find_None in Hfind. done.
Qed.

Lemma keys_of_upsert (now : datetime.t) (src : S) (tbl : list R) :
  keys_of (upsert key_of update insert now src tbl)
  = upsert_key (key_of src) (keys_of tbl).
Proof.
  unfold upsert_key.
  destruct (upsert_cases now src tbl)
    as [(i & existing & Hi & Hk & _ & ->) | (Hnone & ->)].
  - rewrite decide_True.
    + unfold keys_of. rewrite list_fmap_insert.
      destruct (update_keys src now existing) as [-> ->].
      apply list_insert_id. by rewrite list_lookup_fmap, Hi.
    + rewrite natural_keys_of. apply list_elem_of_fmap.
      exists existing. split; [done|]. by eapply list_elem_of_lookup_2.
  - rewrite decide_False.
    + unfold keys_of at 1. rewrite fmap_app. simpl.
      destruct (insert_keys src now (next_rowid tbl)) as [-> ->].
      by rewrite next_rowid_keys_of.
    + rewrite natural_keys_of. intros (row & Hrow & Hin)%list_elem_of_fmap.
      rewrite Forall_forall in Hnone. by apply (Hnone row).
Qed.

Lemma upsert_loop_snoc (clock : nat -> datetime.t) (changes : list S) (src : S)
    (acc : list R * nat) :
  upsert_loop key_of update insert clock (changes ++ [src]) acc
  = let res := upsert_loop key_of update insert clock changes acc in
    (upsert key_of update insert (clock (snd res)) src (fst res),
     Datatypes.S (snd res)).
Proof.
  unfold upsert_loop. rewrite foldl_app. simpl.
  by destruct (foldl _ acc changes).
Qed.

Lemma upsert_loop_ticks (clock : nat -> datetime.t) (changes : list S)
    (acc : list R * nat) :
  snd (upsert_loop key_of update insert clock changes acc)
  = (snd acc + length changes)%nat.
Proof.
  induction changes as [|src changes IH] using rev_ind.
  - simpl. lia.
  - rewrite upsert_loop_snoc. simpl. rewrite IH, length_app. simpl. lia.
Qed.

Lemma keys_of_upsert_loop (clock : nat -> datetime.t) (changes : list S)
    (acc : list R * nat) :
  keys_of (fst (upsert_loop key_of update insert clock changes acc))
  = foldl (fun keys k => upsert_key k keys) (keys_of (fst acc))
      (key_of <$> changes).
Proof.
  induction changes as [|src changes IH] using rev_ind; [done|].
  rewrite upsert_loop_snoc, fmap_app, foldl_app. simpl.
  by rewrite keys_of_upsert, IH.
Qed.

End UpsertFacts.

(** ** Invariants of the upsert on key pairs *)

Lemma foldr_max_ge (k : Z) (ks : list Z) :
  k <= foldr Z.max k ks /\ Forall (fun x => x <= foldr Z.max k ks) ks.
Proof.
  induction ks as [|x ks [IH1 IH2]]; simpl; [split; [lia|constructor]|].
  split; [lia|]. constructor; [lia|].
  eapply Forall_impl; [exact IH2|]. simpl. intros; lia.
Qed.

Lemma next_key_fresh (keys : list (Z * Z)) :
  Forall (fun s => s < next_key keys) keys.*2.
Proof.
  unfold next_key. destruct (keys.*2) as [|k ks]; [constructor|].
  destruct (foldr_max_ge k ks) as [H1 H2].
  constructor; [lia|]. eapply Forall_impl; [exact H2|]. simpl. intros; lia.
Qed.

Lemma next_key_not_in (keys : list (Z * Z)) : next_key keys ∉ keys.*2.
Proof.
  intros Hin. pose proof (next_key_fresh keys) as Hf.
  rewrite Forall_forall in Hf. specialize (Hf _ Hin). lia.
Qed.

Lemma next_key_positive (keys : list (Z * Z)) :
  Forall (fun s => 0 < s) keys.*2 -> 0 < next_key keys.
Proof.
  intros Hpos. unfold next_key. destruct (keys.*2) as [|k ks]; [lia|].
  apply Forall_cons in Hpos as [Hk _].
  destruct (foldr_max_ge k ks) as [Hge _]. lia.
Qed.

Lemma upsert_key_prefix (k : Z) (keys : list (Z * Z)) :
  exists added, upsert_key k keys = keys ++ added.
Proof.
  unfold upsert_key. case_decide; [exists []|eexists]; [by rewrite app_nil_r|done].
Qed.

Lemma upsert_key_unique (k : Z) (keys : list (Z * Z)) :
  natural_keys_unique keys -> natural_keys_unique (upsert_key k keys).
Proof.
  unfold natural_keys_unique, upsert_key. intros Hnd. case_decide; [done|].
  rewrite fmap_app. apply NoDup_app. split; [done|]. split.
  - intros x Hx ->%list_elem_of_singleton. done.
  - apply NoDup_singleton.
Qed.

Lemma upsert_key_surrogates (k : Z) (keys : list (Z * Z)) :
  NoDup keys.*2 -> NoDup (upsert_key k keys).*2.
Proof.
  unfold upsert_key. intros Hnd. case_decide; [done|].
  rewrite fmap_app. apply NoDup_app. split; [done|]. split.
  - intros x Hx ->%list_elem_of_singleton. by apply (next_key_not_in keys).
  - apply NoDup_singleton.
Qed.

Lemma upsert_key_positive (k : Z) (keys : list (Z * Z)) :
  Forall (fun s => 0 < s) keys.*2 ->
  Forall (fun s => 0 < s) (upsert_key k keys).*2.
Proof.
  unfold upsert_key. intros Hpos. case_decide; [done|].
  rewrite fmap_app. apply Forall_app. split; [done|].
  constructor; [|constructor]. by apply next_key_positive.
Qed.

Lemma upsert_key_covers (k : Z) (keys : list (Z * Z)) :
  k ∈ (upsert_key k keys).*1.
Proof.
  unfold upsert_key. case_decide; [done|].
  rewrite fmap_app. apply elem_of_app. right. by apply list_elem_of_singleton.
Qed.

Lemma upsert_keys_prefix (ks : list Z) (keys : list (Z * Z)) :
  exists added, foldl (fun keys k => upsert_key k keys) keys ks = keys ++ added.
Proof.
  revert keys. induction ks as [|k ks IH]; intros keys; simpl.
  - exists []. by rewrite app_nil_r.
  - destruct (upsert_key_prefix k keys) as [a1 ->].
    destruct (IH (keys ++ a1)) as [a2 ->]. exists (a1 ++ a2).
    by rewrite app_assoc.
Qed.

Lemma upsert_keys_unique (ks : list Z) (keys : list (Z * Z)) :
  natural_keys_unique keys ->
  natural_keys_unique (foldl (fun keys k => upsert_key k keys) keys ks).
Proof.
  revert keys. induction ks as [|k ks IH]; intros keys Hu; simpl; [done|].
  by apply IH, upsert_key_unique.
Qed.

Lemma upsert_keys_surrogates (ks : list Z) (keys : list (Z * Z)) :
  NoDup keys.*2 ->
  NoDup (foldl (fun keys k => upsert_key k keys) keys ks).*2.
Proof.
  revert keys. induction ks as [|k ks IH]; intros keys Hu; simpl; [done|].
  by apply IH, upsert_key_surrogates.
Qed.

Lemma upsert_keys_positive (ks : list Z) (keys : list (Z * Z)) :
  Forall (fun s => 0 < s) keys.*2 ->
  Forall (fun s => 0 < s) (foldl (fun keys k => upsert_key k keys) keys ks).*2.
Proof.
  revert keys. induction ks as [|k ks IH]; intros keys Hu; simpl; [done|].
  by apply IH, upsert_key_positive.
Qed.

(** A natural key that is unique in a table determines its surrogate key. *)
Lemma unique_key_functional (keys : list (Z * Z)) (k s s' : Z) :
  natural_keys_unique keys -> (k, s) ∈ keys -> (k, s') ∈ keys -> s = s'.
Proof.
  unfold natural_keys_unique. intros Hnd H1 H2.
  apply list_elem_of_lookup in H1 as [i Hi]. apply list_elem_of_lookup in H2 as [j Hj].
  assert (i = j) as ->.
  { eapply NoDup_lookup; [exact Hnd| |]; rewrite list_lookup_fmap.
    - by rewrite Hi. - by rewrite Hj. }
  congruence.
Qed.

(** ** The upsert loop row by row *)

Section UpsertRows.
Context {S R : Type} `{TargetRow R}.
Variable key_of : S -> Z.
Variable update : S -> datetime.t -> R -> R.
Variable insert : S -> datetime.t -> Z -> R.
Variable clock : nat -> datetime.t.

(** Rows keep their position: a row that was there is related to its old
    self by anything every update preserves, a row beyond the old table has
    whatever every insert establishes and every update keeps. *)
Lemma upsert_loop_pointwise (P : R -> R -> Prop) (Q : R -> Prop)
    (changes : list S) (tbl : list R) (n : nat) :
  (forall row, P row row) ->
  (forall src now a b, P a b -> P a (update src now b)) ->
  (forall src now k, Q (insert src now k)) ->
  (forall src now row, Q row -> Q (update src now row)) ->
  let res := fst (upsert_loop key_of update insert clock changes (tbl, n)) in
  (length tbl <= length res)%nat /\
  forall i row', res !! i = Some row' ->
    match tbl !! i with
    | Some row => P row row'
    | None => Q row'
    end.
Proof.
  intros Hrefl Hupd Hins Hkeep. cbv zeta.
  induction changes as [|src changes [IHlen IH]] using rev_ind.
  - simpl. split; [done|]. intros i row' ->. apply Hrefl.
  - rewrite upsert_loop_snoc. cbv zeta. cbn [fst].
    set (res := fst (upsert_loop key_of update insert clock changes (tbl, n))) in *.
    set (now := clock _).
    destruct (upsert_cases key_of update insert now src res)
      as [(j & existing & Hj & _ & _ & ->) | (_ & ->)].
    + rewrite length_insert. split; [done|]. intros i row' Hi.
      apply list_lookup_insert_Some in Hi as [(-> & <- & _) | (Hne & Hi)].
      * specialize (IH _ _ Hj). destruct (tbl !! i); [by apply Hupd|by apply Hkeep].
      * by apply IH.
    + rewrite length_app. split; [lia|]. intros i row' Hi.
      apply lookup_snoc_Some in Hi as [(Hlt & Hi) | (-> & <-)]; [by apply IH|].
      rewrite (lookup_ge_None_2 tbl (length res)) by lia. apply Hins.
Qed.

Hypothesis update_keys : forall src now row,
  natural_key (update src now row) = natural_key row /\
  surrogate_key (update src now row) = surrogate_key row.
Hypothesis insert_keys : forall src now k,
  natural_key (insert src now k) = key_of src /\
  surrogate_key (insert src now k) = k.

Lemma upsert_loop_unique (changes : list S) (tbl : list R) (n : nat) :
  natural_keys_unique (keys_of tbl) ->
  natural_keys_unique
    (keys_of (fst (upsert_loop key_of update insert clock changes (tbl, n)))).
Proof.
  intros Hu. rewrite (keys_of_upsert_loop key_of update insert) by done.
  by apply upsert_keys_unique.
Qed.

(** Rows touched by the loop: [Qu src row] is what both branches establish
    from the change [src]. With unique natural keys, every row whose natural
    key was among the changes has it from one of them. *)
Lemma upsert_loop_touched (Qu : S -> R -> Prop) (changes : list S)
    (tbl : list R) (n : nat) :
  (forall src now row, Qu src (update src now row)) ->
  (forall src now k, Qu src (insert src now k)) ->
  natural_keys_unique (keys_of tbl) ->
  forall row', row' ∈ fst (upsert_loop key_of update insert clock changes (tbl, n)) ->
    natural_key row' ∈ key_of <$> changes ->
    exists src, src ∈ changes /\ key_of src = natural_key row' /\ Qu src row'.
Proof.
  intros Hupd Hins Hu.
  induction changes as [|src changes IH] using rev_ind.
  - intros row' _ Hin. by apply elem_of_nil in Hin.
  - intros row'. rewrite upsert_loop_snoc. cbv zeta. cbn [fst].
    pose proof (upsert_loop_unique changes tbl n Hu) as Hures.
    set (res := fst (upsert_loop key_of update insert clock changes (tbl, n))) in *.
    set (now := clock _).
    assert (forall r, r ∈ res -> natural_key r <> key_of src ->
              natural_key r ∈ key_of <$> changes ++ [src] ->
              exists c, c ∈ changes ++ [src] /\ key_of c = natural_key r /\ Qu c r)
      as Hold.
    { intros r Hr Hne Hin. rewrite fmap_app in Hin.
      apply elem_of_app in Hin as [Hin | Hin%list_elem_of_singleton]; [|done].
      destruct (IH r Hr Hin) as (c & Hc & Hk & Hq).
      exists c. split; [|done]. apply elem_of_app. by left. }
    destruct (upsert_cases key_of update insert now src res)
      as [(j & existing & Hj & Hk & _ & ->) | (Hnone & ->)].
    + intros Hrow' Hin. apply list_elem_of_lookup in Hrow' as [i Hi].
      apply list_lookup_insert_Some in Hi as [(-> & <- & _) | (Hne & Hi)].
      * exists src. split; [apply elem_of_app; right; by apply list_elem_of_singleton|].
        split; [|apply Hupd]. destruct (update_keys src now existing) as [-> _].
        done.
      * apply Hold; [by eapply list_elem_of_lookup_2| |done].
        intros Heq. apply Hne.
        unfold natural_keys_unique in Hures. rewrite natural_keys_of in Hures.
        eapply NoDup_lookup; [exact Hures| |]; rewrite list_lookup_fmap.
        -- rewrite Hj. simpl. by rewrite Hk.
        -- rewrite Hi. simpl. by rewrite Heq.
    + intros Hrow' Hin.
      apply elem_of_app in Hrow' as [Hrow' | ->%list_elem_of_singleton].
      * apply Hold; [done| |done]. rewrite Forall_forall in Hnone. by apply Hnone.
      * exists src. split; [apply elem_of_app; right; by apply list_elem_of_singleton|].
        split; [|apply Hins]. by destruct (insert_keys src now (next_rowid res)) as [-> _].
Qed.

(** Rows inserted by the loop: [Qi src row] is what the insert branch
    establishes from [src] and no later update destroys. *)
Lemma upsert_loop_inserted (Qi : S -> R -> Prop) (changes : list S)
    (tbl : list R) (n : nat) :
  (forall src now k, Qi src (insert src now k)) ->
  (forall src src' now row, Qi src row -> Qi src (update src' now row)) ->
  forall row', row' ∈ fst (upsert_loop key_of update insert clock changes (tbl, n)) ->
    natural_key row' ∉ natural_key <$> tbl ->
    exists src, src ∈ changes /\ key_of src = natural_key row' /\ Qi src row'.
Proof.
  intros Hins Hkeep.
  induction changes as [|src changes IH] using rev_ind.
  - simpl. intros row' Hin Hnot. exfalso. apply Hnot. by apply list_elem_of_fmap_2.
  - intros row'. rewrite upsert_loop_snoc. cbv zeta. cbn [fst].
    set (res := fst (upsert_loop key_of update insert clock changes (tbl, n))) in *.
    set (now := clock _).
    assert (forall r, r ∈ res -> natural_key r ∉ natural_key <$> tbl ->
              exists c, c ∈ changes ++ [src] /\ key_of c = natural_key r /\ Qi c r)
      as Hold.
    { intros r Hr Hnot. destruct (IH r Hr Hnot) as (c & Hc & Hk & Hq).
      exists c. split; [|done]. apply elem_of_app. by left. }
    destruct (upsert_cases key_of update insert now src res)
      as [(j & existing & Hj & Hk & _ & ->) | (Hnone & ->)].
    + intros Hrow' Hnot. apply list_elem_of_lookup in Hrow' as [i Hi].
      apply list_lookup_insert_Some in Hi as [(-> & <- & _) | (Hne & Hi)].
      * destruct (update_keys src now existing) as [Hnk _].
        rewrite Hnk in Hnot |- *.
        destruct (Hold existing) as (c & Hc & Hck & Hq);
          [by eapply list_elem_of_lookup_2|done|].
        exists c. split; [done|]. split; [done|]. by apply Hkeep.
      * apply Hold; [by eapply list_elem_of_lookup_2|done].
    + intros Hrow' Hnot.
      apply elem_of_app in Hrow' as [Hrow' | ->%list_elem_of_singleton].
      * by apply Hold.
      * exists src. split; [apply elem_of_app; right; by apply list_elem_of_singleton|].
        split; [|apply Hins]. by destruct (insert_keys src now (next_rowid res)) as [-> _].
Qed.

End UpsertRows.

(** ** Key maps *)

Section KeyMaps.
Context {R : Type} `{TargetRow R}.

Lemma get_surrogate_key_map_snoc (tbl : list R) (row : R) :
  get_surrogate_key_map (tbl ++ [row])
  = <[natural_key row := surrogate_key row]> (get_surrogate_key_map tbl).
Proof. unfold get_surrogate_key_map. by rewrite foldl_app. Qed.

(** Every entry of the map comes from a row of the table. *)
Lemma key_map_lookup_row (tbl : list R) (k s : Z) :
  get_surrogate_key_map tbl !! k = Some s ->
  exists row, row ∈ tbl /\ natural_key row = k /\ surrogate_key row = s.
Proof.
  induction tbl as [|row tbl IH] using rev_ind; [done|].
  rewrite get_surrogate_key_map_snoc. intros Hl.
  apply lookup_insert_Some in Hl as [[<- <-] | [Hne Hl]].
  - exists row. split; [|done]. apply elem_of_app. right.
    by apply list_elem_of_singleton.
  - destruct (IH Hl) as (r & Hr & Hk & Hs). exists r. split; [|done].
    apply elem_of_app. by left.
Qed.

(** Every natural key of the table has an entry. *)
Lemma key_map_covers (tbl : list R) (row : R) :
  row ∈ tbl -> is_Some (get_surrogate_key_map tbl !! natural_key row).
Proof.
  induction tbl as [|r tbl IH] using rev_ind; [by intros ?%elem_of_nil|].
  rewrite get_surrogate_key_map_snoc.
  intros [Hin | ->%list_elem_of_singleton]%elem_of_app.
  - destruct (decide (natural_key r = natural_key row)) as [-> | Hne].
    + rewrite lookup_insert_eq. by eexists.
    + rewrite lookup_insert_ne by done. by apply IH.
  - rewrite lookup_insert_eq. by eexists.
Qed.

Lemma key_map_injective (tbl : list R) (k1 k2 s : Z) :
  NoDup (surrogate_key <$> tbl) ->
  get_surrogate_key_map tbl !! k1 = Some s ->
  get_surrogate_key_map tbl !! k2 = Some s -> k1 = k2.
Proof.
  intros Hnd (r1 & Hr1 & <- & Hs1)%key_map_lookup_row
    (r2 & Hr2 & <- & Hs2)%key_map_lookup_row.
  apply list_elem_of_lookup in Hr1 as [i Hi].
  apply list_elem_of_lookup in Hr2 as [j Hj].
  assert (i = j) as ->; [|congruence].
  eapply NoDup_lookup; [exact Hnd| |]; rewrite list_lookup_fmap.
  - rewrite Hi. simpl. by rewrite Hs1.
  - rewrite Hj. simpl. by rewrite Hs2.
Qed.

Lemma key_map_truthy (tbl : list R) (k s : Z) :
  Forall (fun row => surrogate_key row <> 0) tbl ->
  get_surrogate_key_map tbl !! k = Some s -> truthy (Some s) = true.
Proof.
  intros Hnz (row & Hrow & _ & <-)%key_map_lookup_row.
  rewrite Forall_forall in Hnz. specialize (Hnz row Hrow).
  simpl. by apply negb_true_iff, Z.eqb_neq.
Qed.

End KeyMaps.

Lemma NoDup_omap_inj {A B : Type} (f : A -> option B) (l : list A) :
  (forall x y z, x ∈ l -> y ∈ l -> f x = Some z -> f y = Some z -> x = y) ->
  NoDup l -> NoDup (omap f l).
Proof.
  intros Hinj Hnd. induction Hnd as [|x l Hx Hnd IH]; [constructor|].
  simpl. destruct (f x) as [z|] eqn:Hfx.
  - constructor.
    + intros (y & Hy & Hfy)%list_elem_of_omap. apply Hx.
      rewrite (Hinj x y z); [done|by left|by right|done|done].
    + apply IH. intros a b c Ha Hb. apply Hinj; by right.
  - apply IH. intros a b c Ha Hb. apply Hinj; by right.
Qed.

Lemma length_omap_filter {A B : Type} (f : A -> option B) (P : A -> Prop)
    `{forall x, Decision (P x)} (l : list A) :
  (forall x, x ∈ l -> is_Some (f x) <-> P x) ->
  length (omap f l) = length (filter P l).
Proof.
  induction l as [|x l IH]; intros Hiff; [done|].
  simpl. rewrite filter_cons.
  pose proof (Hiff x ltac:(by left)) as Hx.
  assert (length (omap f l) = length (filter P l)) as IH'.
  { apply IH. intros y Hy. apply Hiff. by right. }
  destruct (f x) as [z|] eqn:Hfx.
  - rewrite decide_True by (apply Hx; by eexists). cbn [length]. by f_equal.
  - rewrite decide_False; [done|]. intros HP. apply Hx in HP as [? ?]. done.
Qed.

(** ** Bridge rebuild *)

(** The rebuild in closed form: both bridge tables are replaced by what the
    key maps of the current dimensions make of the source associations. *)
Lemma sync_bridge_tables_closed_form (source : SourceDB) (st : St) :
  let film_map := get_surrogate_key_map (dim_film (working st)) in
  let actor_map := get_surrogate_key_map (dim_actor (working st)) in
  let category_map := get_surrogate_key_map (dim_category (working st)) in
  let batch_fa :=
    omap (film_actor_row film_map actor_map) (src_film_actor source) in
  let batch_fc :=
    omap (film_category_row film_map category_map) (src_film_category source) in
  let target :=
    mkSt (committed st)
      (with_bridge_film_category batch_fc
         (with_bridge_film_actor batch_fa (working st)))
      (ticks st)
      (stdout st ++ [SyncingBridgeTables; Loaded (length batch_fa) "film-actor";
                     Loaded (length batch_fc) "film-category"]) in
  sync_bridge_tables source st
  = if bool_decide (NoDup batch_fa) && bool_decide (NoDup batch_fc)
    then Returned (commit target)
    else Raised IntegrityError target.
Proof.
  cbv zeta. unfold sync_bridge_tables. cbv zeta.
  cbn [working print with_working dim_film dim_actor dim_category
       with_bridge_film_actor with_bridge_film_category].
  set (batch_fa := omap _ (src_film_actor source)).
  set (batch_fc := omap _ (src_film_category source)).
  match goal with
  | |- (if _ then Returned (commit ?T1) else _) = (if _ then Returned (commit ?T2) else _) =>
    assert (T1 = T2) as ->; [|done]
  end.
  clearbody batch_fa batch_fc.
  destruct st as [com work n out].
  unfold print, add_all_film_actor, add_all_film_category, with_working; simpl.
  destruct batch_fa as [|a fa], batch_fc as [|c fc]; simpl; f_equal;
    by rewrite <- !app_assoc.
Qed.

Lemma film_actor_row_Some (film_map actor_map : gmap Z Z)
    (link : SakilaFilmActor.t) (b : BridgeFilmActor.t) :
  film_actor_row film_map actor_map link = Some b ->
  film_map !! SakilaFilmActor.film_id link = Some (BridgeFilmActor.film_key b) /\
  actor_map !! SakilaFilmActor.actor_id link = Some (BridgeFilmActor.actor_key b).
Proof.
  unfold film_actor_row.
  destruct (film_map !! _) as [f|], (actor_map !! _) as [a|]; try done.
  destruct (truthy (Some f) && truthy (Some a)); [|done]. by intros [= <-].
Qed.

Lemma film_category_row_Some (film_map category_map : gmap Z Z)
    (link : SakilaFilmCategory.t) (b : BridgeFilmCategory.t) :
  film_category_row film_map category_map link = Some b ->
  film_map !! SakilaFilmCategory.film_id link
  = Some (BridgeFilmCategory.film_key b) /\
  category_map !! SakilaFilmCategory.category_id link
  = Some (BridgeFilmCategory.category_key b).
Proof.
  unfold film_category_row.
  destruct (film_map !! _) as [f|], (category_map !! _) as [c|]; try done.
  destruct (truthy (Some f) && truthy (Some c)); [|done]. by intros [= <-].
Qed.

Lemma key_map_surrogate_in {R : Type} `{TargetRow R} (tbl : list R) (k s : Z) :
  get_surrogate_key_map tbl !! k = Some s -> s ∈ surrogate_key <$> tbl.
Proof.
  intros (row & Hrow & _ & <-)%key_map_lookup_row. by apply list_elem_of_fmap_2.
Qed.

(** C5. Let the film, actor and category dimensions satisfy their primary
    keys (distinct, non-zero surrogate keys) and let the source association
    tables hold no pair twice. Then the bridge rebuild returns without an
    error, commits, and leaves the dimensions as they were; every bridge row
    refers to a film key and an actor (category) key of an existing dimension
    row; and the number of bridge rows of each kind is the number of source
    associations of that kind whose two natural keys both have an entry in
    the key maps of the target dimensions. Associations with an endpoint
    missing from a map are dropped, they raise nothing. *)
Theorem bridge_rebuild_resolves_and_counts (source : SourceDB) (st : St) :
  primary_key_ok (dim_film (working st)) ->
  primary_key_ok (dim_actor (working st)) ->
  primary_key_ok (dim_category (working st)) ->
  NoDup (src_film_actor source) ->
  NoDup (src_film_category source) ->
  exists st',
    sync_bridge_tables source st = Returned st' /\
    committed st' = working st' /\
    dim_film (working st') = dim_film (working st) /\
    dim_actor (working st') = dim_actor (working st) /\
    dim_category (working st') = dim_category (working st) /\
    (forall b, b ∈ bridge_film_actor (working st') ->
       BridgeFilmActor.film_key b ∈ DimFilm.film_key <$> dim_film (working st') /\
       BridgeFilmActor.actor_key b
         ∈ DimActor.actor_key <$> dim_actor (working st')) /\
    (forall b, b ∈ bridge_film_category (working st') ->
       BridgeFilmCategory.film_key b
         ∈ DimFilm.film_key <$> dim_film (working st') /\
       BridgeFilmCategory.category_key b
         ∈ DimCategory.category_key <$> dim_category (working st')) /\
    length (bridge_film_actor (working st'))
    = length
        (filter
           (fun link =>
              is_Some (get_surrogate_key_map (dim_film (working st'))
                         !! SakilaFilmActor.film_id link) /\
              is_Some (get_surrogate_key_map (dim_actor (working st'))
                         !! SakilaFilmActor.actor_id link))
           (src_film_actor source)) /\
    length (bridge_film_category (working st'))
    = length
        (filter
           (fun link =>
              is_Some (get_surrogate_key_map (dim_film (working st'))
                         !! SakilaFilmCategory.film_id link) /\
              is_Some (get_surrogate_key_map (dim_category (working st'))
                         !! SakilaFilmCategory.category_id link))
           (src_film_category source)).
Proof.
  intros [Hfnd Hfnz] [Hand Hanz] [Hcnd Hcnz] Hfa Hfc.
  pose proof (sync_bridge_tables_closed_form source st) as Hform.
  cbv zeta in Hform.
  set (film_map := get_surrogate_key_map (dim_film (working st))) in *.
  set (actor_map := get_surrogate_key_map (dim_actor (working st))) in *.
  set (category_map := get_surrogate_key_map (dim_category (working st))) in *.
  set (batch_fa := omap _ (src_film_actor source)) in *.
  set (batch_fc := omap _ (src_film_category source)) in *.
  assert (NoDup batch_fa) as Hnd_fa.
  { apply NoDup_omap_inj; [|done]. intros [a1 f1] [a2 f2] b _ _ H1 H2.
    apply film_actor_row_Some in H1 as [Hf1 Ha1].
    apply film_actor_row_Some in H2 as [Hf2 Ha2]. simpl in *.
    f_equal.
    - exact (key_map_injective (dim_actor (working st)) _ _ _ Hand Ha1 Ha2).
    - exact (key_map_injective (dim_film (working st)) _ _ _ Hfnd Hf1 Hf2). }
  assert (NoDup batch_fc) as Hnd_fc.
  { apply NoDup_omap_inj; [|done]. intros [f1 c1] [f2 c2] b _ _ H1 H2.
    apply film_category_row_Some in H1 as [Hf1 Hc1].
    apply film_category_row_Some in H2 as [Hf2 Hc2]. simpl in *.
    f_equal.
    - exact (key_map_injective (dim_film (working st)) _ _ _ Hfnd Hf1 Hf2).
    - exact (key_map_injective (dim_category (working st)) _ _ _ Hcnd Hc1 Hc2). }
  rewrite !bool_decide_eq_true_2 in Hform by done. simpl in Hform.
  eexists. split; [exact Hform|]. simpl.
  split; [done|]. split; [done|]. split; [done|]. split; [done|].
  split; [|split; [|split]].
  - intros b (link & _ & Hrow)%list_elem_of_omap.
    apply film_actor_row_Some in Hrow as [Hf Ha].
    split; [exact (key_map_surrogate_in (dim_film (working st)) _ _ Hf)
           |exact (key_map_surrogate_in (dim_actor (working st)) _ _ Ha)].
  - intros b (link & _ & Hrow)%list_elem_of_omap.
    apply film_category_row_Some in Hrow as [Hf Hc].
    split; [exact (key_map_surrogate_in (dim_film (working st)) _ _ Hf)
           |exact (key_map_surrogate_in (dim_category (working st)) _ _ Hc)].
  - apply length_omap_filter. intros link _. unfold film_actor_row.
    fold film_map actor_map.
    destruct (film_map !! _) as [f|] eqn:Hf, (actor_map !! _) as [a|] eqn:Ha.
    + rewrite (key_map_truthy (dim_film (working st)) _ _ Hfnz Hf),
        (key_map_truthy (dim_actor (working st)) _ _ Hanz Ha).
      simpl. split; [by split; eexists|by eexists].
    + split; [by intros [? ?]|by intros [_ [? ?]]].
    + split; [by intros [? ?]|by intros [[? ?] _]].
    + split; [by intros [? ?]|by intros [[? ?] _]].
  - apply length_omap_filter. intros link _. unfold film_category_row.
    fold film_map category_map.
    destruct (film_map !! _) as [f|] eqn:Hf, (category_map !! _) as [c|] eqn:Hc.
    + rewrite (key_map_truthy (dim_film (working st)) _ _ Hfnz Hf),
        (key_map_truthy (dim_category (working st)) _ _ Hcnz Hc).
      simpl. split; [by split; eexists|by eexists].
    + split; [by intros [? ?]|by intros [_ [? ?]]].
    + split; [by intros [? ?]|by intros [[? ?] _]].
    + split; [by intros [? ?]|by intros [[? ?] _]].
Qed.

(** ** What one synchronizer run does *)

Section SyncFacts.
Variable wall_clock : nat -> datetime.t.

Ltac key_laws :=
  intros; repeat match goal with p : (_ * _)%type |- _ => destruct p end; done.

Ltac sync_shape sync changes :=
  match goal with
  | |- context [changes ?source ?last] =>
    destruct (changes source last) as [|c cs] eqn:Hc;
    unfold sync; cbv zeta;
    change (last_sync_of ?n (print ?e ?s)) with (last_sync_of n s);
    rewrite Hc; [done|];
    cbn [fmap list_fmap]; unfold now, finish_sync;
    match goal with
    | |- context [with_ticks _ (after_loop ?put ?res ?st0)] =>
      exists (after_loop put res st0)
    end;
    split; [done|];
    split; [unfold same_except; repeat split; try done; intros; congruence|];
    split;
    [etransitivity;
     [eapply keys_of_upsert_loop; key_laws|done]|];
    split;
    [etransitivity; [apply upsert_loop_ticks|];
     cbn [length snd]; by rewrite length_fmap|];
    split; [done|]; cbn [length]; by rewrite length_fmap
  end.

Lemma sync_table_shape (t : Table) (source : SourceDB) (st : St) :
  let last_sync := last_sync_of (table_name t) st in
  let ks := changed_keys t source last_sync in
  match ks with
  | [] =>
      sync_table wall_clock t source st
      = print (Syncing (heading t) last_sync) st
  | _ =>
      exists mid,
        committed mid = committed st /\
        same_except t (working mid) (working st) /\
        table_keys t (working mid)
        = foldl (fun keys k => upsert_key k keys) (table_keys t (working st)) ks /\
        ticks mid = (ticks st + length ks)%nat /\
        stdout mid = stdout st ++ [Syncing (heading t) last_sync] /\
        sync_table wall_clock t source st
        = finish_sync wall_clock t (length ks) mid
  end.
Proof.
  destruct t; simpl.
  - sync_shape sync_dim_film changes_film.
  - sync_shape sync_dim_customer changes_customer.
  - sync_shape sync_dim_store changes_store.
  - sync_shape sync_dim_actor changes_actor.
  - sync_shape sync_dim_category changes_category.
  - sync_shape sync_fact_rental changes_rental.
  - sync_shape sync_fact_payment changes_payment.
Qed.

Lemma table_keys_with_sync_state (t : Table) v (db : TargetDB) :
  table_keys t (with_sync_state v db) = table_keys t db.
Proof. by destruct t. Qed.

Lemma same_except_keys (t t' : Table) (a b : TargetDB) :
  same_except t a b -> t' <> t -> table_keys t' a = table_keys t' b.
Proof.
  intros (_ & _ & _ & _ & Hf & Hc & Hs & Ha & Hg & Hr & Hp) Hne.
  destruct t'; simpl; f_equal; auto.
Qed.

(** The keys of every table after one synchronizer run. *)
Lemma sync_table_keys (t t' : Table) (source : SourceDB) (st : St) :
  table_keys t' (working (sync_table wall_clock t source st))
  = if decide (t' = t)
    then foldl (fun keys k => upsert_key k keys) (table_keys t (working st))
           (changed_keys t source (last_sync_of (table_name t) st))
    else table_keys t' (working st).
Proof.
  pose proof (sync_table_shape t source st) as Hshape. cbv zeta in Hshape.
  destruct (changed_keys t source (last_sync_of (table_name t) st))
    as [|k ks] eqn:Hks.
  - rewrite Hshape. simpl. by case_decide; subst.
  - destruct Hshape as (mid & _ & Hsame & Hkeys & _ & _ & ->).
    unfold finish_sync. simpl. rewrite table_keys_with_sync_state.
    case_decide as Ht; [by subst|]. by eapply same_except_keys.
Qed.

(** The [SyncState] table after one synchronizer run. *)
Lemma sync_table_sync_state (t : Table) (source : SourceDB) (st : St) :
  let ks := changed_keys t source (last_sync_of (table_name t) st) in
  sync_state (working (sync_table wall_clock t source st))
  = match ks with
    | [] => sync_state (working st)
    | _ => <[table_name t := wall_clock (ticks st + length ks)]>
             (sync_state (working st))
    end.
Proof.
  pose proof (sync_table_shape t source st) as Hshape. cbv zeta in *.
  destruct (changed_keys t source (last_sync_of (table_name t) st))
    as [|k ks] eqn:Hks.
  - by rewrite Hshape.
  - destruct Hshape as (mid & _ & Hsame & _ & Hticks & _ & ->).
    unfold finish_sync. simpl. rewrite Hticks.
    destruct Hsame as (_ & _ & _ & -> & _). done.
Qed.

(** A synchronizer leaves a session without pending changes as it found it:
    without pending changes. *)
Lemma sync_table_clean (t : Table) (source : SourceDB) (st : St) :
  committed st = working st ->
  committed (sync_table wall_clock t source st)
  = working (sync_table wall_clock t source st).
Proof.
  intros Hclean. pose proof (sync_table_shape t source st) as Hshape.
  cbv zeta in Hshape.
  destruct (changed_keys t source (last_sync_of (table_name t) st)).
  - by rewrite Hshape.
  - by destruct Hshape as (mid & _ & _ & _ & _ & _ & ->).
Qed.

(** C3. For each of the seven dimension and fact synchronizers: when the
    extraction query returns no row changed after the watermark, the run
    returns at once; the committed store and the session's view of it, every
    table and the [SyncState] row of the table included, are exactly what
    they were, so the watermark is neither advanced, created nor reset. *)
Theorem sync_without_changes_is_noop (t : Table) (source : SourceDB) (st : St) :
  changed_keys t source (last_sync_of (table_name t) st) = [] ->
  committed (sync_table wall_clock t source st) = committed st /\
  working (sync_table wall_clock t source st) = working st /\
  sync_state (working (sync_table wall_clock t source st)) !! table_name t
  = sync_state (working st) !! table_name t /\
  ticks (sync_table wall_clock t source st) = ticks st.
Proof.
  intros Hnone. pose proof (sync_table_shape t source st) as Hshape.
  cbv zeta in Hshape. rewrite Hnone in Hshape. by rewrite Hshape.
Qed.

(** C7. For each of the seven synchronizers, when the extraction returns at
    least one row: the watermark written is the wall clock reading taken
    after the upsert loop (one reading per row came before it), whatever
    timestamps the source rows carry; the [SyncState] row exists afterwards
    whether or not it existed before; nothing is committed until the row
    mutations and the watermark are committed together by the one commit
    that ends the run; and when the table had no [SyncState] row, the
    extraction ran from the minimal timestamp. *)
Theorem sync_writes_wall_clock_watermark (t : Table) (source : SourceDB)
    (st : St) :
  let last_sync := last_sync_of (table_name t) st in
  let n := length (changed_keys t source last_sync) in
  let st' := sync_table wall_clock t source st in
  n <> 0%nat ->
  sync_state (working st') !! table_name t = Some (wall_clock (ticks st + n)) /\
  (exists mid,
      committed mid = committed st /\
      same_except t (working mid) (working st) /\
      table_keys t (working mid)
      = foldl (fun keys k => upsert_key k keys) (table_keys t (working st))
          (changed_keys t source last_sync) /\
      st' = finish_sync wall_clock t n mid) /\
  committed st' = working st' /\
  (sync_state (working st) !! table_name t = None ->
   last_sync = datetime_min /\
   stdout st'
   = stdout st ++ [Syncing (heading t) datetime_min;
                   Processed (length (changed_keys t source datetime_min))
                     (noun t)]).
Proof.
  intros last_sync n st' Hn. subst last_sync n st'.
  pose proof (sync_table_shape t source st) as Hshape. cbv zeta in Hshape.
  pose proof (sync_table_sync_state t source st) as Hstate. cbv zeta in Hstate.
  destruct (changed_keys t source (last_sync_of (table_name t) st))
    as [|k ks] eqn:Hks; [done|].
  destruct Hshape as (mid & Hcom & Hsame & Hkeys & Hticks & Hout & Heq).
  split; [by rewrite Hstate, lookup_insert_eq|].
  split; [by exists mid|].
  split; [by rewrite Heq|].
  intros Habsent.
  assert (last_sync_of (table_name t) st = datetime_min) as Hmin.
  { unfold last_sync_of. by rewrite Habsent. }
  split; [done|].
  rewrite Heq. unfold finish_sync. simpl. rewrite Hout, <- app_assoc.
  rewrite <- Hmin, Hks. done.
Qed.

Lemma sync_table_unique (t : Table) (source : SourceDB) (st : St) :
  (forall t', natural_keys_unique (table_keys t' (working st))) ->
  forall t', natural_keys_unique
               (table_keys t' (working (sync_table wall_clock t source st))).
Proof.
  intros Hu t'. rewrite sync_table_keys. case_decide; [|done].
  by apply upsert_keys_unique.
Qed.

Lemma sync_table_keeps_keys (t t' : Table) (source : SourceDB) (st : St)
    (k s : Z) :
  (k, s) ∈ table_keys t' (working st) ->
  (k, s) ∈ table_keys t' (working (sync_table wall_clock t source st)).
Proof.
  intros Hin. rewrite sync_table_keys. case_decide as Ht; [subst|done].
  destruct (upsert_keys_prefix
              (changed_keys t source (last_sync_of (table_name t) st))
              (table_keys t (working st))) as [added ->].
  apply elem_of_app. by left.
Qed.

Lemma sync_runs_cons (t : Table) (source : SourceDB)
    (runs : list (Table * SourceDB)) (st : St) :
  sync_runs wall_clock ((t, source) :: runs) st
  = sync_runs wall_clock runs (sync_table wall_clock t source st).
Proof. done. Qed.

(** C1. Start from a store in which every synchronized table has at most one
    row per natural key (the empty store after a full reload is one) and run
    the dimension and fact synchronizers any number of times, each against
    any state of the source. Then every table still has at most one row per
    natural key, every [(natural key, surrogate key)] pair present before is
    still present, so the row of a natural key keeps its surrogate key, and
    one run turns the key pairs of its table into the result of upserting the
    changed natural keys one by one: a key already present leaves the pairs as
    they are (the row is updated in place) and a key not present appends one
    pair with a fresh surrogate key. *)
Theorem upsert_keeps_natural_keys_unique (runs : list (Table * SourceDB))
    (st : St) :
  committed st = working st ->
  (forall t, natural_keys_unique (table_keys t (working st))) ->
  let st' := sync_runs wall_clock runs st in
  committed st' = working st' /\
  (forall t,
      natural_keys_unique (table_keys t (committed st')) /\
      forall k s, (k, s) ∈ table_keys t (committed st) ->
        (k, s) ∈ table_keys t (committed st') /\
        forall s', (k, s') ∈ table_keys t (committed st') -> s' = s) /\
  (forall t source st0,
      table_keys t (working (sync_table wall_clock t source st0))
      = foldl (fun keys k => upsert_key k keys) (table_keys t (working st0))
          (changed_keys t source (last_sync_of (table_name t) st0))).
Proof.
  intros Hclean Hunique. cbv zeta. split; [|split].
  - revert st Hclean Hunique.
    induction runs as [|[t source] runs IH]; intros st Hclean Hunique; [done|].
    rewrite sync_runs_cons. apply IH; [by apply sync_table_clean|].
    by apply sync_table_unique.
  - assert (forall st, committed st = working st ->
              (forall t, natural_keys_unique (table_keys t (working st))) ->
              committed (sync_runs wall_clock runs st)
              = working (sync_runs wall_clock runs st) /\
              forall t,
                natural_keys_unique
                  (table_keys t (working (sync_runs wall_clock runs st))) /\
                forall k s, (k, s) ∈ table_keys t (working st) ->
                  (k, s) ∈ table_keys t (working (sync_runs wall_clock runs st)))
      as Hruns.
    { clear st Hclean Hunique.
      induction runs as [|[t source] runs IH]; intros st Hclean Hunique;
        [by split|].
      rewrite sync_runs_cons.
      destruct (IH (sync_table wall_clock t source st)) as [Hc Hrest];
        [by apply sync_table_clean|by apply sync_table_unique|].
      split; [done|]. intros t'. destruct (Hrest t') as [Hu Hkeep].
      split; [done|]. intros k s Hin. by apply Hkeep, sync_table_keeps_keys. }
    destruct (Hruns st Hclean Hunique) as [Hc Hrest]. intros t.
    destruct (Hrest t) as [Hu Hkeep]. rewrite Hc, Hclean.
    split; [done|]. intros k s Hin. split; [by apply Hkeep|].
    intros s' Hin'. eapply unique_key_functional; [exact Hu|exact Hin'|].
    by apply Hkeep.
  - intros t source st0. rewrite sync_table_keys. by rewrite decide_True.
Qed.

(** ** Fact rows *)

Lemma sync_fact_rental_rows (source : SourceDB) (st : St) :
  fact_rental (working (sync_fact_rental wall_clock source st))
  = fst (upsert_loop (fun '(r_obj, _) => SakilaRental.rental_id r_obj)
           update_rental
           (insert_rental (get_surrogate_key_map (dim_film (working st)))
              (get_surrogate_key_map (dim_customer (working st))))
           wall_clock (changes_rental source (last_sync_of "fact_rental" st))
           (fact_rental (working st), ticks st)).
Proof.
  unfold sync_fact_rental; cbv zeta.
  change (last_sync_of ?n (print ?e ?s)) with (last_sync_of n s).
  by destruct (changes_rental source (last_sync_of "fact_rental" st)).
Qed.

Lemma sync_fact_payment_rows (source : SourceDB) (st : St) :
  fact_payment (working (sync_fact_payment wall_clock source st))
  = fst (upsert_loop (fun '(p_obj, _) => SakilaPayment.payment_id p_obj)
           (update_payment (get_surrogate_key_map (dim_customer (working st)))
              (get_surrogate_key_map (dim_store (working st))))
           (insert_payment (get_surrogate_key_map (dim_customer (working st)))
              (get_surrogate_key_map (dim_store (working st))))
           wall_clock (changes_payment source (last_sync_of "fact_payment" st))
           (fact_payment (working st), ticks st)).
Proof.
  unfold sync_fact_payment; cbv zeta.
  change (last_sync_of ?n (print ?e ?s)) with (last_sync_of n s).
  by destruct (changes_payment source (last_sync_of "fact_payment" st)).
Qed.

(** C10. Whatever the source and the target hold, a run of
    [sync_fact_rental] leaves every rental fact row that was there at its
    position with its surrogate key, [rental_id], [date_key_rented],
    [film_key], [customer_key], [store_key] and [staff_id] as they were (the
    update branch writes nothing else than [date_key_returned],
    [rental_duration_days] and [last_update]), and every row it adds has no
    [store_key]. *)
Theorem rental_update_keeps_keys_and_store_key_unset (source : SourceDB)
    (st : St) :
  let old := fact_rental (working st) in
  let new := fact_rental (working (sync_fact_rental wall_clock source st)) in
  (length old <= length new)%nat /\
  (forall i fact', new !! i = Some fact' ->
     match old !! i with
     | Some fact => rental_frame fact fact'
     | None => FactRental.store_key fact' = None
     end) /\
  (forall src now fact, rental_frame fact (update_rental src now fact)) /\
  (forall film_map cust_map src now key,
     FactRental.store_key (insert_rental film_map cust_map src now key) = None).
Proof.
  cbv zeta. rewrite sync_fact_rental_rows.
  assert (forall src now fact, rental_frame fact (update_rental src now fact))
    as Hframe by (by intros [r f] now fact).
  assert (forall film_map cust_map src now key,
            FactRental.store_key (insert_rental film_map cust_map src now key)
            = None) as Hnone by (by intros fm cm [r f] now key).
  split; [|split; [|by split]].
  - eapply (upsert_loop_pointwise _ _ _ _ (fun _ _ => True) (fun _ => True)); done.
  - eapply (upsert_loop_pointwise _ _ _ _ rental_frame
              (fun fact => FactRental.store_key fact = None)).
    + by intros fact.
    + intros [r f] now a b (? & ? & ? & ? & ? & ? & ?).
      unfold rental_frame. simpl. by repeat split.
    + intros; apply Hnone.
    + by intros [r f] now fact.
Qed.

(** C4, as the code has it. Both fact synchronizers read their key maps from
    the dimension tables the session sees when the run starts and leave those
    tables alone: rentals use the film and customer maps, payments the
    customer and store maps. Every rental row the run inserts stores the
    film and customer keys these maps give for one of the changed source rows
    with its [rental_id] (nothing when the map has no entry). With [payment_id]
    unique in the target, every payment row the run inserts or updates stores
    the customer and store keys the maps give for one of the changed source
    rows with its [payment_id]. A rental row that was there before the run
    keeps the film and customer keys it had. *)
Theorem fact_keys_come_from_current_maps (source : SourceDB) (st : St) :
  natural_keys_unique (keys_of (fact_payment (working st))) ->
  let film_map := get_surrogate_key_map (dim_film (working st)) in
  let cust_map := get_surrogate_key_map (dim_customer (working st)) in
  let store_map := get_surrogate_key_map (dim_store (working st)) in
  let st_r := sync_fact_rental wall_clock source st in
  let st_p := sync_fact_payment wall_clock source st in
  (dim_film (working st_r) = dim_film (working st) /\
   dim_customer (working st_r) = dim_customer (working st) /\
   dim_customer (working st_p) = dim_customer (working st) /\
   dim_store (working st_p) = dim_store (working st)) /\
  (forall fact, fact ∈ fact_rental (working st_r) ->
     FactRental.rental_id fact
       ∉ FactRental.rental_id <$> fact_rental (working st) ->
     exists r_obj film_id,
       (r_obj, film_id) ∈ changes_rental source (last_sync_of "fact_rental" st) /\
       SakilaRental.rental_id r_obj = FactRental.rental_id fact /\
       FactRental.film_key fact = film_map !! film_id /\
       FactRental.customer_key fact
       = cust_map !! SakilaRental.customer_id r_obj) /\
  (forall i fact fact',
     fact_rental (working st) !! i = Some fact ->
     fact_rental (working st_r) !! i = Some fact' ->
     FactRental.film_key fact' = FactRental.film_key fact /\
     FactRental.customer_key fact' = FactRental.customer_key fact) /\
  (forall fact, fact ∈ fact_payment (working st_p) ->
     FactPayment.payment_id fact
       ∈ changed_keys T_fact_payment source (last_sync_of "fact_payment" st) ->
     exists p_obj store_id,
       (p_obj, store_id)
         ∈ changes_payment source (last_sync_of "fact_payment" st) /\
       SakilaPayment.payment_id p_obj = FactPayment.payment_id fact /\
       FactPayment.customer_key fact
       = cust_map !! SakilaPayment.customer_id p_obj /\
       FactPayment.store_key fact = store_map !! store_id).
Proof.
  intros Hunique. cbv zeta. split; [|split; [|split]].
  - unfold sync_fact_rental, sync_fact_payment; cbv zeta.
    change (last_sync_of ?n (print ?e ?s)) with (last_sync_of n s).
    destruct (changes_rental source (last_sync_of "fact_rental" st));
      destruct (changes_payment source (last_sync_of "fact_payment" st)); done.
  - rewrite sync_fact_rental_rows. intros fact Hin Hnew.
    destruct (upsert_loop_inserted
                (fun '(r_obj, _) => SakilaRental.rental_id r_obj)
                update_rental
                (insert_rental (get_surrogate_key_map (dim_film (working st)))
                   (get_surrogate_key_map (dim_customer (working st))))
                wall_clock
                ltac:(by intros [r f] now row) ltac:(by intros [r f] now k)
                (fun '(r_obj, film_id) fact =>
                   FactRental.film_key fact
                   = get_surrogate_key_map (dim_film (working st)) !! film_id /\
                   FactRental.customer_key fact
                   = get_surrogate_key_map (dim_customer (working st))
                     !! SakilaRental.customer_id r_obj)
                (changes_rental source (last_sync_of "fact_rental" st))
                (fact_rental (working st)) (ticks st)
                ltac:(by intros [r f] now k)
                ltac:(by intros [r f] [r' f'] now row)
                fact Hin Hnew) as ([r_obj film_id] & Hsrc & Hk & Hf & Hc).
    by exists r_obj, film_id.
  - rewrite sync_fact_rental_rows. intros i fact fact' Hold Hnew.
    destruct (upsert_loop_pointwise
                (fun '(r_obj, _) => SakilaRental.rental_id r_obj)
                update_rental
                (insert_rental (get_surrogate_key_map (dim_film (working st)))
                   (get_surrogate_key_map (dim_customer (working st))))
                wall_clock
                (fun a b => FactRental.film_key b = FactRental.film_key a /\
                            FactRental.customer_key b = FactRental.customer_key a)
                (fun _ => True)
                (changes_rental source (last_sync_of "fact_rental" st))
                (fact_rental (working st)) (ticks st)) as [_ Hpoint];
      [done|by intros [r f] now a b|done|done|].
    specialize (Hpoint i fact' Hnew). by rewrite Hold in Hpoint.
  - rewrite sync_fact_payment_rows. intros fact Hin Hchanged.
    destruct (upsert_loop_touched
                (fun '(p_obj, _) => SakilaPayment.payment_id p_obj)
                (update_payment (get_surrogate_key_map (dim_customer (working st)))
                   (get_surrogate_key_map (dim_store (working st))))
                (insert_payment (get_surrogate_key_map (dim_customer (working st)))
                   (get_surrogate_key_map (dim_store (working st))))
                wall_clock
                ltac:(by intros [p s] now row) ltac:(by intros [p s] now k)
                (fun '(p_obj, store_id) fact =>
                   FactPayment.customer_key fact
                   = get_surrogate_key_map (dim_customer (working st))
                     !! SakilaPayment.customer_id p_obj /\
                   FactPayment.store_key fact
                   = get_surrogate_key_map (dim_store (working st)) !! store_id)
                (changes_payment source (last_sync_of "fact_payment" st))
                (fact_payment (working st)) (ticks st)
                ltac:(by intros [p s] now row)
                ltac:(by intros [p s] now k)
                Hunique fact Hin Hchanged) as ([p_obj store_id] & Hsrc & Hk & Hc & Hs).
    by exists p_obj, store_id.
Qed.

End SyncFacts.

(** ** Two incremental loads in a row *)

Lemma filter_none {A : Type} (P : A -> Prop) `{forall x, Decision (P x)}
    (l : list A) :
  (forall x, x ∈ l -> ~ P x) -> filter P l = [].
Proof.
  induction l as [|x l IH]; intros Hnone; [done|].
  rewrite filter_cons_False by (apply Hnone; by left).
  apply IH. intros y Hy. apply Hnone. by right.
Qed.

Lemma elem_of_join {A B : Type} (on : A -> B -> bool) (l : list A) (r : list B)
    (a : A) (b : B) :
  (a, b) ∈ join on l r -> a ∈ l /\ b ∈ r.
Proof.
  unfold join. intros (a' & Hin & Ha)%list_elem_of_bind.
  apply list_elem_of_bind in Hin as (b' & Hin & Hb).
  apply list_elem_of_singleton in Hin as [= -> ->].
  apply list_elem_of_filter in Hb as [_ Hb]. done.
Qed.

Lemma forallb_not_after {A : Type} (T : datetime.t) (stamp : A -> datetime.t)
    (l : list A) (x : A) :
  forallb (fun r => negb (datetime_ltb T (stamp r))) l = true ->
  x ∈ l -> ~ datetime_ltb T (stamp x).
Proof.
  intros Hall Hx Hlt. rewrite forallb_forall in Hall.
  specialize (Hall x ltac:(by apply list_elem_of_In)).
  destruct (datetime_ltb T (stamp x)); done.
Qed.

(** Nothing is extracted from a watermark that no source row is later than. *)
Lemma changed_keys_none (t : Table) (source : SourceDB) (T : datetime.t) :
  source_not_after source T = true -> changed_keys t source T = [].
Proof.
  unfold source_not_after. rewrite !andb_true_iff.
  intros ((((((Hf & Hc) & Hs) & Ha) & Hg) & Hr) & Hp).
  destruct t; simpl.
  - unfold changes_film. rewrite filter_none; [done|].
    intros x Hx. by eapply forallb_not_after.
  - unfold changes_customer. rewrite filter_none; [done|].
    intros [[[c a] ci] co] Hx.
    apply elem_of_join in Hx as [Hx _]. apply elem_of_join in Hx as [Hx _].
    apply elem_of_join in Hx as [Hx _].
    by eapply (forallb_not_after T SakilaCustomer.last_update).
  - unfold changes_store. rewrite filter_none; [done|].
    intros [[[c a] ci] co] Hx.
    apply elem_of_join in Hx as [Hx _]. apply elem_of_join in Hx as [Hx _].
    apply elem_of_join in Hx as [Hx _].
    by eapply (forallb_not_after T SakilaStore.last_update).
  - unfold changes_actor. rewrite filter_none; [done|].
    intros x Hx. by eapply forallb_not_after.
  - unfold changes_category. rewrite filter_none; [done|].
    intros x Hx. by eapply forallb_not_after.
  - unfold changes_rental. rewrite filter_none; [done|].
    intros [r i] Hx. apply elem_of_join in Hx as [Hx _].
    by eapply (forallb_not_after T SakilaRental.last_update).
  - unfold changes_payment. rewrite filter_none; [done|].
    intros [r i] Hx. apply elem_of_join in Hx as [Hx _].
    by eapply (forallb_not_after T SakilaPayment.last_update).
Qed.

Lemma table_name_inj (t t' : Table) : table_name t = table_name t' -> t = t'.
Proof. destruct t, t'; (done || (intros; discriminate)). Qed.

Lemma quiet_app (a b : list Event) : quiet a -> quiet b -> quiet (a ++ b).
Proof. unfold quiet. intros. by apply Forall_app. Qed.

Section TwoLoads.
Variable wall_clock : nat -> datetime.t.
Variable source : SourceDB.
Hypothesis clock_not_behind :
  forall n, source_not_after source (wall_clock n) = true.

(** After its run, a synchronizer finds nothing to extract. *)
Lemma sync_table_settles (t : Table) (st : St) :
  changed_keys t source
    (last_sync_of (table_name t) (sync_table wall_clock t source st)) = [].
Proof.
  unfold last_sync_of at 1. rewrite sync_table_sync_state.
  destruct (changed_keys t source (last_sync_of (table_name t) st)) eqn:Hks.
  - exact Hks.
  - rewrite lookup_insert_eq. by apply changed_keys_none.
Qed.

Lemma sync_table_other_watermark (t t' : Table) (st : St) :
  t' <> t ->
  last_sync_of (table_name t') (sync_table wall_clock t source st)
  = last_sync_of (table_name t') st.
Proof.
  intros Hne. unfold last_sync_of. rewrite sync_table_sync_state.
  destruct (changed_keys t source _); [done|].
  rewrite lookup_insert_ne; [done|]. intros Heq. by apply table_name_inj in Heq.
Qed.

Lemma run_snoc (steps : list (St -> St)) (step : St -> St) (st : St) :
  run (steps ++ [step]) st = step (run steps st).
Proof. unfold run. by rewrite foldl_app. Qed.

Lemma run_sync_tables_settles (tables : list Table) (st : St) :
  committed st = working st ->
  let st' := run ((fun t => sync_table wall_clock t source) <$> tables) st in
  committed st' = working st' /\
  forall t, t ∈ tables ->
    changed_keys t source (last_sync_of (table_name t) st') = [].
Proof.
  intros Hclean. cbv zeta.
  induction tables as [|t tables [IHc IH]] using rev_ind.
  - split; [done|]. by intros t ?%elem_of_nil.
  - rewrite fmap_app.
    change ((fun t => sync_table wall_clock t source) <$> [t])
      with [sync_table wall_clock t source].
    rewrite run_snoc. split; [by apply sync_table_clean|].
    intros t0 Hin. destruct (decide (t0 = t)) as [-> | Hne].
    + apply sync_table_settles.
    + rewrite sync_table_other_watermark by done. apply IH.
      apply elem_of_app in Hin as [Hin | Hin%list_elem_of_singleton]; done.
Qed.

End TwoLoads.

Section QuietRuns.
Variable wall_clock : nat -> datetime.t.
Variable source : SourceDB.

(** Synchronizers that find nothing to extract change nothing and report no
    processed rows. *)
Lemma run_sync_tables_quiet (tables : list Table) (st : St) :
  (forall t, t ∈ tables ->
     changed_keys t source (last_sync_of (table_name t) st) = []) ->
  let st' := run ((fun t => sync_table wall_clock t source) <$> tables) st in
  committed st' = committed st /\ working st' = working st /\
  exists out, stdout st' = stdout st ++ out /\ quiet out.
Proof.
  revert st. induction tables as [|t tables IH]; intros st Hnone; cbv zeta.
  - repeat split; try done. exists []. split; [by rewrite app_nil_r|constructor].
  - simpl. pose proof (sync_table_shape wall_clock t source st) as Hshape.
    cbv zeta in Hshape. rewrite (Hnone t ltac:(by left)) in Hshape.
    rewrite Hshape.
    destruct (IH (print (Syncing (heading t)
                           (last_sync_of (table_name t) st)) st))
      as (Hc & Hw & out & Hout & Hq).
    { intros t' Hin. apply Hnone. by right. }
    split; [done|]. split; [done|].
    exists (Syncing (heading t) (last_sync_of (table_name t) st) :: out).
    split; [|by constructor].
    etransitivity; [exact Hout|]. simpl. by rewrite <- app_assoc.
Qed.

(** The bridge step of a load and the closing of the session, on a session
    without pending changes. *)
Lemma bridge_step_closed (done_event error_event : Event) (st : St) :
  committed st = working st ->
  is_processed done_event = false ->
  is_processed error_event = false ->
  let st' :=
    close
      match sync_bridge_tables source st with
      | Returned t => print done_event t
      | Raised _ t => rollback (print error_event t)
      end in
  committed st' = rebuild_bridges source (working st) /\
  working st' = rebuild_bridges source (working st) /\
  exists out, stdout st' = stdout st ++ out /\ quiet out.
Proof.
  intros Hclean Hd He. cbv zeta.
  rewrite sync_bridge_tables_closed_form. cbv zeta. unfold rebuild_bridges.
  destruct (bool_decide _ && bool_decide _); simpl.
  - split; [done|]. split; [done|]. eexists. rewrite <- app_assoc.
    split; [done|]. by repeat constructor.
  - split; [done|]. split; [done|]. eexists. rewrite <- app_assoc.
    split; [done|]. by repeat constructor.
Qed.

End QuietRuns.

Lemma rebuild_bridges_idempotent (source : SourceDB) (db : TargetDB) :
  rebuild_bridges source (rebuild_bridges source db)
  = rebuild_bridges source db.
Proof.
  unfold rebuild_bridges at 2.
  destruct (bool_decide _ && bool_decide _) eqn:Hok.
  - unfold rebuild_bridges.
    cbn [dim_film dim_actor dim_category with_bridge_film_actor
         with_bridge_film_category].
    by rewrite Hok.
  - unfold rebuild_bridges. by rewrite Hok.
Qed.

Lemma rebuild_bridges_sync_state (source : SourceDB) (db : TargetDB) :
  sync_state (rebuild_bridges source db) = sync_state db.
Proof. unfold rebuild_bridges. by destruct (bool_decide _ && bool_decide _). Qed.

Lemma all_tables_complete (t : Table) : t ∈ all_tables.
Proof. destruct t; unfold all_tables; set_solver. Qed.

Lemma last_sync_of_sync_state (name : string) (a b : St) :
  sync_state (working a) = sync_state (working b) ->
  last_sync_of name a = last_sync_of name b.
Proof. unfold last_sync_of. by intros ->. Qed.

Section Idempotence.
Variable wall_clock : nat -> datetime.t.
Variable source : SourceDB.

(** An incremental load in terms of its session before the bridge step. *)
Lemma incremental_load_unfold (st : St) :
  incremental_load wall_clock source st
  = close
      match sync_bridge_tables source
              (run ((fun t => sync_table wall_clock t source) <$> all_tables)
                 (print StartingIncrementalLoad (get_target_session st))) with
      | Returned t => print IncrementalLoadCompleted t
      | Raised _ t => rollback (print ErrorDuringIncrementalLoad t)
      end.
Proof. done. Qed.

Lemma get_target_session_print (e : Event) (w : St) :
  committed (print e (get_target_session w)) = committed w /\
  working (print e (get_target_session w)) = committed w /\
  stdout (print e (get_target_session w)) = stdout w ++ [e].
Proof. done. Qed.

(** The store after a load, from the session [s7] its synchronizers left. *)
Lemma incremental_load_store (st : St) :
  (forall n, source_not_after source (wall_clock n) = true) ->
  exists s7,
    (forall t, changed_keys t source (last_sync_of (table_name t) s7) = []) /\
    committed (incremental_load wall_clock source st)
    = rebuild_bridges source (working s7) /\
    working (incremental_load wall_clock source st)
    = rebuild_bridges source (working s7).
Proof.
  intros Hclock. rewrite incremental_load_unfold.
  remember (print StartingIncrementalLoad (get_target_session st)) as s0 eqn:Hs0.
  destruct (run_sync_tables_settles wall_clock source Hclock all_tables s0)
    as [Hclean7 Hsettled]; [by subst s0|].
  remember (run ((fun t => sync_table wall_clock t source) <$> all_tables) s0)
    as s7 eqn:Hs7.
  exists s7. split; [intros t; apply Hsettled, all_tables_complete|].
  destruct (bridge_step_closed source IncrementalLoadCompleted
              ErrorDuringIncrementalLoad s7 Hclean7 eq_refl eq_refl)
    as (Hc & Hw & _). by split.
Qed.

(** A load of a store whose watermarks leave nothing to extract. *)
Lemma incremental_load_settled (w : St) :
  (forall t,
     changed_keys t source
       (last_sync_of (table_name t)
          (print StartingIncrementalLoad (get_target_session w))) = []) ->
  committed (incremental_load wall_clock source w)
  = rebuild_bridges source (committed w) /\
  working (incremental_load wall_clock source w)
  = rebuild_bridges source (committed w) /\
  exists out,
    stdout (incremental_load wall_clock source w) = stdout w ++ out /\
    quiet out.
Proof.
  intros Hnone. rewrite incremental_load_unfold.
  destruct (get_target_session_print StartingIncrementalLoad w)
    as (Hc0 & Hw0 & Hout0).
  remember (print StartingIncrementalLoad (get_target_session w)) as s0 eqn:Hs0.
  destruct (run_sync_tables_quiet wall_clock source all_tables s0)
    as (Hc7 & Hw7 & out7 & Hout7 & Hq7); [by intros t _|].
  remember (run ((fun t => sync_table wall_clock t source) <$> all_tables) s0)
    as s7 eqn:Hs7.
  destruct (bridge_step_closed source IncrementalLoadCompleted
              ErrorDuringIncrementalLoad s7)
    as (Hc & Hw & out & Hout & Hq); [congruence|done|done|].
  rewrite Hw7, Hw0 in Hc, Hw. split; [exact Hc|]. split; [exact Hw|].
  exists ([StartingIncrementalLoad] ++ out7 ++ out).
  split; [|apply quiet_app; [by repeat constructor|by apply quiet_app]].
  rewrite Hout, Hout7, Hout0. by rewrite <- !app_assoc.
Qed.

(** C2, as the code has it. Let no source row carry a last-modified timestamp
    later than a reading of the loader's wall clock. Then the second of two
    incremental loads of an unchanged source leaves the committed store, and
    the session's view of it, exactly as the first load left them (so every
    table keeps its rows and its row count), each of the seven synchronizers
    finds no changed row, and the output of the second load reports no
    processed rows. *)
Theorem second_incremental_load_changes_nothing (st : St) :
  (forall n, source_not_after source (wall_clock n) = true) ->
  let w1 := incremental_load wall_clock source st in
  let w2 := incremental_load wall_clock source w1 in
  committed w2 = committed w1 /\
  working w2 = working w1 /\
  (forall t, changed_keys t source (last_sync_of (table_name t) w1) = []) /\
  exists out, stdout w2 = stdout w1 ++ out /\ quiet out.
Proof.
  intros Hclock. cbv zeta.
  destruct (incremental_load_store st Hclock) as (s7 & Hsettled & Hc1 & Hw1).
  remember (incremental_load wall_clock source st) as w1 eqn:Hw1def.
  clear Hw1def.
  assert (forall t, changed_keys t source (last_sync_of (table_name t) w1) = [])
    as Hquiet1.
  { intros t. rewrite (last_sync_of_sync_state _ w1 s7); [apply Hsettled|].
    by rewrite Hw1, rebuild_bridges_sync_state. }
  destruct (incremental_load_settled w1) as (Hc2 & Hw2 & out & Hout & Hq).
  { intros t.
    rewrite (last_sync_of_sync_state _ _ s7); [apply Hsettled|].
    destruct (get_target_session_print StartingIncrementalLoad w1)
      as (_ & -> & _).
    by rewrite Hc1, rebuild_bridges_sync_state. }
  split; [|split; [|split; [done|by exists out]]].
  - by rewrite Hc2, Hc1, rebuild_bridges_idempotent.
  - by rewrite Hw2, Hw1, Hc1, rebuild_bridges_idempotent.
Qed.

End Idempotence.

(** ** Validation *)

Lemma count_checks_fold (source : SourceDB)
    (cs : list (string * (SourceDB -> nat) * (TargetDB -> nat)))
    (issues_found : bool) (st : St) :
  foldl (count_check source) (issues_found, st) cs
  = (issues_found || existsb (fun c => is_fail (check_status source (working st) c)) cs,
     mkSt (committed st) (working st) (ticks st)
       (stdout st ++ (count_line source (working st) <$> cs))).
Proof.
  revert issues_found st. induction cs as [|[[name src_col] tgt_col] cs IH];
    intros issues_found st.
  - simpl. rewrite orb_false_r, app_nil_r. by destruct st.
  - cbn [foldl]. unfold count_check at 2. rewrite IH.
    cbn [working print committed ticks stdout fmap list_fmap existsb].
    unfold count_line at 2, check_status at 2 3. cbn [fst snd].
    rewrite <- app_assoc. cbn [app]. f_equal.
    destruct (is_fail (count_status (src_col source) (tgt_col (working st))));
      by rewrite ?orb_true_r, ?orb_false_r.
Qed.

(** C9. The validator changes neither store (the source is only read, the
    target is committed as it was and the session is closed). Its output is,
    after the header, one line for each of the seven entity pairs (films,
    customers, stores, actors, categories, rentals, payments) with the source
    row count, the target row count and OK exactly when the two are equal,
    then one revenue line that says OK exactly when the absolute difference
    of the two sums is below the tolerance 0.01, then the verdict, which is
    a failure exactly when some line says FAIL. All eight lines are printed
    whatever the earlier lines say. *)
Theorem validator_reports_every_metric (source : SourceDB) (st : St) :
  let st' := validate_data source st in
  let db := committed st in
  let src_rev := source_revenue source in
  let tgt_rev := target_revenue db in
  let rev_status := revenue_status src_rev tgt_rev in
  let failed :=
    existsb (fun c => is_fail (check_status source db c)) checks
    || is_fail rev_status in
  committed st' = db /\ working st' = db /\ ticks st' = ticks st /\
  stdout st'
  = stdout st ++ [ValidationHeader] ++ (count_line source db <$> checks)
    ++ [RevenueLine src_rev tgt_rev rev_status;
        if failed then ValidationFailed else ValidationPassed] /\
  count_line source db <$> checks
  = [ CountLine "Films" (length (src_film source)) (length (dim_film db))
        (count_status (length (src_film source)) (length (dim_film db)));
      CountLine "Customers" (length (src_customer source))
        (length (dim_customer db))
        (count_status (length (src_customer source)) (length (dim_customer db)));
      CountLine "Stores" (length (src_store source)) (length (dim_store db))
        (count_status (length (src_store source)) (length (dim_store db)));
      CountLine "Actors" (length (src_actor source)) (length (dim_actor db))
        (count_status (length (src_actor source)) (length (dim_actor db)));
      CountLine "Categories" (length (src_category source))
        (length (dim_category db))
        (count_status (length (src_category source)) (length (dim_category db)));
      CountLine "Rentals" (length (src_rental source)) (length (fact_rental db))
        (count_status (length (src_rental source)) (length (fact_rental db)));
      CountLine "Payments" (length (src_payment source))
        (length (fact_payment db))
        (count_status (length (src_payment source)) (length (fact_payment db))) ] /\
  (forall n m : nat, count_status n m = OK <-> n = m) /\
  (forall a b : float,
     revenue_status a b = OK
     <-> PrimFloat.ltb (PrimFloat.abs (PrimFloat.sub a b)) TOLERANCE = true).
Proof.
  cbv zeta. unfold validate_data. cbv zeta.
  rewrite count_checks_fold.
  cbn [working print committed ticks stdout get_target_session rollback close orb].
  split; [|split; [|split; [|split; [|split; [done|split]]]]];
    try (destruct (is_fail (revenue_status _ _));
         rewrite ?orb_true_r, ?orb_false_r; try destruct (existsb _ checks);
         cbn [print committed working ticks stdout];
         rewrite <- ?app_assoc; done).
  - intros n m. unfold count_status.
    destruct (Nat.eqb_spec n m); split; done.
  - intros a b. unfold revenue_status.
    destruct (PrimFloat.ltb _ TOLERANCE); split; done.
Qed.

(** ** The calendar *)

Lemma digit_value_char (d : Z) : 0 <= d <= 9 -> digit_value (digit_char d) = d.
Proof.
  intros Hd. unfold digit_value, digit_char.
  rewrite nat_ascii_embedding by lia. lia.
Qed.

Lemma days_in_month_bounds (y m : Z) : 28 <= _days_in_month y m <= 31.
Proof.
  unfold _days_in_month.
  repeat match goal with |- context [if ?b then _ else _] => destruct b end; lia.
Qed.

(** The key of a day is the integer YYYYMMDD. *)
Lemma date_key_value (d : date.t) :
  valid_date d ->
  int (strftime_Ymd d) = date.year d * 10000 + date.month d * 100 + date.day d.
Proof.
  destruct d as [y m dd]. unfold valid_date, MINYEAR, MAXYEAR. simpl.
  intros (Hy & Hm & Hd). pose proof (days_in_month_bounds y m).
  unfold int, strftime_Ymd, pad4, pad2. simpl.
  assert (forall n, 0 <= n mod 10 <= 9) as Hdigit
    by (intros n; pose proof (Z.mod_pos_bound n 10); lia).
  rewrite !digit_value_char by apply Hdigit. clear Hdigit.
  Z.div_mod_to_equations. lia.
Qed.

Lemma date_key_inj (d1 d2 : date.t) :
  valid_date d1 -> valid_date d2 ->
  int (strftime_Ymd d1) = int (strftime_Ymd d2) -> d1 = d2.
Proof.
  intros H1 H2. rewrite !date_key_value by done.
  destruct d1 as [y1 m1 dd1], d2 as [y2 m2 dd2].
  destruct H1 as (_ & Hm1 & Hd1), H2 as (_ & Hm2 & Hd2). simpl in *.
  pose proof (days_in_month_bounds y1 m1). pose proof (days_in_month_bounds y2 m2).
  intros Heq. assert (y1 = y2) by lia. assert (m1 = m2) by lia.
  f_equal; lia.
Qed.

Lemma date_leb_rank (a b : date.t) :
  valid_date a -> valid_date b ->
  date_leb a b = true <-> day_rank a <= day_rank b.
Proof.
  destruct a as [y1 m1 d1], b as [y2 m2 d2].
  intros (_ & Hm1 & Hd1) (_ & Hm2 & Hd2). simpl in *.
  pose proof (days_in_month_bounds y1 m1). pose proof (days_in_month_bounds y2 m2).
  unfold date_leb, date_ltb, day_rank. simpl.
  rewrite negb_true_iff, orb_false_iff, andb_false_iff, orb_false_iff,
    andb_false_iff, !Z.ltb_ge, !Z.eqb_neq.
  lia.
Qed.

(** The day after a valid day before the last representable one. *)
Lemma next_day_valid (d : date.t) :
  valid_date d -> date.year d < MAXYEAR ->
  exists d', next_day d = Some d' /\ valid_date d' /\
             day_rank d < day_rank d' /\ date.year d' <= date.year d + 1 /\
             forall e, valid_date e -> day_rank d < day_rank e ->
                       day_rank d' <= day_rank e.
Proof.
  destruct d as [y m dd]. unfold valid_date, MINYEAR, MAXYEAR. simpl.
  intros (Hy & Hm & Hd) Hmax. pose proof (days_in_month_bounds y m).
  destruct (dd <? _days_in_month y m) eqn:Hlt.
  - apply Z.ltb_lt in Hlt. eexists. split; [reflexivity|].
    unfold day_rank. simpl. repeat split; lia.
  - apply Z.ltb_ge in Hlt. destruct (m <? 12) eqn:Hm12.
    + apply Z.ltb_lt in Hm12. eexists. split; [reflexivity|].
      pose proof (days_in_month_bounds y (m + 1)).
      unfold day_rank. simpl. repeat split; try lia.
      intros [y' m' d'] (Hy' & Hm' & Hd'). simpl in *.
      pose proof (days_in_month_bounds y' m').
      intros Hr. destruct (decide (y' = y)) as [-> | ?]; [|lia].
      destruct (decide (m' = m)) as [-> | ?]; lia.
    + apply Z.ltb_ge in Hm12. destruct (y <? MAXYEAR) eqn:Hy9;
        [|apply Z.ltb_ge in Hy9; unfold MAXYEAR in Hy9; lia].
      eexists. split; [reflexivity|].
      pose proof (days_in_month_bounds (y + 1) 1).
      unfold day_rank. simpl. repeat split; try lia.
      intros [y' m' d'] (Hy' & Hm' & Hd'). simpl in *.
      pose proof (days_in_month_bounds y' m').
      intros Hr. assert (m = 12) as -> by lia.
      destruct (decide (y' = y)) as [-> | ?]; [|lia].
      destruct (decide (m' = 12)) as [-> | ?]; lia.
Qed.

Lemma days_before_next_year (y : Z) :
  _days_before_year (y + 1)
  = _days_before_year y + 365 + (if _is_leap y then 1 else 0).
Proof.
  unfold _days_before_year, _is_leap. cbv zeta.
  replace (y + 1 - 1) with y by lia.
  destruct (y mod 4 =? 0) eqn:H4, (y mod 100 =? 0) eqn:H100,
    (y mod 400 =? 0) eqn:H400; simpl;
    rewrite ?Z.eqb_eq, ?Z.eqb_neq in *; Z.div_mod_to_equations; lia.
Qed.

(** [next_day] is the day with the next ordinal, as [+ timedelta(days=1)]. *)
Lemma next_day_toordinal (d d' : date.t) :
  valid_date d -> next_day d = Some d' -> toordinal d' = toordinal d + 1.
Proof.
  destruct d as [y m dd]. unfold valid_date, MINYEAR. simpl.
  intros (Hy & Hm & Hd).
  destruct (dd <? _days_in_month y m) eqn:Hlt.
  - intros [= <-]. unfold toordinal. simpl. lia.
  - apply Z.ltb_ge in Hlt. assert (dd = _days_in_month y m) as -> by lia.
    destruct (m <? 12) eqn:Hm12.
    + apply Z.ltb_lt in Hm12. intros [= <-]. unfold toordinal. simpl.
      assert (m = 1 \/ m = 2 \/ m = 3 \/ m = 4 \/ m = 5 \/ m = 6 \/ m = 7 \/
              m = 8 \/ m = 9 \/ m = 10 \/ m = 11) as Hcases by lia.
      unfold _days_before_month, _days_in_month, _DAYS_BEFORE_MONTH.
      destruct (_is_leap y);
        repeat (destruct Hcases as [-> | Hcases]; [simpl; lia|]);
        subst; simpl; lia.
    + apply Z.ltb_ge in Hm12. assert (m = 12) as -> by lia.
      destruct (y <? MAXYEAR); [|done]. intros [= <-].
      unfold toordinal. simpl. rewrite days_before_next_year.
      unfold _days_before_month, _days_in_month, _DAYS_BEFORE_MONTH. simpl.
      destruct (_is_leap y); simpl; lia.
Qed.

Lemma weekday_range (d : date.t) : 0 <= weekday d <= 6.
Proof. unfold weekday. pose proof (Z.mod_pos_bound (toordinal d + 6) 7). lia. Qed.

Lemma weekday_next_day (d d' : date.t) :
  valid_date d -> next_day d = Some d' -> weekday d' = (weekday d + 1) mod 7.
Proof.
  intros Hv Hn. unfold weekday. rewrite (next_day_toordinal d d' Hv Hn).
  Z.div_mod_to_equations. lia.
Qed.

Lemma day_rank_inj (a b : date.t) :
  valid_date a -> valid_date b -> day_rank a = day_rank b -> a = b.
Proof.
  destruct a as [y1 m1 d1], b as [y2 m2 d2].
  intros (_ & Hm1 & Hd1) (_ & Hm2 & Hd2). unfold day_rank. simpl in *.
  pose proof (days_in_month_bounds y1 m1). pose proof (days_in_month_bounds y2 m2).
  intros Heq. assert (y1 = y2) by lia. assert (m1 = m2) by lia. f_equal; lia.
Qed.

Lemma day_rank_year (a b : date.t) :
  valid_date a -> valid_date b -> day_rank a <= day_rank b ->
  date.year a <= date.year b.
Proof.
  destruct a as [y1 m1 d1], b as [y2 m2 d2].
  intros (_ & Hm1 & Hd1) (_ & Hm2 & Hd2). unfold day_rank. simpl in *.
  pose proof (days_in_month_bounds y1 m1). pose proof (days_in_month_bounds y2 m2).
  lia.
Qed.

(** With enough fuel the loop visits exactly the valid days from
    [current_date] to [end_date], each once. *)
Lemma days_visited_spec (fuel : nat) (end_date current_date : date.t) :
  valid_date current_date -> valid_date end_date ->
  date.year end_date < MAXYEAR ->
  Z.of_nat fuel > day_rank end_date - day_rank current_date ->
  Forall (fun d => valid_date d /\
                   day_rank current_date <= day_rank d <= day_rank end_date)
    (days_visited fuel end_date current_date) /\
  (forall d, valid_date d ->
     day_rank current_date <= day_rank d <= day_rank end_date ->
     d ∈ days_visited fuel end_date current_date) /\
  NoDup (days_visited fuel end_date current_date).
Proof.
  intros Hcur Hend Hmax. revert current_date Hcur.
  induction fuel as [|fuel IH]; intros cur Hcur Hfuel.
  - simpl. split; [constructor|]. split; [intros; lia|constructor].
  - simpl. destruct (date_leb cur end_date) eqn:Hle.
    + apply date_leb_rank in Hle; [|done|done].
      pose proof (day_rank_year cur end_date Hcur Hend Hle) as Hyear.
      destruct (next_day_valid cur Hcur ltac:(lia))
        as (d' & -> & Hd' & Hlt & _ & Hleast).
      destruct (IH d' Hd' ltac:(lia)) as (Hall & Hin & Hnd).
      split; [|split].
      * constructor; [split; [done|lia]|].
        eapply Forall_impl; [exact Hall|]. simpl. intros d [? ?]. split; [done|lia].
      * intros d Hd [Hlo Hhi].
        destruct (decide (day_rank d = day_rank cur)) as [Heq | Hne].
        -- rewrite (day_rank_inj d cur Hd Hcur Heq). by left.
        -- right. apply Hin; [done|]. split; [apply Hleast; [done|lia]|done].
      * constructor; [|done]. intros Hmem.
        rewrite Forall_forall in Hall. destruct (Hall cur Hmem) as [_ ?]. lia.
    + assert (~ day_rank cur <= day_rank end_date) as Hgt.
      { intros Hle'. apply (date_leb_rank cur end_date Hcur Hend) in Hle'.
        congruence. }
      split; [constructor|]. split; [intros; lia|constructor].
Qed.

Lemma new_rows_cons (keys : gset Z) (d : date.t) (days : list date.t) :
  new_rows keys (d :: days)
  = (if decide (int (strftime_Ymd d) ∈ keys) then [] else [make_dim_date d])
    ++ new_rows keys days.
Proof.
  unfold new_rows. rewrite filter_cons.
  destruct (decide (int (strftime_Ymd d) ∈ keys)) as [Hin | Hnot].
  - by rewrite decide_False by (by intros ?).
  - by rewrite decide_True.
Qed.

Lemma with_dim_date_twice (u v : list DimDate.t) (db : TargetDB) :
  with_dim_date v (with_dim_date u db) = with_dim_date v db.
Proof. done. Qed.

Lemma with_dim_date_same (db : TargetDB) : with_dim_date (dim_date db) db = db.
Proof. by destruct db. Qed.

Lemma load_dim_date_loop_unfold (fuel : nat) (keys : gset Z)
    (end_date cur : date.t) (batch : list DimDate.t) (st : St) :
  load_dim_date_loop (Datatypes.S fuel) keys end_date cur batch st
  = if date_leb cur end_date then
      let batch :=
        if decide (int (strftime_Ymd cur) ∈ keys) then batch
        else batch ++ [make_dim_date cur] in
      match next_day cur with
      | None => LoopRaised OverflowError st
      | Some d =>
        if 1000 <=? Z.of_nat (length batch) then
          load_dim_date_loop fuel keys end_date d []
            (commit (add_all_dim_date batch st))
        else load_dim_date_loop fuel keys end_date d batch st
      end
    else LoopDone batch st.
Proof. done. Qed.

(** The loop finishes, and what it has written plus what it still holds in
    its batch is the old table plus the rows of the days not yet present. *)
Lemma load_dim_date_loop_spec (fuel : nat) (keys : gset Z)
    (end_date cur : date.t) (batch : list DimDate.t) (st : St) :
  valid_date cur -> valid_date end_date -> date.year end_date < MAXYEAR ->
  Z.of_nat fuel > day_rank end_date - day_rank cur ->
  (length batch < 1000)%nat ->
  exists batch' st' rows,
    load_dim_date_loop (Datatypes.S fuel) keys end_date cur batch st
    = LoopDone batch' st' /\
    working st' = with_dim_date (dim_date (working st) ++ rows) (working st) /\
    rows ++ batch' = batch ++ new_rows keys (days_visited fuel end_date cur) /\
    ticks st' = ticks st /\ stdout st' = stdout st /\
    (rows = [] /\ committed st' = committed st \/ committed st' = working st') /\
    (new_rows keys (days_visited fuel end_date cur) = [] ->
     st' = st /\ batch' = batch).
Proof.
  intros Hcur Hend Hmax. revert cur batch st Hcur.
  assert (forall cur batch st, date_leb cur end_date = false ->
            exists batch' st' rows,
              LoopDone batch st = LoopDone batch' st' /\
              working st' = with_dim_date (dim_date (working st) ++ rows) (working st) /\
              rows ++ batch' = batch ++ new_rows keys [] /\
              ticks st' = ticks st /\ stdout st' = stdout st /\
              (rows = [] /\ committed st' = committed st \/
               committed st' = working st') /\
              (new_rows keys [] = [] -> st' = st /\ batch' = batch)) as Hstop.
  { intros cur batch st _. exists batch, st, []. split; [done|].
    split; [by rewrite app_nil_r, with_dim_date_same|].
    split; [by rewrite app_nil_r|]. repeat split; try done. by left. }
  induction fuel as [|fuel IH]; intros cur batch st Hcur Hfuel Hlen.
  - rewrite load_dim_date_loop_unfold.
    destruct (date_leb cur end_date) eqn:Hle.
    + apply date_leb_rank in Hle; [lia|done|done].
    + by apply (Hstop cur).
  - rewrite load_dim_date_loop_unfold. cbn [days_visited].
    destruct (date_leb cur end_date) eqn:Hle; [|by apply (Hstop cur)].
    apply date_leb_rank in Hle; [|done|done].
    pose proof (day_rank_year cur end_date Hcur Hend Hle) as Hyear.
    destruct (next_day_valid cur Hcur ltac:(lia))
      as (d' & -> & Hd' & Hlt & _ & _).
    cbv zeta. rewrite new_rows_cons.
    set (batch1 := if decide (int (strftime_Ymd cur) ∈ keys) then batch
                   else batch ++ [make_dim_date cur]).
    assert (batch1 = batch ++ (if decide (int (strftime_Ymd cur) ∈ keys)
                               then [] else [make_dim_date cur])) as Hb1.
    { unfold batch1. destruct (decide _); [by rewrite app_nil_r|done]. }
    destruct (1000 <=? Z.of_nat (length batch1)) eqn:Hflush.
    + destruct (IH d' [] (commit (add_all_dim_date batch1 st)) Hd'
                  ltac:(lia) ltac:(simpl; lia))
        as (batch' & st' & rows & -> & Hw & Hrows & Ht & Hout & Hcom & Hsame).
      exists batch', st', (batch1 ++ rows). split; [done|].
      split; [|split; [|split; [done|split; [done|split]]]].
      * rewrite Hw. simpl. by rewrite with_dim_date_twice, app_assoc.
      * rewrite <- !app_assoc, Hrows, Hb1. simpl. by rewrite <- app_assoc.
      * right. destruct Hcom as [[-> Hcom] | Hcom]; [|done].
        rewrite Hcom, Hw. simpl. by rewrite app_nil_r, with_dim_date_twice.
      * intros Hnone. apply app_eq_nil in Hnone as [Hhead Hrest].
        rewrite Hb1, Hhead, app_nil_r in Hflush.
        apply Z.leb_le in Hflush. lia.
    + apply Z.leb_gt in Hflush.
      destruct (IH d' batch1 st Hd' ltac:(lia) ltac:(lia))
        as (batch' & st' & rows & -> & Hw & Hrows & Ht & Hout & Hcom & Hsame).
      exists batch', st', rows. split; [done|].
      split; [done|]. split; [by rewrite Hrows, Hb1, <- app_assoc|].
      split; [done|]. split; [done|]. split; [done|].
      intros Hnone. apply app_eq_nil in Hnone as [Hhead Hrest].
      destruct (Hsame Hrest) as [-> ->]. split; [done|].
      by rewrite Hb1, Hhead, app_nil_r.
Qed.

Lemma calendar_days_spec (start_year end_year : Z) :
  MINYEAR <= start_year <= MAXYEAR -> MINYEAR <= end_year < MAXYEAR ->
  NoDup (calendar_days start_year end_year) /\
  forall d, d ∈ calendar_days start_year end_year
            <-> valid_date d /\ start_year <= date.year d <= end_year.
Proof.
  unfold MINYEAR, MAXYEAR. intros Hs He.
  assert (valid_date (date.mk start_year 1 1)) as Hvs
    by (unfold valid_date, _days_in_month, MINYEAR, MAXYEAR; simpl; lia).
  assert (valid_date (date.mk end_year 12 31)) as Hve
    by (unfold valid_date, _days_in_month, MINYEAR, MAXYEAR; simpl; lia).
  destruct (days_visited_spec (Z.to_nat (372 * (end_year - start_year + 1)))
              (date.mk end_year 12 31) (date.mk start_year 1 1) Hvs Hve)
    as (Hall & Hin & Hnd).
  { unfold MAXYEAR. simpl. lia. }
  { unfold day_rank. simpl. lia. }
  split; [done|]. intros d. split.
  - intros Hd. rewrite Forall_forall in Hall.
    destruct (Hall d Hd) as [Hv [Hlo Hhi]]. split; [done|].
    pose proof (day_rank_year _ _ Hvs Hv Hlo).
    pose proof (day_rank_year _ _ Hv Hve Hhi). simpl in *. lia.
  - intros [Hv Hrange]. apply Hin; [done|].
    destruct d as [y m dd]. destruct Hv as (_ & Hm & Hd). simpl in *.
    pose proof (days_in_month_bounds y m). unfold day_rank. simpl. lia.
Qed.

Lemma elem_of_date_keys (k : Z) (tbl : list DimDate.t) :
  k ∈ date_keys tbl <-> k ∈ DimDate.date_key <$> tbl.
Proof. unfold date_keys. apply elem_of_list_to_set. Qed.

(** The generator returns, and the table it leaves is the old one followed
    by the rows of the days of the range whose key was not there. *)
Lemma load_dim_date_result (st : St) (start_year end_year : Z) :
  MINYEAR <= start_year <= MAXYEAR -> MINYEAR <= end_year < MAXYEAR ->
  let added :=
    new_rows (date_keys (dim_date (working st)))
      (calendar_days start_year end_year) in
  exists st',
    load_dim_date st start_year end_year = Some (Returned st') /\
    working st' = with_dim_date (dim_date (working st) ++ added) (working st) /\
    (committed st = working st -> committed st' = working st') /\
    (added = [] -> committed st' = committed st) /\
    ticks st' = ticks st.
Proof.
  intros Hs He. cbv zeta. unfold load_dim_date. cbv zeta.
  assert (year_in_range start_year && year_in_range end_year = true) as ->.
  { unfold year_in_range, MINYEAR, MAXYEAR in *.
    rewrite !andb_true_iff, !Z.leb_le. lia. }
  change (dim_date (working (print GeneratingDimDate st)))
    with (dim_date (working st)).
  fold (date_keys (dim_date (working st))).
  destruct (load_dim_date_loop_spec
              (Z.to_nat (372 * (end_year - start_year + 1)))
              (date_keys (dim_date (working st)))
              (date.mk end_year 12 31) (date.mk start_year 1 1) []
              (print GeneratingDimDate st))
    as (batch' & st' & rows & -> & Hw & Hrows & Ht & Hout & Hcom & Hsame).
  { unfold valid_date, _days_in_month, MINYEAR, MAXYEAR in *; simpl; lia. }
  { unfold valid_date, _days_in_month, MINYEAR, MAXYEAR in *; simpl; lia. }
  { unfold MINYEAR, MAXYEAR in *. simpl. lia. }
  { unfold day_rank, MINYEAR, MAXYEAR in *. simpl. lia. }
  { simpl. lia. }
  fold (calendar_days start_year end_year) in Hrows, Hsame.
  simpl in Hrows. rewrite <- Hrows. simpl in Hw.
  eexists. split; [reflexivity|].
  destruct batch' as [|b batch'].
  - rewrite app_nil_r in *. simpl. split; [done|]. split; [|split; [|done]].
    + intros Hclean. destruct Hcom as [[-> Hcom] | Hcom]; [|done].
      rewrite Hcom, Hw. simpl. by rewrite app_nil_r, with_dim_date_same.
    + intros ->. destruct Hcom as [[_ Hcom] | Hcom]; [done|].
      destruct (Hsame ltac:(by rewrite <- Hrows)) as [-> _]. done.
  - simpl. rewrite Hw. simpl. rewrite <- app_assoc.
    split; [done|]. split; [done|]. split; [|done].
    intros Hnil. by apply app_eq_nil in Hnil as [_ ?].
Qed.

Lemma make_dim_date_key (d : date.t) :
  DimDate.date_key (make_dim_date d) = int (strftime_Ymd d).
Proof. reflexivity. Qed.

Lemma new_rows_elem (keys : gset Z) (days : list date.t) (row : DimDate.t) :
  row ∈ new_rows keys days
  <-> (exists d, d ∈ days /\ (int (strftime_Ymd d) ∉ keys) /\
                 row = make_dim_date d).
Proof.
  unfold new_rows. rewrite list_elem_of_fmap. split.
  - intros (d & -> & [Hk Hd]%list_elem_of_filter). by exists d.
  - intros (d & Hd & Hk & ->). exists d. split; [done|].
    by apply list_elem_of_filter.
Qed.

(** C8. For a year range within the years a date can hold (the end year
    below 9999, beyond which the day after the last one does not exist), the
    generator returns and appends to [DimDate] exactly the rows of the days
    of the range whose key was not in the table: a row is added if and only
    if it is the row of a valid calendar day of the range with a key not yet
    present, and no two added rows share a key. The row of a day has the key
    YYYYMMDD, the date, its year, the quarter (month-1)/3+1, the month, the
    day of the month, the weekday counted from Monday = 0 to Sunday = 6
    (2000-01-01 is a 5, a Saturday, and each next day is one weekday
    further), and is a weekend row exactly on weekdays 5 and 6. Rows are
    committed when the session had nothing pending. Run again over the same
    range, the generator returns and leaves the table and the store as they
    are. *)
Theorem calendar_rows_once_per_missing_day (st : St) (start_year end_year : Z) :
  MINYEAR <= start_year <= MAXYEAR -> MINYEAR <= end_year < MAXYEAR ->
  exists st' added,
    load_dim_date st start_year end_year = Some (Returned st') /\
    working st' = with_dim_date (dim_date (working st) ++ added) (working st) /\
    (committed st = working st -> committed st' = working st') /\
    NoDup (DimDate.date_key <$> added) /\
    (forall row, row ∈ added
       <-> (exists d, valid_date d /\ start_year <= date.year d <= end_year /\
              (int (strftime_Ymd d) ∉ DimDate.date_key <$> dim_date (working st)) /\
              row = make_dim_date d)) /\
    (forall d, valid_date d ->
       let row := make_dim_date d in
       DimDate.date_key row
       = date.year d * 10000 + date.month d * 100 + date.day d /\
       DimDate.date row = d /\
       DimDate.year row = date.year d /\
       DimDate.quarter row = (date.month d - 1) / 3 + 1 /\
       DimDate.month row = date.month d /\
       DimDate.day_of_month row = date.day d /\
       DimDate.day_of_week row = weekday d /\
       0 <= weekday d <= 6 /\
       (DimDate.is_weekend row = true <-> weekday d = 5 \/ weekday d = 6)) /\
    weekday (date.mk 2000 1 1) = 5 /\
    (forall d d', valid_date d -> next_day d = Some d' ->
                  weekday d' = (weekday d + 1) mod 7) /\
    exists st'',
      load_dim_date st' start_year end_year = Some (Returned st'') /\
      working st'' = working st' /\ committed st'' = committed st'.
Proof.
  intros Hs He.
  destruct (load_dim_date_result st start_year end_year Hs He)
    as (st' & Hload & Hw & Hclean & _ & _).
  destruct (calendar_days_spec start_year end_year Hs He) as [Hnd Hdays].
  set (keys := date_keys (dim_date (working st))) in *.
  set (days := calendar_days start_year end_year) in *.
  exists st', (new_rows keys days).
  split; [done|]. split; [done|]. split; [done|].
  assert (forall row, row ∈ new_rows keys days
            <-> (exists d, valid_date d /\ start_year <= date.year d <= end_year /\
                   (int (strftime_Ymd d) ∉ DimDate.date_key <$> dim_date (working st)) /\
                   row = make_dim_date d)) as Hrows.
  { intros row. rewrite new_rows_elem. split.
    - intros (d & [Hv Hr]%Hdays & Hk & ->). exists d.
      split; [done|]. split; [done|]. split; [|done].
      intros Hin. by apply Hk, elem_of_date_keys.
    - intros (d & Hv & Hr & Hk & ->). exists d. split; [by apply Hdays|].
      split; [|done]. intros Hin. by apply Hk, elem_of_date_keys. }
  split; [|split; [done|split; [|split; [done|split]]]].
  - unfold new_rows. rewrite <- list_fmap_compose.
    apply NoDup_fmap_2_strong; [|by apply NoDup_filter].
    intros d1 d2 [_ [H1 _]%Hdays]%list_elem_of_filter
      [_ [H2 _]%Hdays]%list_elem_of_filter Heq.
    unfold compose in Heq. rewrite !make_dim_date_key in Heq.
    exact (date_key_inj d1 d2 H1 H2 Heq).
  - intros d Hv. cbv zeta. pose proof (weekday_range d) as Hwd.
    split; [rewrite make_dim_date_key; by apply date_key_value|].
    split; [reflexivity|]. split; [reflexivity|]. split; [reflexivity|].
    split; [reflexivity|]. split; [reflexivity|]. split; [reflexivity|].
    split; [exact Hwd|]. split.
    + simpl. intros Hwe%Z.leb_le. lia.
    + simpl. intros Hwe. apply Z.leb_le. lia.
  - apply weekday_next_day.
  - destruct (load_dim_date_result st' start_year end_year Hs He)
      as (st'' & Hload' & Hw' & _ & Hcom' & _).
    assert (new_rows (date_keys (dim_date (working st'))) days = []) as Hnone.
    { unfold new_rows. rewrite filter_none; [done|].
      intros d Hd Hk. apply Hk, elem_of_date_keys. rewrite Hw. simpl.
      rewrite fmap_app. apply elem_of_app.
      destruct (decide (int (strftime_Ymd d) ∈ keys)) as [Hin | Hnot].
      - left. by apply elem_of_date_keys.
      - right. apply list_elem_of_fmap. exists (make_dim_date d).
        split; [by rewrite make_dim_date_key|].
        apply new_rows_elem. exists d. split; [exact Hd|]. split; [exact Hnot|].
        reflexivity. }
    fold days in Hw', Hcom'. rewrite Hnone in Hw', Hcom'.
    exists st''. split; [done|]. split; [|by apply Hcom'].
    by rewrite Hw', app_nil_r, with_dim_date_same.
Qed.

(** ** Reachable stores satisfy the keys the theorems assume *)

Lemma table_keys_rebuild_bridges (t : Table) (source : SourceDB)
    (db : TargetDB) :
  table_keys t (rebuild_bridges source db) = table_keys t db.
Proof.
  unfold rebuild_bridges. destruct (bool_decide _ && bool_decide _); by destruct t.
Qed.

Lemma table_keys_with_dim_date (t : Table) v (db : TargetDB) :
  table_keys t (with_dim_date v db) = table_keys t db.
Proof. by destruct t. Qed.

Lemma keys_ok_nil : keys_ok [].
Proof. repeat split; constructor. Qed.

Lemma upsert_keys_ok (ks : list Z) (keys : list (Z * Z)) :
  keys_ok keys -> keys_ok (foldl (fun keys k => upsert_key k keys) keys ks).
Proof.
  intros (Hu & Hs & Hp). split; [by apply upsert_keys_unique|].
  split; [by apply upsert_keys_surrogates|by apply upsert_keys_positive].
Qed.

Lemma store_ok_primary_keys (db : TargetDB) :
  store_ok db ->
  primary_key_ok (dim_film db) /\ primary_key_ok (dim_actor db) /\
  primary_key_ok (dim_category db).
Proof.
  intros Hok.
  assert (forall (R : Type) (H : TargetRow R) (tbl : list R),
            keys_ok (keys_of tbl) -> primary_key_ok tbl) as Hpk.
  { intros R H tbl (_ & Hnd & Hpos). unfold keys_of in *.
    rewrite <- list_fmap_compose in Hnd, Hpos. split; [exact Hnd|].
    rewrite Forall_fmap in Hpos. eapply Forall_impl; [exact Hpos|].
    simpl. intros row Hrow. lia. }
  split; [|split].
  - apply Hpk, (Hok T_dim_film).
  - apply Hpk, (Hok T_dim_actor).
  - apply Hpk, (Hok T_dim_category).
Qed.

Section Reachable.
Variable wall_clock : nat -> datetime.t.

Lemma sync_table_store_ok (t : Table) (source : SourceDB) (st : St) :
  store_ok (working st) ->
  store_ok (working (sync_table wall_clock t source st)).
Proof.
  intros Hok t'. rewrite sync_table_keys. case_decide; [|done].
  by apply upsert_keys_ok.
Qed.

Lemma run_sync_tables_store_ok (source : SourceDB) (tables : list Table)
    (st : St) :
  committed st = working st -> store_ok (working st) ->
  let st' := run ((fun t => sync_table wall_clock t source) <$> tables) st in
  committed st' = working st' /\ store_ok (working st').
Proof.
  revert st. induction tables as [|t tables IH]; intros st Hclean Hok; [done|].
  simpl. apply IH; [by apply sync_table_clean|by apply sync_table_store_ok].
Qed.

(** A load ends with the bridge step on the session its synchronizers left. *)
Lemma incremental_load_bridges (source : SourceDB) (st : St) :
  let s7 :=
    run ((fun t => sync_table wall_clock t source) <$> all_tables)
      (print StartingIncrementalLoad (get_target_session st)) in
  committed (incremental_load wall_clock source st)
  = rebuild_bridges source (working s7) /\
  working (incremental_load wall_clock source st)
  = rebuild_bridges source (working s7).
Proof.
  cbv zeta. rewrite incremental_load_unfold.
  remember (print StartingIncrementalLoad (get_target_session st)) as s0 eqn:Hs0.
  assert (committed s0 = working s0) as Hclean0 by (by subst s0).
  assert (forall s, committed s = working s ->
            committed (run ((fun t => sync_table wall_clock t source)
                            <$> all_tables) s)
            = working (run ((fun t => sync_table wall_clock t source)
                            <$> all_tables) s)) as Hclean.
  { clear. generalize all_tables. intros tables.
    induction tables as [|t tables IH]; intros s Hs; [done|].
    simpl. by apply IH, sync_table_clean. }
  specialize (Hclean s0 Hclean0).
  remember (run ((fun t => sync_table wall_clock t source) <$> all_tables) s0)
    as s7 eqn:Hs7.
  destruct (bridge_step_closed source IncrementalLoadCompleted
              ErrorDuringIncrementalLoad s7 Hclean eq_refl eq_refl)
    as (Hc & Hw & _). by split.
Qed.

Lemma full_load_bridges (source : SourceDB) (st : St) :
  let cleared :=
    print DataCleared
      (run clear_steps
         (print ClearingExistingData (snd (now wall_clock (get_target_session st))))) in
  let s7 :=
    run ((fun t => sync_table wall_clock t source) <$> all_tables) cleared in
  committed (full_load wall_clock source st)
  = rebuild_bridges source (working s7) /\
  working (full_load wall_clock source st)
  = rebuild_bridges source (working s7).
Proof.
  cbv zeta. unfold full_load. cbn [now].
  change (sync_steps wall_clock source)
    with ((fun t => sync_table wall_clock t source) <$> all_tables).
  remember (print DataCleared (run clear_steps _)) as cleared eqn:Hcleared.
  assert (committed cleared = working cleared) as Hclean0 by (by subst cleared).
  destruct (run_sync_tables_store_ok source all_tables cleared Hclean0)
    as [Hclean _].
  { subst cleared. intros t. destruct t; apply keys_ok_nil. }
  remember (run ((fun t => sync_table wall_clock t source) <$> all_tables) cleared)
    as s7 eqn:Hs7.
  rewrite sync_bridge_tables_closed_form. cbv zeta. unfold rebuild_bridges.
  destruct (bool_decide _ && bool_decide _); simpl; by rewrite ?Hclean.
Qed.

(** The points of a full load end in the session on which the bridge
    rebuild runs. *)
Lemma full_load_through_points (source : SourceDB) (st : St) :
  exists s7,
    last (full_load_points wall_clock source st) = Some s7 /\
    full_load wall_clock source st
    = close
        match sync_bridge_tables source s7 with
        | Returned t => print FullLoadCompleted (commit t)
        | Raised _ t => print ErrorDuringFullLoad (rollback t)
        end.
Proof.
  eexists. split; [|reflexivity].
  unfold full_load_points. cbv zeta. rewrite last_app.
  reflexivity.
Qed.

(** Every reachable state has nothing pending and keeps the keys of the
    schema: the hypotheses of the theorems on upserts and on bridges hold
    in all of them. *)
Lemma reachable_store_ok (st : St) :
  reachable wall_clock st ->
  committed st = working st /\ store_ok (working st).
Proof.
  induction 1 as [|t source st Hreach [IHc IHok]|source st Hreach [IHc IHok]
                  |source st Hreach [IHc IHok]
                  |st sy ey st' Hreach [IHc IHok] Hs He Hload
                  |source st Hreach [IHc IHok]].
  - split; [done|]. intros t. destruct t; apply keys_ok_nil.
  - split; [by apply sync_table_clean|by apply sync_table_store_ok].
  - destruct (incremental_load_bridges source st) as [Hc Hw].
    split; [by rewrite Hc, Hw|]. rewrite Hw. intros t.
    rewrite table_keys_rebuild_bridges.
    apply (run_sync_tables_store_ok source all_tables); [done|].
    simpl. by rewrite IHc.
  - destruct (full_load_bridges source st) as [Hc Hw].
    split; [by rewrite Hc, Hw|]. rewrite Hw. intros t.
    rewrite table_keys_rebuild_bridges.
    apply (run_sync_tables_store_ok source all_tables); [done|].
    intros t'. destruct t'; apply keys_ok_nil.
  - destruct (load_dim_date_result st sy ey Hs He)
      as (st2 & Hload2 & Hw & Hclean & _).
    rewrite Hload in Hload2. injection Hload2 as <-.
    split; [by apply Hclean|]. rewrite Hw. intros t.
    by rewrite table_keys_with_dim_date.
  - unfold validate_data. cbv zeta. rewrite count_checks_fold.
    destruct (if is_fail _ then true else _); simpl;
      (split; [done|by rewrite IHc]).
Qed.

End Reachable.

(** ** Concrete runs *)

(** The bound on the end year is needed: for a range that ends in 9999 the
    step past the last day raises and the rows of the pending batch are
    never written. *)
Lemma calendar_overflows_in_9999 :
  exists st',
    load_dim_date empty_store 9999 9999 = Some (Raised OverflowError st') /\
    dim_date (working st') = [].
Proof. vm_compute. eexists. split; reflexivity. Qed.

(** C4 as stated fails. A film arrives in the source with a timestamp older
    than the film watermark, so the rental of it is loaded with no film key;
    later the film is touched and loaded, and the rental is returned. The
    run that updates the rental row leaves its film key unset although the
    film map of that run resolves the film. Every source timestamp precedes
    the clock readings of the runs that follow it. *)
Lemma rental_update_keeps_stale_film_key :
  let st :=
    sync_runs clock_daily
      [(T_dim_film, late_film_1); (T_dim_film, late_film_2);
       (T_fact_rental, late_film_2); (T_dim_film, late_film_3)] empty_store in
  let st' := sync_fact_rental clock_daily late_film_3 st in
  FactRental.rental_id <$> fact_rental (committed st) = [1] /\
  changed_keys T_fact_rental late_film_3 (last_sync_of "fact_rental" st) = [1] /\
  FactRental.film_key <$> fact_rental (committed st') = [None] /\
  get_surrogate_key_map (dim_film (committed st')) !! 7 = Some 2 /\
  rental_keys_current late_film_3 (last_sync_of "fact_rental" st)
    (committed st') = false.
Proof. vm_compute. done. Qed.

(** C6 on a run: after an incremental load of the sample source every bridge
    row refers to existing dimension rows, and so it does once a following
    full load has completed, but the full load commits its clearing of the
    dimensions while the bridge tables still hold their rows: from that commit
    up to the load of the last dimension the committed bridge rows refer to
    surrogate keys that no dimension row has. *)
Theorem full_load_commits_dangling_bridge_rows :
  let loaded := incremental_load clock_2024 sample_source empty_store in
  let points := full_load_points clock_2024 sample_source loaded in
  bridge_refs_ok (committed loaded) = true /\
  (fun p => bridge_refs_ok (committed p)) <$> points
  = [true; true; true; true; true; true; true; true; false; false; false;
     false; false; true; true; true] /\
  (exists p, points !! 8%nat = Some p /\
     dim_film (committed p) = [] /\ dim_actor (committed p) = [] /\
     bridge_film_actor (committed p) = [BridgeFilmActor.mk 1 1]) /\
  bridge_refs_ok (committed (full_load clock_2024 sample_source loaded)) = true.
Proof.
  vm_compute. split; [done|]. split; [done|]. split; [|done].
  eexists. split; [reflexivity|]. done.
Qed.

(** C2 as stated fails when the loader's clock lags the source's timestamps:
    the second of two incremental loads of an unchanged source processes
    every row again and stamps the target rows anew. *)
Lemma second_load_reprocesses_when_clock_lags :
  let w1 := incremental_load clock_lagging sample_source empty_store in
  let w2 := incremental_load clock_lagging sample_source w1 in
  filter (fun e => is_processed e) (drop (length (stdout w1)) (stdout w2))
  = [Processed 1 "films"; Processed 1 "customers"; Processed 1 "stores";
     Processed 1 "actors"; Processed 1 "categories"; Processed 1 "rentals";
     Processed 1 "payments"] /\
  committed w2 <> committed w1.
Proof.
  vm_compute. split; [done|]. intros [= Heq]. 
Qed.

(** ** The theorems at the sample data *)

Lemma empty_store_unique (t : Table) :
  natural_keys_unique (table_keys t (working empty_store)).
Proof. destruct t; constructor. Qed.

Lemma upsert_keeps_natural_keys_unique_witness :
  committed empty_store = working empty_store /\
  (forall t, natural_keys_unique (table_keys t (working empty_store))) /\
  (forall t,
     natural_keys_unique
       (table_keys t (committed (sync_runs clock_2024 sample_runs empty_store)))).
Proof.
  split; [reflexivity|]. split; [exact empty_store_unique|]. intros t.
  exact (proj1 (proj1 (proj2 (upsert_keeps_natural_keys_unique clock_2024
                                sample_runs empty_store eq_refl
                                empty_store_unique)) t)).
Defined.

Lemma second_incremental_load_changes_nothing_witness :
  (forall n, source_not_after sample_source (clock_2024 n) = true) /\
  committed (incremental_load clock_2024 sample_source loaded_store)
  = committed loaded_store.
Proof.
  assert (forall n, source_not_after sample_source (clock_2024 n) = true) as Hclock
    by (intros n; reflexivity).
  split; [exact Hclock|].
  exact (proj1 (second_incremental_load_changes_nothing clock_2024
                  sample_source empty_store Hclock)).
Defined.

Lemma sync_without_changes_is_noop_witness :
  changed_keys T_dim_film sample_source
    (last_sync_of (table_name T_dim_film) loaded_store) = [] /\
  working (sync_table clock_2024 T_dim_film sample_source loaded_store)
  = working loaded_store.
Proof.
  assert (changed_keys T_dim_film sample_source
            (last_sync_of (table_name T_dim_film) loaded_store) = []) as Hnone
    by (vm_compute; reflexivity).
  split; [exact Hnone|].
  exact (proj1 (proj2 (sync_without_changes_is_noop clock_2024 T_dim_film
                         sample_source loaded_store Hnone))).
Defined.

Lemma fact_keys_come_from_current_maps_witness :
  natural_keys_unique (keys_of (fact_payment (working loaded_store))) /\
  dim_customer (working (sync_fact_payment clock_2024 sample_source loaded_store))
  = dim_customer (working loaded_store).
Proof.
  assert (natural_keys_unique (keys_of (fact_payment (working loaded_store))))
    as Hunique by (vm_compute; apply NoDup_singleton).
  split; [exact Hunique|].
  exact (proj1 (proj2 (proj2 (proj1 (fact_keys_come_from_current_maps clock_2024
                                       sample_source loaded_store Hunique))))).
Defined.

Lemma bridge_rebuild_resolves_and_counts_witness :
  primary_key_ok (dim_film (working loaded_store)) /\
  primary_key_ok (dim_actor (working loaded_store)) /\
  primary_key_ok (dim_category (working loaded_store)) /\
  NoDup (src_film_actor sample_source) /\
  NoDup (src_film_category sample_source) /\
  exists st', sync_bridge_tables sample_source loaded_store = Returned st'.
Proof.
  assert (primary_key_ok (dim_film (working loaded_store))) as Hf
    by (vm_compute; split; [apply NoDup_singleton|by repeat constructor]).
  assert (primary_key_ok (dim_actor (working loaded_store))) as Ha
    by (vm_compute; split; [apply NoDup_singleton|by repeat constructor]).
  assert (primary_key_ok (dim_category (working loaded_store))) as Hc
    by (vm_compute; split; [apply NoDup_singleton|by repeat constructor]).
  assert (NoDup (src_film_actor sample_source)) as Hfa
    by (vm_compute; apply NoDup_singleton).
  assert (NoDup (src_film_category sample_source)) as Hfc
    by (vm_compute; apply NoDup_singleton).
  repeat (split; [assumption|]).
  destruct (bridge_rebuild_resolves_and_counts sample_source loaded_store
              Hf Ha Hc Hfa Hfc) as (st' & Hret & _).
  by exists st'.
Defined.

Lemma sync_writes_wall_clock_watermark_witness :
  length (changed_keys T_dim_film sample_source
            (last_sync_of (table_name T_dim_film) empty_store)) <> 0%nat /\
  sync_state (working (sync_table clock_2024 T_dim_film sample_source empty_store))
    !! table_name T_dim_film
  = Some (clock_2024 1).
Proof.
  assert (length (changed_keys T_dim_film sample_source
                    (last_sync_of (table_name T_dim_film) empty_store))
          <> 0%nat) as Hn by (vm_compute; discriminate).
  split; [exact Hn|].
  exact (proj1 (sync_writes_wall_clock_watermark clock_2024 T_dim_film
                  sample_source empty_store Hn)).
Defined.

Lemma calendar_rows_once_per_missing_day_witness :
  MINYEAR <= 2000 <= MAXYEAR /\ MINYEAR <= 2030 < MAXYEAR /\
  exists st', load_dim_date empty_store 2000 2030 = Some (Returned st').
Proof.
  assert (MINYEAR <= 2000 <= MAXYEAR) as Hs by (unfold MINYEAR, MAXYEAR; lia).
  assert (MINYEAR <= 2030 < MAXYEAR) as He by (unfold MINYEAR, MAXYEAR; lia).
  split; [exact Hs|]. split; [exact He|].
  destruct (calendar_rows_once_per_missing_day empty_store 2000 2030 Hs He)
    as (st' & added & Hload & _).
  by exists st'.
Defined.

(** * Further properties of the code *)

(** ** Date keys and rental durations *)

(** X1. [generate_date_key] of a timestamp on a valid calendar day is the
    integer [YYYYMMDD]: it lies between 10101 and 99991231, two timestamps
    get the same key exactly when they fall on the same day, and the keys
    are ordered as the days are. *)
Theorem generate_date_key_orders_days (a b : datetime.t) :
  valid_date (datetime.date a) -> valid_date (datetime.date b) ->
  exists ka kb,
    generate_date_key (Some a) = Some ka /\
    generate_date_key (Some b) = Some kb /\
    ka = date.year (datetime.date a) * 10000
         + date.month (datetime.date a) * 100 + date.day (datetime.date a) /\
    10101 <= ka <= 99991231 /\
    (ka = kb <-> datetime.date a = datetime.date b) /\
    (ka < kb <-> date_ltb (datetime.date a) (datetime.date b) = true).
Proof.
  intros Ha Hb. unfold generate_date_key. eexists _, _.
  split; [reflexivity|]. split; [reflexivity|].
  rewrite !date_key_value by done.
  destruct a as [[y1 m1 d1] u1], b as [[y2 m2 d2] u2]. simpl in *.
  destruct Ha as (Hy1 & Hm1 & Hd1), Hb as (Hy2 & Hm2 & Hd2).
  unfold MINYEAR, MAXYEAR in *. simpl in *.
  pose proof (days_in_month_bounds y1 m1). pose proof (days_in_month_bounds y2 m2).
  split; [done|]. split; [lia|]. split.
  - split.
    + intros Heq. assert (y1 = y2) by lia. assert (m1 = m2) by lia.
      f_equal; lia.
    + intros [= -> -> ->]. done.
  - unfold date_ltb. simpl.
    rewrite orb_true_iff, andb_true_iff, orb_true_iff, andb_true_iff,
      !Z.ltb_lt, !Z.eqb_eq. lia.
Qed.

(** X2. The rental duration a synchronizer stores is 0 for a rental that
    has not been returned, and otherwise the number of whole days from the
    rental to the return, rounded towards minus infinity as [timedelta.days]
    does: the elapsed time lies in [[d, d + 1)] days. *)
Theorem rental_duration_whole_days (r_obj : SakilaRental.t) :
  match SakilaRental.return_date r_obj with
  | None => rental_duration r_obj = 0
  | Some return_date =>
    let elapsed :=
      (toordinal (datetime.date return_date)
       - toordinal (datetime.date (SakilaRental.rental_date r_obj))) * US_PER_DAY
      + (datetime.us return_date - datetime.us (SakilaRental.rental_date r_obj)) in
    rental_duration r_obj * US_PER_DAY <= elapsed
    < (rental_duration r_obj + 1) * US_PER_DAY
  end.
Proof.
  unfold rental_duration. destruct (SakilaRental.return_date r_obj) as [ret|]; [|done].
  cbv zeta. unfold timedelta_days, US_PER_DAY.
  Z.div_mod_to_equations. lia.
Qed.

(** ** Key maps and extraction queries *)

(** X3. On a table with at most one row per natural key,
    [get_surrogate_key_map] is the table read as a function: it maps a
    natural key to a surrogate key exactly when a row carries both, and has
    no entry exactly for the natural keys of no row. Without uniqueness the
    last row with a natural key wins. *)
Theorem key_map_lookup_is_table_lookup {R : Type} `{TargetRow R}
    (tbl : list R) (k : Z) :
  natural_keys_unique (keys_of tbl) ->
  (forall s, get_surrogate_key_map tbl !! k = Some s <-> (k, s) ∈ keys_of tbl) /\
  (get_surrogate_key_map tbl !! k = None <-> k ∉ natural_key <$> tbl) /\
  (forall row row',
     natural_key row' = natural_key row ->
     get_surrogate_key_map (tbl ++ [row; row']) !! natural_key row
     = Some (surrogate_key row')).
Proof.
  intros Hu.
  assert (forall s, get_surrogate_key_map tbl !! k = Some s -> (k, s) ∈ keys_of tbl)
    as Hsound.
  { intros s (row & Hrow & <- & <-)%key_map_lookup_row.
    unfold keys_of. apply list_elem_of_fmap. by exists row. }
  assert (forall s, (k, s) ∈ keys_of tbl -> get_surrogate_key_map tbl !! k = Some s)
    as Hcomplete.
  { intros s Hin. unfold keys_of in Hin.
    apply list_elem_of_fmap in Hin as (row & [= -> ->] & Hrow).
    destruct (key_map_covers tbl row Hrow) as [s' Hs'].
    rewrite Hs'. f_equal.
    eapply (unique_key_functional (keys_of tbl)); [exact Hu|by apply Hsound|].
    unfold keys_of. apply list_elem_of_fmap. by exists row. }
  split; [|split].
  - intros s. split; [apply Hsound|apply Hcomplete].
  - split.
    + intros Hnone (row & -> & Hrow)%list_elem_of_fmap.
      destruct (key_map_covers tbl row Hrow) as [s Hs]. congruence.
    + intros Hnot. destruct (get_surrogate_key_map tbl !! k) as [s|] eqn:Hl; [|done].
      exfalso. apply Hnot.
      apply key_map_lookup_row in Hl as (row & Hrow & <- & _).
      by apply list_elem_of_fmap_2.
  - intros row row' Heq.
    replace (tbl ++ [row; row']) with ((tbl ++ [row]) ++ [row'])
      by (by rewrite <- app_assoc).
    rewrite get_surrogate_key_map_snoc, Heq. apply lookup_insert_eq.
Qed.

Lemma elem_of_join_iff {A B : Type} (on : A -> B -> bool) (l : list A)
    (r : list B) (a : A) (b : B) :
  (a, b) ∈ join on l r <-> a ∈ l /\ b ∈ r /\ on a b = true.
Proof.
  unfold join. rewrite list_elem_of_bind. split.
  - intros (a' & Hin & Ha).
    apply list_elem_of_bind in Hin as (b' & Hin & Hb).
    apply list_elem_of_singleton in Hin as [= -> ->].
    apply list_elem_of_filter in Hb as [Hon Hb].
    split; [done|]. split; [done|]. by apply Is_true_true.
  - intros (Ha & Hb & Hon). exists a. split; [|done].
    apply list_elem_of_bind. exists b. split; [by apply list_elem_of_singleton|].
    apply list_elem_of_filter. split; [by apply Is_true_true|done].
Qed.

(** X4. The customer extraction query returns a customer with a city and a
    country name exactly when the customer was modified after the watermark
    and an address, a city and a country row chain up to it, whose names are
    the ones returned; a customer with a broken chain is never extracted. *)
Theorem customer_extraction_is_inner_join (source : SourceDB)
    (last_sync : datetime.t) (c : SakilaCustomer.t) (city country : string) :
  (c, city, country) ∈ changes_customer source last_sync
  <-> c ∈ src_customer source /\
      datetime_ltb last_sync (SakilaCustomer.last_update c) = true /\
      exists a ci co,
        a ∈ src_address source /\ ci ∈ src_city source /\
        co ∈ src_country source /\
        SakilaAddress.address_id a = SakilaCustomer.address_id c /\
        SakilaCity.city_id ci = SakilaAddress.city_id a /\
        SakilaCountry.country_id co = SakilaCity.country_id ci /\
        city = SakilaCity.city ci /\ country = SakilaCountry.country co.
Proof.
  unfold changes_customer. cbv zeta. rewrite list_elem_of_fmap. split.
  - intros ([[[c' a] ci] co] & [= -> -> ->] & Hin).
    apply list_elem_of_filter in Hin as [Hlt Hin].
    apply elem_of_join_iff in Hin as (Hin & Hco & Hon3).
    apply elem_of_join_iff in Hin as (Hin & Hci & Hon2).
    apply elem_of_join_iff in Hin as (Hc & Ha & Hon1).
    apply Z.eqb_eq in Hon1, Hon2, Hon3.
    split; [done|]. split; [by apply Is_true_true|].
    exists a, ci, co. repeat split; done.
  - intros (Hc & Hlt & a & ci & co & Ha & Hci & Hco & H1 & H2 & H3 & -> & ->).
    exists (c, a, ci, co). split; [done|].
    apply list_elem_of_filter. split; [by apply Is_true_true|].
    apply elem_of_join_iff. split; [|split; [done|by apply Z.eqb_eq]].
    apply elem_of_join_iff. split; [|split; [done|by apply Z.eqb_eq]].
    apply elem_of_join_iff. split; [done|]. split; [done|]. by apply Z.eqb_eq.
Qed.

(** X5. The store extraction query returns a store with a city and a
    country name exactly when the store was modified after the watermark and
    an address, a city and a country row chain up to it. *)
Theorem store_extraction_is_inner_join (source : SourceDB)
    (last_sync : datetime.t) (s : SakilaStore.t) (city country : string) :
  (s, city, country) ∈ changes_store source last_sync
  <-> s ∈ src_store source /\
      datetime_ltb last_sync (SakilaStore.last_update s) = true /\
      exists a ci co,
        a ∈ src_address source /\ ci ∈ src_city source /\
        co ∈ src_country source /\
        SakilaAddress.address_id a = SakilaStore.address_id s /\
        SakilaCity.city_id ci = SakilaAddress.city_id a /\
        SakilaCountry.country_id co = SakilaCity.country_id ci /\
        city = SakilaCity.city ci /\ country = SakilaCountry.country co.
Proof.
  unfold changes_store. cbv zeta. rewrite list_elem_of_fmap. split.
  - intros ([[[s' a] ci] co] & [= -> -> ->] & Hin).
    apply list_elem_of_filter in Hin as [Hlt Hin].
    apply elem_of_join_iff in Hin as (Hin & Hco & Hon3).
    apply elem_of_join_iff in Hin as (Hin & Hci & Hon2).
    apply elem_of_join_iff in Hin as (Hc & Ha & Hon1).
    apply Z.eqb_eq in Hon1, Hon2, Hon3.
    split; [done|]. split; [by apply Is_true_true|].
    exists a, ci, co. repeat split; done.
  - intros (Hc & Hlt & a & ci & co & Ha & Hci & Hco & H1 & H2 & H3 & -> & ->).
    exists (s, a, ci, co). split; [done|].
    apply list_elem_of_filter. split; [by apply Is_true_true|].
    apply elem_of_join_iff. split; [|split; [done|by apply Z.eqb_eq]].
    apply elem_of_join_iff. split; [|split; [done|by apply Z.eqb_eq]].
    apply elem_of_join_iff. split; [done|]. split; [done|]. by apply Z.eqb_eq.
Qed.

(** X6. The rental extraction query returns a rental with a film id
    exactly when the rental was modified after the watermark and an inventory
    row with its inventory id has that film id; the payment extraction query
    returns a payment with a store id exactly when the payment was modified
    after the watermark and a staff row with its staff id has that store
    id. *)
Theorem fact_extraction_is_inner_join (source : SourceDB)
    (last_sync : datetime.t) :
  (forall r film_id,
     (r, film_id) ∈ changes_rental source last_sync
     <-> r ∈ src_rental source /\
         datetime_ltb last_sync (SakilaRental.last_update r) = true /\
         exists i, i ∈ src_inventory source /\
                   SakilaInventory.inventory_id i = SakilaRental.inventory_id r /\
                   SakilaInventory.film_id i = film_id) /\
  (forall p store_id,
     (p, store_id) ∈ changes_payment source last_sync
     <-> p ∈ src_payment source /\
         datetime_ltb last_sync (SakilaPayment.last_update p) = true /\
         exists s, s ∈ src_staff source /\
                   SakilaStaff.staff_id s = SakilaPayment.staff_id p /\
                   SakilaStaff.store_id s = store_id).
Proof.
  split.
  - intros r film_id. unfold changes_rental. rewrite list_elem_of_fmap. split.
    + intros ([r' i] & [= -> ->] & Hin).
      apply list_elem_of_filter in Hin as [Hlt Hin].
      apply elem_of_join_iff in Hin as (Hr & Hi & Hon). apply Z.eqb_eq in Hon.
      split; [done|]. split; [by apply Is_true_true|]. by exists i.
    + intros (Hr & Hlt & i & Hi & Hon & <-). exists (r, i). split; [done|].
      apply list_elem_of_filter. split; [by apply Is_true_true|].
      apply elem_of_join_iff. split; [done|]. split; [done|]. by apply Z.eqb_eq.
  - intros p store_id. unfold changes_payment. rewrite list_elem_of_fmap. split.
    + intros ([p' s] & [= -> ->] & Hin).
      apply list_elem_of_filter in Hin as [Hlt Hin].
      apply elem_of_join_iff in Hin as (Hp & Hs & Hon). apply Z.eqb_eq in Hon.
      split; [done|]. split; [by apply Is_true_true|]. by exists s.
    + intros (Hp & Hlt & s & Hs & Hon & <-). exists (p, s). split; [done|].
      apply list_elem_of_filter. split; [by apply Is_true_true|].
      apply elem_of_join_iff. split; [done|]. split; [done|]. by apply Z.eqb_eq.
Qed.

(** ** Rows after a synchronizer run *)

Section UpsertLastWins.
Context {S R : Type} `{TargetRow R}.
Variable key_of : S -> Z.
Variable update : S -> datetime.t -> R -> R.
Variable insert : S -> datetime.t -> Z -> R.
Variable clock : nat -> datetime.t.
Hypothesis update_keys : forall src now row,
  natural_key (update src now row) = natural_key row /\
  surrogate_key (update src now row) = surrogate_key row.
Hypothesis insert_keys : forall src now k,
  natural_key (insert src now k) = key_of src /\
  surrogate_key (insert src now k) = k.

(** A row whose natural key is not among the changes stays where and as it
    is. *)
Lemma upsert_loop_untouched (changes : list S) (tbl : list R) (n : nat)
    (i : nat) (row : R) :
  tbl !! i = Some row -> natural_key row ∉ key_of <$> changes ->
  fst (upsert_loop key_of update insert clock changes (tbl, n)) !! i = Some row.
Proof.
  intros Hi. induction changes as [|src changes IH] using rev_ind; [done|].
  intros Hnot. rewrite fmap_app in Hnot.
  rewrite upsert_loop_snoc. cbv zeta. cbn [fst].
  assert (natural_key row ∉ key_of <$> changes) as Hnot1
    by (intros ?; apply Hnot, elem_of_app; by left).
  assert (natural_key row <> key_of src) as Hne
    by (intros Heq; apply Hnot, elem_of_app; right; rewrite Heq;
        by apply list_elem_of_singleton).
  specialize (IH Hnot1).
  set (res := fst (upsert_loop key_of update insert clock changes (tbl, n))) in *.
  destruct (upsert_cases key_of update insert (clock (snd (upsert_loop key_of update insert clock changes (tbl, n)))) src res)
    as [(j & existing & Hj & Hk & _ & ->) | (_ & ->)].
  - rewrite list_lookup_insert_ne; [done|]. intros ->. congruence.
  - by apply lookup_app_l_Some.
Qed.

(** A row whose natural key is among the changes carries what the last
    change with that key wrote, at the clock reading of that change. *)
Lemma upsert_loop_last_wins (Qu : S -> datetime.t -> R -> Prop)
    (changes : list S) (tbl : list R) (n : nat) :
  (forall src now row, Qu src now (update src now row)) ->
  (forall src now k, Qu src now (insert src now k)) ->
  natural_keys_unique (keys_of tbl) ->
  forall row',
    row' ∈ fst (upsert_loop key_of update insert clock changes (tbl, n)) ->
    natural_key row' ∈ key_of <$> changes ->
    exists j src,
      changes !! j = Some src /\ key_of src = natural_key row' /\
      Qu src (clock (n + j)) row' /\
      forall j' src', (j < j')%nat -> changes !! j' = Some src' ->
                      key_of src' <> natural_key row'.
Proof.
  intros Hupd Hins Hu.
  induction changes as [|src changes IH] using rev_ind.
  - intros row' _ Hin. by apply elem_of_nil in Hin.
  - intros row'. rewrite upsert_loop_snoc. cbv zeta. cbn [fst].
    pose proof (upsert_loop_unique key_of update insert clock update_keys
                  insert_keys changes tbl n Hu) as Hures.
    pose proof (upsert_loop_ticks key_of update insert clock changes (tbl, n))
      as Hticks. cbn [snd] in Hticks. rewrite Hticks.
    set (res := fst (upsert_loop key_of update insert clock changes (tbl, n))) in *.
    set (now := clock (n + length changes)).
    assert ((changes ++ [src]) !! length changes = Some src) as Hlast
      by (by rewrite list_lookup_middle).
    assert (forall j' src', (length changes < j')%nat ->
              (changes ++ [src]) !! j' = Some src' -> False) as Hbeyond.
    { intros j' src' Hlt Hl. apply lookup_lt_Some in Hl.
      rewrite length_app in Hl. simpl in Hl. lia. }
    assert (forall r, r ∈ res -> natural_key r <> key_of src ->
              natural_key r ∈ key_of <$> changes ++ [src] ->
              exists j c,
                (changes ++ [src]) !! j = Some c /\ key_of c = natural_key r /\
                Qu c (clock (n + j)) r /\
                forall j' c', (j < j')%nat -> (changes ++ [src]) !! j' = Some c' ->
                              key_of c' <> natural_key r) as Hold.
    { intros r Hr Hne Hin. rewrite fmap_app in Hin.
      apply elem_of_app in Hin as [Hin | Hin%list_elem_of_singleton]; [|done].
      destruct (IH r Hr Hin) as (j & c & Hj & Hk & Hq & Hlater).
      exists j, c. split; [by apply lookup_app_l_Some|]. split; [done|].
      split; [done|]. intros j' c' Hlt Hl.
      apply lookup_app_Some in Hl as [Hl | [Hge Hl]]; [by eapply Hlater|].
      apply list_lookup_singleton_Some in Hl as [_ <-]. congruence. }
    destruct (upsert_cases key_of update insert now src res)
      as [(j & existing & Hj & Hk & _ & ->) | (Hnone & ->)].
    + intros Hrow' Hin. apply list_elem_of_lookup in Hrow' as [i Hi].
      apply list_lookup_insert_Some in Hi as [(-> & <- & _) | (Hne & Hi)].
      * exists (length changes), src. split; [done|].
        split; [by destruct (update_keys src now existing) as [-> _]|].
        split; [apply Hupd|]. intros j' src' Hlt Hl. by destruct (Hbeyond j' src').
      * apply Hold; [by eapply list_elem_of_lookup_2| |done].
        intros Heq. apply Hne.
        unfold natural_keys_unique in Hures. rewrite natural_keys_of in Hures.
        eapply NoDup_lookup; [exact Hures| |]; rewrite list_lookup_fmap.
        -- rewrite Hj. simpl. by rewrite Hk.
        -- rewrite Hi. simpl. by rewrite Heq.
    + intros Hrow' Hin.
      apply elem_of_app in Hrow' as [Hrow' | ->%list_elem_of_singleton].
      * apply Hold; [done| |done]. rewrite Forall_forall in Hnone. by apply Hnone.
      * exists (length changes), src. split; [done|].
        split; [by destruct (insert_keys src now (next_rowid res)) as [-> _]|].
        split; [apply Hins|]. intros j' src' Hlt Hl. by destruct (Hbeyond j' src').
Qed.

End UpsertLastWins.

Section MoreSyncFacts.
Variable wall_clock : nat -> datetime.t.

Lemma sync_dim_film_rows (source : SourceDB) (st : St) :
  dim_film (working (sync_dim_film wall_clock source st))
  = fst (upsert_loop SakilaFilm.film_id update_film insert_film wall_clock
           (changes_film source (last_sync_of "dim_film" st))
           (dim_film (working st), ticks st)).
Proof.
  unfold sync_dim_film; cbv zeta.
  change (last_sync_of ?n (print ?e ?s)) with (last_sync_of n s).
  by destruct (changes_film source (last_sync_of "dim_film" st)).
Qed.

Lemma sync_dim_customer_rows (source : SourceDB) (st : St) :
  dim_customer (working (sync_dim_customer wall_clock source st))
  = fst (upsert_loop (fun '(cust_obj, _, _) => SakilaCustomer.customer_id cust_obj)
           update_customer insert_customer wall_clock
           (changes_customer source (last_sync_of "dim_customer" st))
           (dim_customer (working st), ticks st)).
Proof.
  unfold sync_dim_customer; cbv zeta.
  change (last_sync_of ?n (print ?e ?s)) with (last_sync_of n s).
  by destruct (changes_customer source (last_sync_of "dim_customer" st)).
Qed.

(** X7. After [sync_dim_film] on a table with unique natural keys, a film
    row whose id is not among the extracted changes is where and what it
    was, and a row whose id is among them carries the title, rating and
    length of the last extracted change with that id and is stamped with the
    clock reading taken for that change. *)
Theorem film_rows_after_sync (source : SourceDB) (st : St) :
  natural_keys_unique (keys_of (dim_film (working st))) ->
  let changes := changes_film source (last_sync_of "dim_film" st) in
  let old := dim_film (working st) in
  let new := dim_film (working (sync_dim_film wall_clock source st)) in
  (forall i row, old !! i = Some row ->
     DimFilm.film_id row ∉ SakilaFilm.film_id <$> changes ->
     new !! i = Some row) /\
  (forall row, row ∈ new ->
     DimFilm.film_id row ∈ SakilaFilm.film_id <$> changes ->
     exists j src,
       changes !! j = Some src /\
       SakilaFilm.film_id src = DimFilm.film_id row /\
       DimFilm.title row = SakilaFilm.title src /\
       DimFilm.rating row = SakilaFilm.rating src /\
       DimFilm.length row = SakilaFilm.length src /\
       DimFilm.last_update row = wall_clock (ticks st + j) /\
       forall j' src', (j < j')%nat -> changes !! j' = Some src' ->
                       SakilaFilm.film_id src' <> DimFilm.film_id row).
Proof.
  intros Hu. cbv zeta. rewrite sync_dim_film_rows. split.
  - intros i row Hi Hnot.
    by apply (upsert_loop_untouched SakilaFilm.film_id update_film insert_film).
  - intros row Hin Hchanged.
    destruct (upsert_loop_last_wins SakilaFilm.film_id update_film insert_film
                wall_clock ltac:(done) ltac:(done)
                (fun src now row =>
                   DimFilm.title row = SakilaFilm.title src /\
                   DimFilm.rating row = SakilaFilm.rating src /\
                   DimFilm.length row = SakilaFilm.length src /\
                   DimFilm.last_update row = now)
                (changes_film source (last_sync_of "dim_film" st))
                (dim_film (working st)) (ticks st)
                ltac:(done) ltac:(done) Hu row Hin Hchanged)
      as (j & src & Hj & Hk & (Ht & Hr & Hl & Hs) & Hlater).
    exists j, src. repeat split; done.
Qed.

(** X8. After [sync_dim_customer] on a table with unique natural keys, a
    customer row whose id is not among the extracted changes is where and
    what it was, and a row whose id is among them carries the names, email,
    active flag, city and country of an extracted change with that id and the
    clock reading taken for it. *)
Theorem customer_rows_after_sync (source : SourceDB) (st : St) :
  natural_keys_unique (keys_of (dim_customer (working st))) ->
  let changes := changes_customer source (last_sync_of "dim_customer" st) in
  let old := dim_customer (working st) in
  let new := dim_customer (working (sync_dim_customer wall_clock source st)) in
  (forall i row, old !! i = Some row ->
     DimCustomer.customer_id row
       ∉ (fun '(c, _, _) => SakilaCustomer.customer_id c) <$> changes ->
     new !! i = Some row) /\
  (forall row, row ∈ new ->
     DimCustomer.customer_id row
       ∈ (fun '(c, _, _) => SakilaCustomer.customer_id c) <$> changes ->
     exists j cust_obj city_name country_name,
       changes !! j = Some (cust_obj, city_name, country_name) /\
       SakilaCustomer.customer_id cust_obj = DimCustomer.customer_id row /\
       DimCustomer.first_name row = SakilaCustomer.first_name cust_obj /\
       DimCustomer.last_name row = SakilaCustomer.last_name cust_obj /\
       DimCustomer.email row = SakilaCustomer.email cust_obj /\
       DimCustomer.active row = SakilaCustomer.active cust_obj /\
       DimCustomer.city row = city_name /\
       DimCustomer.country row = country_name /\
       DimCustomer.last_update row = wall_clock (ticks st + j)).
Proof.
  intros Hu. cbv zeta. rewrite sync_dim_customer_rows. split.
  - intros i row Hi Hnot.
    by apply (upsert_loop_untouched
                (fun '(cust_obj, _, _) => SakilaCustomer.customer_id cust_obj)
                update_customer insert_customer).
  - intros row Hin Hchanged.
    destruct (upsert_loop_last_wins
                (fun '(cust_obj, _, _) => SakilaCustomer.customer_id cust_obj)
                update_customer insert_customer
                wall_clock ltac:(by intros [[c ci] co] now r)
                ltac:(by intros [[c ci] co] now k)
                (fun '(cust_obj, city_name, country_name) now row =>
                   DimCustomer.first_name row = SakilaCustomer.first_name cust_obj /\
                   DimCustomer.last_name row = SakilaCustomer.last_name cust_obj /\
                   DimCustomer.email row = SakilaCustomer.email cust_obj /\
                   DimCustomer.active row = SakilaCustomer.active cust_obj /\
                   DimCustomer.city row = city_name /\
                   DimCustomer.country row = country_name /\
                   DimCustomer.last_update row = now)
                (changes_customer source (last_sync_of "dim_customer" st))
                (dim_customer (working st)) (ticks st)
                ltac:(by intros [[c ci] co] now r)
                ltac:(by intros [[c ci] co] now k) Hu row Hin Hchanged)
      as (j & [[c ci] co] & Hj & Hk & (H1 & H2 & H3 & H4 & H5 & H6 & H7) & _).
    exists j, c, ci, co. repeat split; done.
Qed.

(** X13. A synchronizer run writes its own table and its own watermark and
    nothing else: every other table, the calendar and the bridge tables
    included, and the watermark of every other table are as before, and the
    store either keeps its committed state (nothing extracted) or holds the
    session state the run ends with. *)
Theorem sync_touches_only_its_table (t : Table) (source : SourceDB) (st : St) :
  let st' := sync_table wall_clock t source st in
  same_except t
    (with_sync_state (sync_state (working st)) (working st')) (working st) /\
  (forall name, name <> table_name t ->
     sync_state (working st') !! name = sync_state (working st) !! name) /\
  (committed st' = committed st \/ committed st' = working st').
Proof.
  cbv zeta. pose proof (sync_table_shape wall_clock t source st) as Hshape.
  cbv zeta in Hshape.
  destruct (changed_keys t source (last_sync_of (table_name t) st)).
  - rewrite Hshape. simpl. split; [|split; [done|by left]].
    unfold same_except. repeat split; done.
  - destruct Hshape as (mid & Hc & Hsame & _ & _ & _ & ->).
    unfold finish_sync. simpl. split; [|split; [|by right]].
    + destruct Hsame as (H1 & H2 & H3 & H4 & H5 & H6 & H7 & H8 & H9 & H10 & H11).
      unfold same_except. simpl. repeat split; done.
    + intros name Hne. rewrite lookup_insert_ne by done.
      by destruct Hsame as (_ & _ & _ & -> & _).
Qed.

End MoreSyncFacts.

Section MoreRows.
Variable wall_clock : nat -> datetime.t.

Lemma sync_dim_store_rows (source : SourceDB) (st : St) :
  dim_store (working (sync_dim_store wall_clock source st))
  = fst (upsert_loop (fun '(store_obj, _, _) => SakilaStore.store_id store_obj)
           update_store insert_store wall_clock
           (changes_store source (last_sync_of "dim_store" st))
           (dim_store (working st), ticks st)).
Proof.
  unfold sync_dim_store; cbv zeta.
  change (last_sync_of ?n (print ?e ?s)) with (last_sync_of n s).
  by destruct (changes_store source (last_sync_of "dim_store" st)).
Qed.

Lemma sync_dim_actor_rows (source : SourceDB) (st : St) :
  dim_actor (working (sync_dim_actor wall_clock source st))
  = fst (upsert_loop SakilaActor.actor_id update_actor insert_actor wall_clock
           (changes_actor source (last_sync_of "dim_actor" st))
           (dim_actor (working st), ticks st)).
Proof.
  unfold sync_dim_actor; cbv zeta.
  change (last_sync_of ?n (print ?e ?s)) with (last_sync_of n s).
  by destruct (changes_actor source (last_sync_of "dim_actor" st)).
Qed.

Lemma sync_dim_category_rows (source : SourceDB) (st : St) :
  dim_category (working (sync_dim_category wall_clock source st))
  = fst (upsert_loop SakilaCategory.category_id update_category insert_category
           wall_clock
           (changes_category source (last_sync_of "dim_category" st))
           (dim_category (working st), ticks st)).
Proof.
  unfold sync_dim_category; cbv zeta.
  change (last_sync_of ?n (print ?e ?s)) with (last_sync_of n s).
  by destruct (changes_category source (last_sync_of "dim_category" st)).
Qed.

(** X9. After [sync_dim_store] on a table with unique natural keys, a store
    row whose id is not among the extracted changes is where and what it
    was, and a row whose id is among them carries the city and country of an
    extracted change with that id and the clock reading taken for it. *)
Theorem store_rows_after_sync (source : SourceDB) (st : St) :
  natural_keys_unique (keys_of (dim_store (working st))) ->
  let changes := changes_store source (last_sync_of "dim_store" st) in
  let old := dim_store (working st) in
  let new := dim_store (working (sync_dim_store wall_clock source st)) in
  (forall i row, old !! i = Some row ->
     DimStore.store_id row
       ∉ (fun '(s, _, _) => SakilaStore.store_id s) <$> changes ->
     new !! i = Some row) /\
  (forall row, row ∈ new ->
     DimStore.store_id row
       ∈ (fun '(s, _, _) => SakilaStore.store_id s) <$> changes ->
     exists j store_obj city_name country_name,
       changes !! j = Some (store_obj, city_name, country_name) /\
       SakilaStore.store_id store_obj = DimStore.store_id row /\
       DimStore.city row = city_name /\
       DimStore.country row = country_name /\
       DimStore.last_update row = wall_clock (ticks st + j)).
Proof.
  intros Hu. cbv zeta. rewrite sync_dim_store_rows. split.
  - intros i row Hi Hnot.
    by apply (upsert_loop_untouched
                (fun '(store_obj, _, _) => SakilaStore.store_id store_obj)
                update_store insert_store).
  - intros row Hin Hchanged.
    destruct (upsert_loop_last_wins
                (fun '(store_obj, _, _) => SakilaStore.store_id store_obj)
                update_store insert_store
                wall_clock ltac:(by intros [[c ci] co] now r)
                ltac:(by intros [[c ci] co] now k)
                (fun '(store_obj, city_name, country_name) now row =>
                   DimStore.city row = city_name /\
                   DimStore.country row = country_name /\
                   DimStore.last_update row = now)
                (changes_store source (last_sync_of "dim_store" st))
                (dim_store (working st)) (ticks st)
                ltac:(by intros [[c ci] co] now r)
                ltac:(by intros [[c ci] co] now k) Hu row Hin Hchanged)
      as (j & [[c ci] co] & Hj & Hk & (H1 & H2 & H3) & _).
    exists j, c, ci, co. repeat split; done.
Qed.

(** X10. After [sync_dim_actor] and after [sync_dim_category], on tables
    with unique natural keys, a row whose id is not among the extracted
    changes is where and what it was, and a row whose id is among them
    carries the names (the name) of an extracted change with that id and the
    clock reading taken for it. *)
Theorem actor_and_category_rows_after_sync (source : SourceDB) (st : St) :
  natural_keys_unique (keys_of (dim_actor (working st))) ->
  natural_keys_unique (keys_of (dim_category (working st))) ->
  let actors := changes_actor source (last_sync_of "dim_actor" st) in
  let categories := changes_category source (last_sync_of "dim_category" st) in
  let st_a := sync_dim_actor wall_clock source st in
  let st_c := sync_dim_category wall_clock source st in
  (forall i row, dim_actor (working st) !! i = Some row ->
     DimActor.actor_id row ∉ SakilaActor.actor_id <$> actors ->
     dim_actor (working st_a) !! i = Some row) /\
  (forall row, row ∈ dim_actor (working st_a) ->
     DimActor.actor_id row ∈ SakilaActor.actor_id <$> actors ->
     exists j src,
       actors !! j = Some src /\
       SakilaActor.actor_id src = DimActor.actor_id row /\
       DimActor.first_name row = SakilaActor.first_name src /\
       DimActor.last_name row = SakilaActor.last_name src /\
       DimActor.last_update row = wall_clock (ticks st + j)) /\
  (forall i row, dim_category (working st) !! i = Some row ->
     DimCategory.category_id row ∉ SakilaCategory.category_id <$> categories ->
     dim_category (working st_c) !! i = Some row) /\
  (forall row, row ∈ dim_category (working st_c) ->
     DimCategory.category_id row ∈ SakilaCategory.category_id <$> categories ->
     exists j src,
       categories !! j = Some src /\
       SakilaCategory.category_id src = DimCategory.category_id row /\
       DimCategory.name row = SakilaCategory.name src /\
       DimCategory.last_update row = wall_clock (ticks st + j)).
Proof.
  intros Hua Huc. cbv zeta.
  rewrite sync_dim_actor_rows, sync_dim_category_rows.
  split; [|split; [|split]].
  - intros i row Hi Hnot.
    by apply (upsert_loop_untouched SakilaActor.actor_id update_actor
                insert_actor).
  - intros row Hin Hchanged.
    destruct (upsert_loop_last_wins SakilaActor.actor_id update_actor
                insert_actor wall_clock ltac:(done) ltac:(done)
                (fun src now row =>
                   DimActor.first_name row = SakilaActor.first_name src /\
                   DimActor.last_name row = SakilaActor.last_name src /\
                   DimActor.last_update row = now)
                (changes_actor source (last_sync_of "dim_actor" st))
                (dim_actor (working st)) (ticks st)
                ltac:(done) ltac:(done) Hua row Hin Hchanged)
      as (j & src & Hj & Hk & (H1 & H2 & H3) & _).
    exists j, src. repeat split; done.
  - intros i row Hi Hnot.
    by apply (upsert_loop_untouched SakilaCategory.category_id update_category
                insert_category).
  - intros row Hin Hchanged.
    destruct (upsert_loop_last_wins SakilaCategory.category_id update_category
                insert_category wall_clock ltac:(done) ltac:(done)
                (fun src now row =>
                   DimCategory.name row = SakilaCategory.name src /\
                   DimCategory.last_update row = now)
                (changes_category source (last_sync_of "dim_category" st))
                (dim_category (working st)) (ticks st)
                ltac:(done) ltac:(done) Huc row Hin Hchanged)
      as (j & src & Hj & Hk & (H1 & H2) & _).
    exists j, src. repeat split; done.
Qed.

(** X12. After [sync_fact_payment] on a table with unique natural keys, a
    payment fact whose id is not among the extracted changes is where and
    what it was; a fact whose id is among them carries the payment date key,
    the amount as a float, and the customer and store keys that the key maps
    read at the start of the run give for an extracted change with that id;
    and an update never changes the fact key, the payment id or the staff
    id. *)
Theorem payment_rows_after_sync (source : SourceDB) (st : St) :
  natural_keys_unique (keys_of (fact_payment (working st))) ->
  let changes := changes_payment source (last_sync_of "fact_payment" st) in
  let old := fact_payment (working st) in
  let new := fact_payment (working (sync_fact_payment wall_clock source st)) in
  (forall i row, old !! i = Some row ->
     FactPayment.payment_id row
       ∉ (fun '(p, _) => SakilaPayment.payment_id p) <$> changes ->
     new !! i = Some row) /\
  (forall row, row ∈ new ->
     FactPayment.payment_id row
       ∈ (fun '(p, _) => SakilaPayment.payment_id p) <$> changes ->
     exists j p_obj store_id,
       changes !! j = Some (p_obj, store_id) /\
       SakilaPayment.payment_id p_obj = FactPayment.payment_id row /\
       FactPayment.date_key_paid row
       = generate_date_key (Some (SakilaPayment.payment_date p_obj)) /\
       FactPayment.amount row = float_of_decimal (SakilaPayment.amount p_obj) /\
       FactPayment.customer_key row
       = get_surrogate_key_map (dim_customer (working st))
           !! SakilaPayment.customer_id p_obj /\
       FactPayment.store_key row
       = get_surrogate_key_map (dim_store (working st)) !! store_id /\
       FactPayment.last_update row = wall_clock (ticks st + j)) /\
  (forall i row row', old !! i = Some row -> new !! i = Some row' ->
     FactPayment.fact_payment_key row' = FactPayment.fact_payment_key row /\
     FactPayment.payment_id row' = FactPayment.payment_id row /\
     FactPayment.staff_id row' = FactPayment.staff_id row).
Proof.
  intros Hu. cbv zeta. rewrite sync_fact_payment_rows.
  set (cust_map := get_surrogate_key_map (dim_customer (working st))).
  set (store_map := get_surrogate_key_map (dim_store (working st))).
  split; [|split].
  - intros i row Hi Hnot.
    by apply (upsert_loop_untouched
                (fun '(p_obj, _) => SakilaPayment.payment_id p_obj)
                (update_payment cust_map store_map)
                (insert_payment cust_map store_map)).
  - intros row Hin Hchanged.
    destruct (upsert_loop_last_wins
                (fun '(p_obj, _) => SakilaPayment.payment_id p_obj)
                (update_payment cust_map store_map)
                (insert_payment cust_map store_map)
                wall_clock ltac:(by intros [p s] now r)
                ltac:(by intros [p s] now k)
                (fun '(p_obj, store_id) now row =>
                   FactPayment.date_key_paid row
                   = generate_date_key (Some (SakilaPayment.payment_date p_obj)) /\
                   FactPayment.amount row
                   = float_of_decimal (SakilaPayment.amount p_obj) /\
                   FactPayment.customer_key row
                   = cust_map !! SakilaPayment.customer_id p_obj /\
                   FactPayment.store_key row = store_map !! store_id /\
                   FactPayment.last_update row = now)
                (changes_payment source (last_sync_of "fact_payment" st))
                (fact_payment (working st)) (ticks st)
                ltac:(by intros [p s] now r)
                ltac:(by intros [p s] now k) Hu row Hin Hchanged)
      as (j & [p s] & Hj & Hk & (H1 & H2 & H3 & H4 & H5) & _).
    exists j, p, s. repeat split; done.
  - intros i row row' Hi Hi'.
    destruct (upsert_loop_pointwise
                (fun '(p_obj, _) => SakilaPayment.payment_id p_obj)
                (update_payment cust_map store_map)
                (insert_payment cust_map store_map) wall_clock
                (fun a b =>
                   FactPayment.fact_payment_key b = FactPayment.fact_payment_key a /\
                   FactPayment.payment_id b = FactPayment.payment_id a /\
                   FactPayment.staff_id b = FactPayment.staff_id a)
                (fun _ => True)
                (changes_payment source (last_sync_of "fact_payment" st))
                (fact_payment (working st)) (ticks st)) as [_ Hpoint].
    + done.
    + by intros [p s] now a b.
    + done.
    + done.
    + specialize (Hpoint i row' Hi'). by rewrite Hi in Hpoint.
Qed.

(** X11. After [sync_fact_rental] on a table with unique natural keys, a
    rental fact whose id is not among the extracted changes is where and what
    it was, and a fact whose id is among them carries the return date key and
    the duration computed from an extracted change with that id (no key and 0
    for a rental not returned) and the clock reading taken for it. *)
Theorem rental_rows_after_sync (source : SourceDB) (st : St) :
  natural_keys_unique (keys_of (fact_rental (working st))) ->
  let changes := changes_rental source (last_sync_of "fact_rental" st) in
  let old := fact_rental (working st) in
  let new := fact_rental (working (sync_fact_rental wall_clock source st)) in
  (forall i row, old !! i = Some row ->
     FactRental.rental_id row
       ∉ (fun '(r, _) => SakilaRental.rental_id r) <$> changes ->
     new !! i = Some row) /\
  (forall row, row ∈ new ->
     FactRental.rental_id row
       ∈ (fun '(r, _) => SakilaRental.rental_id r) <$> changes ->
     exists j r_obj film_id,
       changes !! j = Some (r_obj, film_id) /\
       SakilaRental.rental_id r_obj = FactRental.rental_id row /\
       FactRental.date_key_returned row
       = generate_date_key (SakilaRental.return_date r_obj) /\
       FactRental.rental_duration_days row = rental_duration r_obj /\
       (SakilaRental.return_date r_obj = None ->
        FactRental.date_key_returned row = None /\
        FactRental.rental_duration_days row = 0) /\
       FactRental.last_update row = wall_clock (ticks st + j)).
Proof.
  intros Hu. cbv zeta. rewrite sync_fact_rental_rows.
  set (film_map := get_surrogate_key_map (dim_film (working st))).
  set (cust_map := get_surrogate_key_map (dim_customer (working st))).
  split.
  - intros i row Hi Hnot.
    by apply (upsert_loop_untouched
                (fun '(r_obj, _) => SakilaRental.rental_id r_obj)
                update_rental (insert_rental film_map cust_map)).
  - intros row Hin Hchanged.
    destruct (upsert_loop_last_wins
                (fun '(r_obj, _) => SakilaRental.rental_id r_obj)
                update_rental (insert_rental film_map cust_map)
                wall_clock ltac:(by intros [r f] now x)
                ltac:(by intros [r f] now k)
                (fun '(r_obj, film_id) now row =>
                   FactRental.date_key_returned row
                   = generate_date_key (SakilaRental.return_date r_obj) /\
                   FactRental.rental_duration_days row = rental_duration r_obj /\
                   FactRental.last_update row = now)
                (changes_rental source (last_sync_of "fact_rental" st))
                (fact_rental (working st)) (ticks st)
                ltac:(by intros [r f] now x)
                ltac:(by intros [r f] now k) Hu row Hin Hchanged)
      as (j & [r f] & Hj & Hk & (H1 & H2 & H3) & _).
    exists j, r, f. split; [done|]. split; [done|]. split; [done|].
    split; [done|]. split; [|done].
    intros Hnone. rewrite H1, H2. unfold rental_duration. by rewrite Hnone.
Qed.

(** X23. In every store that synchronizer runs, loads, calendar generation
    and validation can produce from the empty store, nothing is pending,
    every synchronized table has unique natural keys and distinct positive
    surrogate keys, and the key map of a dimension sends the natural key of
    each row to the surrogate key of that row, a key that the truthiness
    test of the bridge rebuild accepts. *)
Theorem reachable_stores_resolve_keys (st : St) :
  reachable wall_clock st ->
  committed st = working st /\
  (forall t,
     NoDup (table_keys t (committed st)).*1 /\
     NoDup (table_keys t (committed st)).*2 /\
     Forall (fun s => 0 < s) (table_keys t (committed st)).*2) /\
  (forall row, row ∈ dim_film (committed st) ->
     get_surrogate_key_map (dim_film (committed st)) !! DimFilm.film_id row
     = Some (DimFilm.film_key row) /\
     truthy (Some (DimFilm.film_key row)) = true) /\
  (forall row, row ∈ dim_actor (committed st) ->
     get_surrogate_key_map (dim_actor (committed st)) !! DimActor.actor_id row
     = Some (DimActor.actor_key row) /\
     truthy (Some (DimActor.actor_key row)) = true) /\
  (forall row, row ∈ dim_category (committed st) ->
     get_surrogate_key_map (dim_category (committed st))
       !! DimCategory.category_id row
     = Some (DimCategory.category_key row) /\
     truthy (Some (DimCategory.category_key row)) = true) /\
  (forall row, row ∈ dim_customer (committed st) ->
     get_surrogate_key_map (dim_customer (committed st))
       !! DimCustomer.customer_id row
     = Some (DimCustomer.customer_key row)) /\
  (forall row, row ∈ dim_store (committed st) ->
     get_surrogate_key_map (dim_store (committed st)) !! DimStore.store_id row
     = Some (DimStore.store_key row)).
Proof.
  intros Hreach. destruct (reachable_store_ok wall_clock st Hreach) as [Hc Hok].
  rewrite Hc. split; [done|]. split; [intros t; apply Hok|].
  assert (forall (R : Type) `(TargetRow R) (tbl : list R) (row : R),
            keys_ok (keys_of tbl) -> row ∈ tbl ->
            get_surrogate_key_map tbl !! natural_key row
            = Some (surrogate_key row) /\
            truthy (Some (surrogate_key row)) = true) as Hrow.
  { intros R ? tbl row (Hu & _ & Hpos) Hin.
    destruct (key_map_covers tbl row Hin) as [s Hs]. rewrite Hs.
    destruct (key_map_lookup_row tbl _ _ Hs) as (row' & Hin' & Hk & <-).
    assert (surrogate_key row' = surrogate_key row) as ->.
    { eapply (unique_key_functional (keys_of tbl)); [exact Hu| |].
      - unfold keys_of. apply list_elem_of_fmap. exists row'. by rewrite Hk.
      - unfold keys_of. apply list_elem_of_fmap. by exists row. }
    split; [done|]. simpl. apply negb_true_iff, Z.eqb_neq.
    rewrite Forall_forall in Hpos.
    assert (0 < surrogate_key row); [|lia]. apply Hpos.
    unfold keys_of. rewrite <- list_fmap_compose.
    apply list_elem_of_fmap. by exists row. }
  split; [intros row Hin; apply (Hrow _ _ (dim_film (working st)) row (Hok T_dim_film) Hin)|].
  split; [intros row Hin; apply (Hrow _ _ (dim_actor (working st)) row (Hok T_dim_actor) Hin)|].
  split; [intros row Hin; apply (Hrow _ _ (dim_category (working st)) row (Hok T_dim_category) Hin)|].
  split; [intros row Hin; apply (Hrow _ _ (dim_customer (working st)) row (Hok T_dim_customer) Hin)|].
  intros row Hin; apply (Hrow _ _ (dim_store (working st)) row (Hok T_dim_store) Hin).
Qed.

End MoreRows.

(** ** Whole loads *)

Lemma upsert_keys_cover (ks : list Z) (keys : list (Z * Z)) (k : Z) :
  k ∈ ks -> k ∈ (foldl (fun keys k => upsert_key k keys) keys ks).*1.
Proof.
  revert keys. induction ks as [|k0 ks IH]; intros keys Hin; [by apply elem_of_nil in Hin|].
  simpl. apply elem_of_cons in Hin as [-> | Hin]; [|by apply IH].
  destruct (upsert_keys_prefix ks (upsert_key k0 keys)) as [added ->].
  rewrite fmap_app. apply elem_of_app. left. apply upsert_key_covers.
Qed.

Lemma next_key_numbered (ks : list Z) :
  next_key (imap (fun i k => (k, Z.of_nat i + 1)) ks) = Z.of_nat (length ks) + 1.
Proof.
  unfold next_key.
  assert (forall (l : list Z) (off : nat) (k0 : Z),
            foldr Z.max k0
              (imap (fun i k => (k, Z.of_nat (off + i) + 1)) l).*2
            = Z.max k0 (match l with
                        | [] => k0
                        | _ => Z.of_nat (off + length l)
                        end)) as Hmax.
  { induction l as [|x l IH]; intros off k0.
    - simpl. lia.
    - simpl. rewrite (imap_ext _ (fun i k => (k, Z.of_nat (S off + i) + 1)))
        by (intros; simpl; do 2 f_equal; lia).
      rewrite IH. destruct l; simpl; lia. }
  destruct ks as [|k ks]; [done|]. simpl.
  rewrite (imap_ext _ (fun i k => (k, Z.of_nat (1 + i) + 1)))
    by (intros; simpl; do 2 f_equal; lia).
  rewrite Hmax. destruct ks; simpl; lia.
Qed.

(** Upserting distinct keys into an empty table numbers them 1, 2, ... *)
Lemma upsert_keys_from_empty (ks : list Z) :
  NoDup ks ->
  foldl (fun keys k => upsert_key k keys) [] ks
  = imap (fun i k => (k, Z.of_nat i + 1)) ks.
Proof.
  induction ks as [|k ks IH] using rev_ind; intros Hnd; [done|].
  apply NoDup_app in Hnd as (Hnd & Hnot & _).
  rewrite foldl_app, IH by done. simpl. unfold upsert_key.
  rewrite decide_False.
  - rewrite imap_app. simpl. rewrite next_key_numbered. do 3 f_equal. lia.
  - intros Hin. apply (Hnot k); [|by apply list_elem_of_singleton].
    apply list_elem_of_fmap in Hin as ([k' s] & -> & Hin).
    apply list_elem_of_lookup in Hin as [i Hi].
    rewrite list_lookup_imap in Hi.
    destruct (ks !! i) eqn:Hk; simplify_eq/=. by eapply list_elem_of_lookup_2.
Qed.

Lemma run_cons (step : St -> St) (steps : list (St -> St)) (st : St) :
  run (step :: steps) st = run steps (step st).
Proof. done. Qed.

Section Runs.
Variable wall_clock : nat -> datetime.t.
Variable source : SourceDB.

Lemma sync_table_fixed_tables (t : Table) (st : St) :
  dim_date (working (sync_table wall_clock t source st)) = dim_date (working st) /\
  bridge_film_actor (working (sync_table wall_clock t source st))
  = bridge_film_actor (working st) /\
  bridge_film_category (working (sync_table wall_clock t source st))
  = bridge_film_category (working st).
Proof.
  pose proof (sync_table_shape wall_clock t source st) as Hshape.
  cbv zeta in Hshape.
  destruct (changed_keys t source (last_sync_of (table_name t) st)).
  - by rewrite Hshape.
  - destruct Hshape as (mid & _ & (H1 & H2 & H3 & _) & _ & _ & _ & ->).
    unfold finish_sync. simpl. by rewrite H1, H2, H3.
Qed.

Lemma run_sync_tables_fixed_tables (tables : list Table) (st : St) :
  let st' := run ((fun t => sync_table wall_clock t source) <$> tables) st in
  dim_date (working st') = dim_date (working st) /\
  bridge_film_actor (working st') = bridge_film_actor (working st) /\
  bridge_film_category (working st') = bridge_film_category (working st).
Proof.
  revert st. induction tables as [|t tables IH]; intros st; [done|].
  cbv zeta. rewrite fmap_cons, run_cons.
  destruct (IH (sync_table wall_clock t source st)) as (-> & -> & ->).
  apply sync_table_fixed_tables.
Qed.

(** Each table is synchronized against its own watermark, whatever the other
    synchronizers of the run do. *)
Lemma run_sync_tables_keys (tables : list Table) (st : St) (t : Table) :
  NoDup tables ->
  let st' := run ((fun t => sync_table wall_clock t source) <$> tables) st in
  let ks := changed_keys t source (last_sync_of (table_name t) st) in
  if decide (t ∈ tables) then
    table_keys t (working st')
    = foldl (fun keys k => upsert_key k keys) (table_keys t (working st)) ks /\
    (ks = [] -> sync_state (working st') !! table_name t
                = sync_state (working st) !! table_name t) /\
    (ks <> [] -> is_Some (sync_state (working st') !! table_name t))
  else
    table_keys t (working st') = table_keys t (working st) /\
    sync_state (working st') !! table_name t
    = sync_state (working st) !! table_name t.
Proof.
  intros Hnd. revert st. induction Hnd as [|t0 tables Hnot Hnd IH]; intros st.
  - cbv zeta. rewrite decide_False by apply not_elem_of_nil. done.
  - cbv zeta. rewrite fmap_cons, run_cons.
    specialize (IH (sync_table wall_clock t0 source st)). cbv zeta in IH.
    destruct (decide (t = t0)) as [-> | Hne].
    + rewrite decide_True by (by left).
      rewrite decide_False in IH by done. destruct IH as [-> ->].
      rewrite sync_table_keys, decide_True by done. split; [done|].
      rewrite sync_table_sync_state.
      destruct (changed_keys t0 source (last_sync_of (table_name t0) st)).
      * done.
      * split; [done|]. intros _. rewrite lookup_insert_eq. by eexists.
    + assert (sync_state (working (sync_table wall_clock t0 source st))
                !! table_name t = sync_state (working st) !! table_name t)
        as Hwm.
      { rewrite sync_table_sync_state.
        destruct (changed_keys t0 source _); [done|].
        rewrite lookup_insert_ne; [done|]. intros Heq.
        by apply table_name_inj in Heq. }
      rewrite (sync_table_other_watermark wall_clock source t0 t st Hne) in IH.
      rewrite sync_table_keys in IH.
      destruct (decide (t = t0)) as [?|_]; [done|].
      rewrite Hwm in IH.
      destruct (decide (t ∈ tables)) as [Hin | Hout].
      * rewrite decide_True by (by right). exact IH.
      * rewrite decide_False; [exact IH|].
        intros [? | ?]%elem_of_cons; done.
Qed.

Lemma all_tables_NoDup : NoDup all_tables.
Proof.
  unfold all_tables.
  repeat (apply NoDup_cons; split;
          [rewrite ?elem_of_cons, elem_of_nil; intros Hin;
           repeat destruct Hin as [Hin|Hin]; done|]).
  apply NoDup_nil_2.
Qed.

End Runs.

Section Loads.
Variable wall_clock : nat -> datetime.t.
Variable source : SourceDB.

(** X14. An incremental load leaves nothing pending and, on each of the
    seven synchronized tables, is the key-level upsert of the rows extracted
    against the watermark the table had before the load, whether or not the
    bridge rebuild at its end fails: no row is deleted, every extracted
    natural key has a row afterwards, the watermark is left alone when nothing
    was extracted and is set otherwise, and the calendar is untouched. *)
Theorem incremental_load_upserts_every_table (st : St) (t : Table) :
  let st' := incremental_load wall_clock source st in
  let ks :=
    changed_keys t source (last_sync_of (table_name t) (get_target_session st)) in
  committed st' = working st' /\
  table_keys t (committed st')
  = foldl (fun keys k => upsert_key k keys) (table_keys t (committed st)) ks /\
  (exists added,
     table_keys t (committed st') = table_keys t (committed st) ++ added) /\
  (forall k, k ∈ ks -> k ∈ (table_keys t (committed st')).*1) /\
  (ks = [] -> sync_state (committed st') !! table_name t
              = sync_state (committed st) !! table_name t) /\
  (ks <> [] -> is_Some (sync_state (committed st') !! table_name t)) /\
  dim_date (committed st') = dim_date (committed st).
Proof.
  cbv zeta.
  destruct (incremental_load_bridges wall_clock source st) as [Hc Hw].
  cbv zeta in Hc, Hw. rewrite Hc, Hw.
  set (s0 := print StartingIncrementalLoad (get_target_session st)) in *.
  pose proof (run_sync_tables_keys wall_clock source all_tables s0 t
                all_tables_NoDup) as Hrun.
  cbv zeta in Hrun. rewrite decide_True in Hrun by apply all_tables_complete.
  destruct Hrun as (Hkeys & Hsame & Hsome).
  destruct (run_sync_tables_fixed_tables wall_clock source all_tables s0)
    as (Hdate & _ & _).
  set (s7 := run _ s0) in *.
  change (working s0) with (committed st) in *.
  change (last_sync_of (table_name t) s0)
    with (last_sync_of (table_name t) (get_target_session st)) in *.
  rewrite table_keys_rebuild_bridges, rebuild_bridges_sync_state, Hkeys.
  split; [done|]. split; [done|]. split; [apply upsert_keys_prefix|].
  split; [intros k Hk; by apply upsert_keys_cover|].
  split; [done|]. split; [done|].
  rewrite <- Hdate. unfold rebuild_bridges.
  by destruct (bool_decide _ && bool_decide _).
Qed.


Lemma clear_steps_result (st : St) :
  let st' := run clear_steps st in
  (forall t, table_keys t (working st') = []) /\
  sync_state (working st') = ∅ /\
  dim_date (working st') = dim_date (working st) /\
  bridge_film_actor (working st') = bridge_film_actor (working st) /\
  bridge_film_category (working st') = bridge_film_category (working st) /\
  committed st' = working st'.
Proof. cbv zeta. split; [by intros []|done]. Qed.

(** X16. A full load leaves nothing pending and rebuilds each of the seven
    synchronized tables from the source alone: its keys are the upsert of the
    rows extracted since [datetime.min] into an empty table, whatever the
    table held before; when the extracted natural keys are distinct the rows
    get the surrogate keys 1, 2, ... in extraction order; a table has no
    watermark afterwards exactly when nothing was extracted for it; and the
    calendar is untouched. *)
Theorem full_load_numbers_rows_from_one (st : St) (t : Table) :
  let st' := full_load wall_clock source st in
  let ks := changed_keys t source datetime_min in
  committed st' = working st' /\
  table_keys t (committed st') = foldl (fun keys k => upsert_key k keys) [] ks /\
  (NoDup ks ->
   table_keys t (committed st') = imap (fun i k => (k, Z.of_nat i + 1)) ks) /\
  (sync_state (committed st') !! table_name t = None <-> ks = []) /\
  dim_date (committed st') = dim_date (committed st).
Proof.
  cbv zeta.
  destruct (full_load_bridges wall_clock source st) as [Hc Hw].
  cbv zeta in Hc, Hw. rewrite Hc, Hw.
  set (start := print ClearingExistingData _) in *.
  destruct (clear_steps_result start) as (Hk0 & Hs0 & Hd0 & _ & _ & _).
  cbv zeta in Hk0, Hs0, Hd0.
  set (cleared := print DataCleared (run clear_steps start)) in *.
  change (working (run clear_steps start)) with (working cleared) in *.
  change (dim_date (working start)) with (dim_date (committed st)) in *.
  pose proof (run_sync_tables_keys wall_clock source all_tables cleared t
                all_tables_NoDup) as Hrun.
  cbv zeta in Hrun. rewrite decide_True in Hrun by apply all_tables_complete.
  destruct Hrun as (Hkeys & Hsame & Hsome).
  destruct (run_sync_tables_fixed_tables wall_clock source all_tables cleared)
    as (Hdate & _ & _).
  set (s7 := run _ cleared) in *.
  assert (last_sync_of (table_name t) cleared = datetime_min) as Hmin.
  { unfold last_sync_of. by rewrite Hs0, lookup_empty. }
  rewrite Hmin, Hk0, Hs0, lookup_empty in *.
  rewrite table_keys_rebuild_bridges, rebuild_bridges_sync_state, Hkeys.
  split; [done|]. split; [done|].
  split; [apply upsert_keys_from_empty|].
  split.
  - split.
    + intros Hnone. destruct (changed_keys t source datetime_min); [done|].
      destruct Hsome as [? Hsome]; [done|]. by rewrite Hsome in Hnone.
    + apply Hsame.
  - rewrite <- Hd0, <- Hdate. unfold rebuild_bridges.
    by destruct (bool_decide _ && bool_decide _).
Qed.

(** X18. When [sync_bridge_tables] returns, running it again on the result
    returns and changes nothing, and the tables it leaves do not depend on
    the rows the bridge tables held before. *)
Theorem bridge_rebuild_is_idempotent (st st1 : St) :
  sync_bridge_tables source st = Returned st1 ->
  (exists st2,
     sync_bridge_tables source st1 = Returned st2 /\
     working st2 = working st1 /\ committed st2 = committed st1) /\
  forall fa fc,
    exists st1',
      sync_bridge_tables source
        (with_working
           (with_bridge_film_category fc
              (with_bridge_film_actor fa (working st))) st)
      = Returned st1' /\
      working st1' = working st1.
Proof.
  rewrite sync_bridge_tables_closed_form. cbv zeta.
  destruct (bool_decide _ && bool_decide _) eqn:Hnd; [|done].
  intros [= <-]. split.
  - rewrite sync_bridge_tables_closed_form. cbv zeta. simpl.
    rewrite Hnd. eexists. split; [done|]. by destruct (working st).
  - intros fa fc. rewrite sync_bridge_tables_closed_form. cbv zeta. simpl.
    rewrite Hnd. eexists. split; [done|]. by destruct (working st).
Qed.

Lemma full_load_unfold (st : St) :
  full_load wall_clock source st
  = close
      match sync_bridge_tables source
              (run ((fun t => sync_table wall_clock t source) <$> all_tables)
                 (print DataCleared
                    (run clear_steps
                       (print ClearingExistingData
                          (snd (now wall_clock (get_target_session st))))))) with
      | Returned t => print FullLoadCompleted (commit t)
      | Raised _ t => print ErrorDuringFullLoad (rollback t)
      end.
Proof. done. Qed.

(** X17. After a full load the two bridge tables are either both rebuilt
    from the link rows of the source and the freshly loaded dimension tables,
    and the console ends with the completion line, or, when two link rows
    resolve to the same pair of surrogate keys, both hold the rows they held
    before the load, which the clearing phase does not delete, and the
    console ends with the error line. *)
Theorem full_load_bridges_all_or_nothing (st : St) :
  let st' := full_load wall_clock source st in
  let db := committed st' in
  let batch_fa :=
    omap (film_actor_row (get_surrogate_key_map (dim_film db))
            (get_surrogate_key_map (dim_actor db))) (src_film_actor source) in
  let batch_fc :=
    omap (film_category_row (get_surrogate_key_map (dim_film db))
            (get_surrogate_key_map (dim_category db)))
      (src_film_category source) in
  if bool_decide (NoDup batch_fa) && bool_decide (NoDup batch_fc) then
    bridge_film_actor db = batch_fa /\ bridge_film_category db = batch_fc /\
    last (stdout st') = Some FullLoadCompleted
  else
    bridge_film_actor db = bridge_film_actor (committed st) /\
    bridge_film_category db = bridge_film_category (committed st) /\
    last (stdout st') = Some ErrorDuringFullLoad.
Proof.
  cbv zeta.
  destruct (full_load_bridges wall_clock source st) as [Hc _].
  cbv zeta in Hc. rewrite Hc.
  rewrite full_load_unfold.
  set (start := print ClearingExistingData _) in *.
  destruct (clear_steps_result start) as (_ & _ & _ & Hfa0 & Hfc0 & _).
  cbv zeta in Hfa0, Hfc0.
  set (cleared := print DataCleared (run clear_steps start)) in *.
  change (working (run clear_steps start)) with (working cleared) in *.
  change (working start) with (committed st) in *.
  destruct (run_sync_tables_fixed_tables wall_clock source all_tables cleared)
    as (_ & Hfa & Hfc).
  set (s7 := run _ cleared) in *.
  rewrite sync_bridge_tables_closed_form. cbv zeta.
  assert (dim_film (rebuild_bridges source (working s7)) = dim_film (working s7)
          /\ dim_actor (rebuild_bridges source (working s7))
             = dim_actor (working s7)
          /\ dim_category (rebuild_bridges source (working s7))
             = dim_category (working s7)) as (-> & -> & ->).
  { unfold rebuild_bridges. by destruct (bool_decide _ && bool_decide _). }
  unfold rebuild_bridges.
  destruct (bool_decide _ && bool_decide _).
  - split; [done|]. split; [done|].
    unfold close, rollback, print, commit. simpl. by rewrite last_snoc.
  - rewrite Hfa, Hfc, Hfa0, Hfc0. split; [done|]. split; [done|].
    unfold close, rollback, print. simpl. by rewrite last_snoc.
Qed.

End Loads.

(** ** Calendar generation at its edges *)

Lemma last_day_valid : valid_date last_day.
Proof. unfold valid_date, last_day, MINYEAR, MAXYEAR, _days_in_month. simpl. lia. Qed.

Lemma day_rank_last_day (d : date.t) :
  valid_date d -> day_rank d <= day_rank last_day.
Proof.
  destruct d as [y m dd]. unfold valid_date, MINYEAR, MAXYEAR. simpl.
  intros (Hy & Hm & Hd). pose proof (days_in_month_bounds y m).
  unfold day_rank, last_day, MAXYEAR. simpl. lia.
Qed.

(** Every valid day but 9999-12-31 has a next day. *)
Lemma next_day_before_last (d : date.t) :
  valid_date d -> d <> last_day ->
  exists d', next_day d = Some d' /\ valid_date d' /\ day_rank d < day_rank d'.
Proof.
  intros Hv Hne. destruct (decide (date.year d < MAXYEAR)) as [Hlt | Hge].
  - destruct (next_day_valid d Hv Hlt) as (d' & ? & ? & ? & _). by exists d'.
  - destruct d as [y m dd]. unfold valid_date, MINYEAR, MAXYEAR in *.
    simpl in *. destruct Hv as (Hy & Hm & Hd).
    assert (y = 9999) as -> by lia.
    pose proof (days_in_month_bounds 9999 m).
    destruct (dd <? _days_in_month 9999 m) eqn:Hdd.
    + apply Z.ltb_lt in Hdd. eexists. split; [reflexivity|].
      unfold day_rank. simpl. repeat split; lia.
    + apply Z.ltb_ge in Hdd. destruct (m <? 12) eqn:Hm12.
      * apply Z.ltb_lt in Hm12. eexists. split; [reflexivity|].
        pose proof (days_in_month_bounds 9999 (m + 1)).
        unfold day_rank. simpl. repeat split; lia.
      * apply Z.ltb_ge in Hm12. assert (m = 12) as -> by lia.
        exfalso. apply Hne. unfold last_day, MAXYEAR. f_equal.
        unfold _days_in_month in *. simpl in *. lia.
Qed.

(** The loop towards 9999-12-31 overflows on the last day; the batches of a
    thousand rows flushed before stay, the rows of the last batch are lost. *)
Lemma load_dim_date_loop_overflows (fuel : nat) (keys : gset Z)
    (cur : date.t) (batch : list DimDate.t) (st : St) :
  valid_date cur ->
  Z.of_nat fuel > day_rank last_day - day_rank cur ->
  (length batch < 1000)%nat ->
  exists st' rows lost,
    load_dim_date_loop (Datatypes.S fuel) keys last_day cur batch st
    = LoopRaised OverflowError st' /\
    working st' = with_dim_date (dim_date (working st) ++ rows) (working st) /\
    rows ++ lost = batch ++ new_rows keys (days_visited fuel last_day cur) /\
    (length lost <= 1000)%nat /\
    Z.of_nat (length rows) mod 1000 = 0 /\
    ticks st' = ticks st /\ stdout st' = stdout st /\
    (rows = [] /\ committed st' = committed st \/ committed st' = working st').
Proof.
  revert cur batch st.
  induction fuel as [|fuel IH]; intros cur batch st Hcur Hfuel Hlen.
  - pose proof (day_rank_last_day cur Hcur). lia.
  - rewrite load_dim_date_loop_unfold. cbn [days_visited].
    assert (date_leb cur last_day = true) as ->.
    { apply date_leb_rank; [done|apply last_day_valid|].
      by apply day_rank_last_day. }
    cbv zeta. rewrite new_rows_cons.
    set (batch1 := if decide (int (strftime_Ymd cur) ∈ keys) then batch
                   else batch ++ [make_dim_date cur]).
    assert (batch1 = batch ++ (if decide (int (strftime_Ymd cur) ∈ keys)
                               then [] else [make_dim_date cur])) as Hb1.
    { unfold batch1. destruct (decide _); [by rewrite app_nil_r|done]. }
    assert (length batch1 <= 1000)%nat as Hlen1.
    { rewrite Hb1, length_app. destruct (decide _); simpl; lia. }
    destruct (decide (day_rank cur = day_rank last_day)) as [Heq | Hne].
    + apply day_rank_inj in Heq as ->; [|done|apply last_day_valid].
      change (next_day last_day) with (@None date.t). cbv iota.
      exists st, [], batch1. split; [done|].
      split; [by rewrite app_nil_r, with_dim_date_same|].
      split; [by rewrite Hb1, app_nil_r|]. split; [done|].
      split; [done|]. split; [done|]. split; [done|]. by left.
    + destruct (next_day_before_last cur Hcur ltac:(by intros ->))
        as (d' & -> & Hd' & Hlt).
      destruct (1000 <=? Z.of_nat (length batch1)) eqn:Hflush.
      * apply Z.leb_le in Hflush.
        destruct (IH d' [] (commit (add_all_dim_date batch1 st)) Hd'
                    ltac:(lia) ltac:(simpl; lia))
          as (st' & rows & lost & -> & Hw & Hrows & Hlost & Hmod & Ht
              & Hout & Hcom).
        exists st', (batch1 ++ rows), lost. split; [done|].
        split; [rewrite Hw; simpl; by rewrite with_dim_date_twice, app_assoc|].
        split; [rewrite <- !app_assoc, Hrows, Hb1; simpl;
                by rewrite <- app_assoc|].
        split; [done|].
        split.
        { rewrite length_app, Nat2Z.inj_add.
          assert (Z.of_nat (length batch1) = 1000) as -> by lia.
          Z.div_mod_to_equations. lia. }
        split; [done|]. split; [done|].
        right. destruct Hcom as [[-> Hcom] | Hcom]; [|done].
        rewrite Hcom, Hw. simpl. by rewrite app_nil_r, with_dim_date_twice.
      * apply Z.leb_gt in Hflush.
        destruct (IH d' batch1 st Hd' ltac:(lia) ltac:(lia))
          as (st' & rows & lost & -> & Hw & Hrows & Hlost & Hmod & Ht
              & Hout & Hcom).
        exists st', rows, lost. split; [done|]. split; [done|].
        split; [by rewrite Hrows, Hb1, <- app_assoc|]. done.
Qed.

(** The visited days are counted by their ordinals. *)
Lemma days_visited_length (fuel : nat) (end_date cur : date.t) :
  valid_date cur -> valid_date end_date -> date.year end_date < MAXYEAR ->
  Z.of_nat fuel > day_rank end_date - day_rank cur ->
  day_rank cur <= day_rank end_date ->
  Z.of_nat (length (days_visited fuel end_date cur))
  = toordinal end_date - toordinal cur + 1.
Proof.
  intros Hcur Hend Hmax. revert cur Hcur.
  induction fuel as [|fuel IH]; intros cur Hcur Hfuel Hle; [lia|].
  cbn [days_visited].
  assert (date_leb cur end_date = true) as -> by (by apply date_leb_rank).
  pose proof (day_rank_year cur end_date Hcur Hend Hle) as Hyear.
  destruct (next_day_valid cur Hcur ltac:(lia))
    as (d' & Hnext & Hd' & Hlt & _ & Hleast).
  rewrite Hnext. cbn [length]. rewrite Nat2Z.inj_succ.
  pose proof (next_day_toordinal cur d' Hcur Hnext) as Hord.
  destruct (decide (day_rank d' <= day_rank end_date)) as [Hin | Hout].
  - rewrite IH by (done || lia). lia.
  - assert (cur = end_date) as ->.
    { apply day_rank_inj; [done|done|].
      destruct (decide (day_rank cur = day_rank end_date)); [done|].
      specialize (Hleast end_date Hend). lia. }
    assert (days_visited fuel end_date d' = []) as ->.
    { destruct fuel; [done|]. cbn [days_visited].
      destruct (date_leb d' end_date) eqn:Hleb; [|done].
      apply date_leb_rank in Hleb; [lia|done|done]. }
    simpl. lia.
Qed.

Lemma calendar_days_length (start_year end_year : Z) :
  MINYEAR <= start_year <= end_year -> end_year < MAXYEAR ->
  Z.of_nat (length (calendar_days start_year end_year))
  = _days_before_year (end_year + 1) - _days_before_year start_year.
Proof.
  unfold MINYEAR, MAXYEAR. intros Hs He. unfold calendar_days.
  rewrite days_visited_length.
  - unfold toordinal. simpl. rewrite days_before_next_year.
    unfold _days_before_month, _DAYS_BEFORE_MONTH. simpl.
    destruct (_is_leap end_year); simpl; lia.
  - unfold valid_date, _days_in_month, MINYEAR, MAXYEAR; simpl; lia.
  - unfold valid_date, _days_in_month, MINYEAR, MAXYEAR; simpl; lia.
  - unfold MAXYEAR. simpl. lia.
  - unfold day_rank. simpl. lia.
  - unfold day_rank. simpl. lia.
Qed.

(** X19. When the years do not form a range within 1..9999,
    [load_dim_date] writes nothing: with a year outside 1..9999 it raises
    [ValueError] after its first line, and with a start year after the end
    year it returns after printing both of its lines. *)
Theorem load_dim_date_adds_nothing_without_a_range (st : St)
    (start_year end_year : Z) :
  ~ (MINYEAR <= start_year <= end_year /\ end_year <= MAXYEAR) ->
  load_dim_date st start_year end_year
  = Some
      (if year_in_range start_year && year_in_range end_year
       then Returned (print DimDateComplete (print GeneratingDimDate st))
       else Raised ValueError (print GeneratingDimDate st)) /\
  (year_in_range start_year && year_in_range end_year = true
   <-> MINYEAR <= start_year <= MAXYEAR /\ MINYEAR <= end_year <= MAXYEAR).
Proof.
  intros Hbad.
  assert (year_in_range start_year && year_in_range end_year = true
          <-> MINYEAR <= start_year <= MAXYEAR /\
              MINYEAR <= end_year <= MAXYEAR) as Hrange.
  { unfold year_in_range. rewrite !andb_true_iff, !Z.leb_le. lia. }
  split; [|done]. unfold load_dim_date. cbv zeta.
  destruct (year_in_range start_year && year_in_range end_year) eqn:Hin;
    [|done].
  destruct Hrange as [Hrange _]. specialize (Hrange eq_refl).
  assert (end_year < start_year) as Hlt by lia.
  replace (Z.to_nat (372 * (end_year - start_year + 1))) with 0%nat by lia.
  rewrite load_dim_date_loop_unfold.
  assert (date_leb (date.mk start_year 1 1) (date.mk end_year 12 31) = false)
    as ->; [|done].
  unfold date_leb, date_ltb. simpl.
  apply negb_false_iff, orb_true_iff. left. by apply Z.ltb_lt.
Qed.

(** X20. With end year 9999 [load_dim_date] never returns normally: the step
    past 9999-12-31 raises [OverflowError] before the completion line is
    printed. The rows written by then are whole batches of a thousand, a
    prefix of the rows of the missing days; the rest, at most a thousand
    rows, is lost. *)
Theorem load_dim_date_overflows_at_max_year (st : St) (start_year : Z) :
  MINYEAR <= start_year <= MAXYEAR ->
  let missing :=
    new_rows (date_keys (dim_date (working st)))
      (calendar_days start_year MAXYEAR) in
  exists st' rows lost,
    load_dim_date st start_year MAXYEAR = Some (Raised OverflowError st') /\
    working st' = with_dim_date (dim_date (working st) ++ rows) (working st) /\
    rows ++ lost = missing /\
    (length lost <= 1000)%nat /\
    Z.of_nat (length rows) mod 1000 = 0 /\
    (rows = [] /\ committed st' = committed st \/ committed st' = working st') /\
    stdout st' = stdout st ++ [GeneratingDimDate].
Proof.
  intros Hs. cbv zeta. unfold load_dim_date. cbv zeta.
  assert (year_in_range start_year && year_in_range MAXYEAR = true) as ->.
  { unfold year_in_range, MINYEAR, MAXYEAR in *.
    rewrite !andb_true_iff, !Z.leb_le. lia. }
  change (dim_date (working (print GeneratingDimDate st)))
    with (dim_date (working st)).
  fold (date_keys (dim_date (working st))). fold last_day.
  destruct (load_dim_date_loop_overflows
              (Z.to_nat (372 * (MAXYEAR - start_year + 1)))
              (date_keys (dim_date (working st)))
              (date.mk start_year 1 1) [] (print GeneratingDimDate st))
    as (st' & rows & lost & -> & Hw & Hrows & Hlost & Hmod & Ht & Hout
        & Hcom).
  { unfold valid_date, _days_in_month, MINYEAR, MAXYEAR in *; simpl; lia. }
  { unfold day_rank, last_day, MINYEAR, MAXYEAR in *. simpl. lia. }
  { simpl. lia. }
  exists st', rows, lost. split; [done|]. split; [done|].
  split; [done|]. split; [done|]. split; [done|]. split; [done|]. done.
Qed.

(** X21. Into an empty calendar table [load_dim_date] writes one row per day
    of the year range in calendar order: as many rows as the proleptic
    Gregorian calendar has days in those years, 365 for a single common year
    and 366 for a leap year. *)
Theorem load_dim_date_fills_an_empty_calendar (st : St)
    (start_year end_year : Z) :
  MINYEAR <= start_year <= end_year -> end_year < MAXYEAR ->
  dim_date (working st) = [] ->
  exists st',
    load_dim_date st start_year end_year = Some (Returned st') /\
    dim_date (working st')
    = make_dim_date <$> calendar_days start_year end_year /\
    Z.of_nat (length (dim_date (working st')))
    = _days_before_year (end_year + 1) - _days_before_year start_year /\
    (start_year = end_year ->
     Z.of_nat (length (dim_date (working st')))
     = if _is_leap start_year then 366 else 365).
Proof.
  intros Hs He Hempty.
  destruct (load_dim_date_result st start_year end_year)
    as (st' & Hload & Hw & _);
    [unfold MINYEAR, MAXYEAR in *; lia|unfold MINYEAR, MAXYEAR in *; lia|].
  cbv zeta in Hw. rewrite Hempty in Hw. simpl in Hw.
  assert (forall days, new_rows (date_keys []) days = make_dim_date <$> days)
    as Hall.
  { induction days as [|d days IH]; [done|].
    rewrite new_rows_cons, IH. destruct (decide _) as [Hin | _]; [|done].
    apply elem_of_date_keys in Hin. by apply elem_of_nil in Hin. }
  rewrite Hall in Hw.
  exists st'. split; [done|]. rewrite Hw. simpl.
  split; [done|]. rewrite length_fmap, calendar_days_length by done.
  split; [done|]. intros <-. rewrite days_before_next_year.
  destruct (_is_leap start_year); lia.
Qed.

Lemma new_rows_keys (tbl : list DimDate.t) (days : list date.t) :
  DimDate.date_key <$> new_rows (date_keys tbl) days
  = filter (fun k => k ∉ DimDate.date_key <$> tbl)
      ((fun d => int (strftime_Ymd d)) <$> days).
Proof.
  induction days as [|d days IH]; [done|].
  rewrite new_rows_cons, fmap_app, IH, fmap_cons, filter_cons.
  destruct (decide (int (strftime_Ymd d) ∈ date_keys tbl)) as [Hd | Hd].
  - rewrite decide_False; [done|]. intros Hnot. apply Hnot.
    by apply elem_of_date_keys.
  - rewrite decide_True; [done|]. intros Hin. apply Hd.
    by apply elem_of_date_keys.
Qed.

(** X22. Once [load_dim_date] has run for a year range, the date key that
    [generate_date_key] gives to any timestamp on a day of those years is the
    key of a calendar row; the key column is the old one followed by the keys
    of the missing days, and it stays free of duplicates. *)
Theorem date_keys_resolve_in_the_calendar (st : St) (start_year end_year : Z)
    (dt : datetime.t) :
  MINYEAR <= start_year <= MAXYEAR -> MINYEAR <= end_year < MAXYEAR ->
  valid_date (datetime.date dt) ->
  start_year <= date.year (datetime.date dt) <= end_year ->
  exists st' k,
    load_dim_date st start_year end_year = Some (Returned st') /\
    generate_date_key (Some dt) = Some k /\
    k ∈ DimDate.date_key <$> dim_date (working st') /\
    (DimDate.date_key <$> dim_date (working st'))
    = (DimDate.date_key <$> dim_date (working st))
      ++ filter (fun k => k ∉ DimDate.date_key <$> dim_date (working st))
           ((fun d => int (strftime_Ymd d))
              <$> calendar_days start_year end_year) /\
    (NoDup (DimDate.date_key <$> dim_date (working st)) ->
     NoDup (DimDate.date_key <$> dim_date (working st'))).
Proof.
  intros Hs He Hv Hyear.
  destruct (load_dim_date_result st start_year end_year Hs He)
    as (st' & Hload & Hw & _).
  destruct (calendar_days_spec start_year end_year Hs He) as [Hnd Hdays].
  cbv zeta in Hw.
  exists st', (int (strftime_Ymd (datetime.date dt))).
  split; [done|]. split; [done|]. rewrite Hw. simpl. rewrite fmap_app.
  rewrite new_rows_keys.
  split; [|split; [done|]].
  - destruct (decide (int (strftime_Ymd (datetime.date dt))
                      ∈ DimDate.date_key <$> dim_date (working st)))
      as [Hold | Hnew].
    + apply elem_of_app. by left.
    + apply elem_of_app. right. apply list_elem_of_filter. split; [done|].
      apply list_elem_of_fmap. exists (datetime.date dt). split; [done|].
      by apply Hdays.
  - intros Hold. apply NoDup_app. split; [done|]. split.
    + intros k Hk [Hnot _]%list_elem_of_filter. done.
    + apply NoDup_filter. apply NoDup_fmap_2_strong; [|done].
      intros d1 d2 [Hv1 _]%Hdays [Hv2 _]%Hdays. by apply date_key_inj.
Qed.

(** ** Facts after dimensions *)

Section FactsAfterDimensions.
Variable wall_clock : nat -> datetime.t.
Variable source : SourceDB.

Lemma sync_table_frame (t : Table) (st : St) :
  let st' := sync_table wall_clock t source st in
  (t <> T_dim_film -> dim_film (working st') = dim_film (working st)) /\
  (t <> T_dim_customer ->
   dim_customer (working st') = dim_customer (working st)) /\
  (t <> T_dim_store -> dim_store (working st') = dim_store (working st)) /\
  (t <> T_fact_rental -> fact_rental (working st') = fact_rental (working st)) /\
  (t <> T_fact_payment ->
   fact_payment (working st') = fact_payment (working st)).
Proof.
  cbv zeta. pose proof (sync_table_shape wall_clock t source st) as Hshape.
  cbv zeta in Hshape.
  destruct (changed_keys t source (last_sync_of (table_name t) st)).
  - rewrite Hshape. done.
  - destruct Hshape as (mid & _ & Hsame & _ & _ & _ & ->).
    destruct Hsame as (_ & _ & _ & _ & H5 & H6 & H7 & _ & _ & H10 & H11).
    unfold finish_sync. simpl. done.
Qed.

(** The seven synchronizers in the order of a load: the facts see the
    dimension tables as the load leaves them. *)
Lemma run_all_tables_facts (s : St) :
  let s7 := run ((fun t => sync_table wall_clock t source) <$> all_tables) s in
  let film_map := get_surrogate_key_map (dim_film (working s7)) in
  let cust_map := get_surrogate_key_map (dim_customer (working s7)) in
  let store_map := get_surrogate_key_map (dim_store (working s7)) in
  (forall fact, fact ∈ fact_rental (working s7) ->
     FactRental.rental_id fact
       ∉ FactRental.rental_id <$> fact_rental (working s) ->
     exists r_obj film_id,
       (r_obj, film_id)
         ∈ changes_rental source (last_sync_of "fact_rental" s) /\
       SakilaRental.rental_id r_obj = FactRental.rental_id fact /\
       FactRental.film_key fact = film_map !! film_id /\
       FactRental.customer_key fact
       = cust_map !! SakilaRental.customer_id r_obj /\
       FactRental.store_key fact = None) /\
  (natural_keys_unique (keys_of (fact_payment (working s))) ->
   forall fact, fact ∈ fact_payment (working s7) ->
     FactPayment.payment_id fact
       ∈ changed_keys T_fact_payment source (last_sync_of "fact_payment" s) ->
     exists p_obj store_id,
       (p_obj, store_id)
         ∈ changes_payment source (last_sync_of "fact_payment" s) /\
       SakilaPayment.payment_id p_obj = FactPayment.payment_id fact /\
       FactPayment.customer_key fact
       = cust_map !! SakilaPayment.customer_id p_obj /\
       FactPayment.store_key fact = store_map !! store_id).
Proof.
  cbv zeta. unfold all_tables, run. cbn [fmap list_fmap foldl].
  set (s1 := sync_table wall_clock T_dim_film source s).
  set (s2 := sync_table wall_clock T_dim_customer source s1).
  set (s3 := sync_table wall_clock T_dim_store source s2).
  set (s4 := sync_table wall_clock T_dim_actor source s3).
  set (s5 := sync_table wall_clock T_dim_category source s4).
  set (s6 := sync_table wall_clock T_fact_rental source s5).
  set (s7 := sync_table wall_clock T_fact_payment source s6).
  destruct (sync_table_frame T_dim_film s) as (_ & _ & _ & Hr1 & Hp1).
  destruct (sync_table_frame T_dim_customer s1) as (_ & _ & _ & Hr2 & Hp2).
  destruct (sync_table_frame T_dim_store s2) as (_ & _ & _ & Hr3 & Hp3).
  destruct (sync_table_frame T_dim_actor s3) as (_ & _ & _ & Hr4 & Hp4).
  destruct (sync_table_frame T_dim_category s4) as (_ & _ & _ & Hr5 & Hp5).
  destruct (sync_table_frame T_fact_rental s5) as (Hf6 & Hc6 & Hs6 & _ & Hp6).
  destruct (sync_table_frame T_fact_payment s6) as (Hf7 & Hc7 & Hs7 & Hr7 & _).
  subst s1 s2 s3 s4 s5 s6 s7.
  set (s1 := sync_table wall_clock T_dim_film source s) in *.
  set (s2 := sync_table wall_clock T_dim_customer source s1) in *.
  set (s3 := sync_table wall_clock T_dim_store source s2) in *.
  set (s4 := sync_table wall_clock T_dim_actor source s3) in *.
  set (s5 := sync_table wall_clock T_dim_category source s4) in *.
  set (s6 := sync_table wall_clock T_fact_rental source s5) in *.
  set (s7 := sync_table wall_clock T_fact_payment source s6) in *.
  specialize (Hr1 ltac:(done)). specialize (Hr2 ltac:(done)).
  specialize (Hr3 ltac:(done)). specialize (Hr4 ltac:(done)).
  specialize (Hr5 ltac:(done)). specialize (Hr7 ltac:(done)).
  specialize (Hp1 ltac:(done)). specialize (Hp2 ltac:(done)).
  specialize (Hp3 ltac:(done)). specialize (Hp4 ltac:(done)).
  specialize (Hp5 ltac:(done)). specialize (Hp6 ltac:(done)).
  specialize (Hf6 ltac:(done)). specialize (Hc6 ltac:(done)).
  specialize (Hs6 ltac:(done)). specialize (Hf7 ltac:(done)).
  specialize (Hc7 ltac:(done)). specialize (Hs7 ltac:(done)).
  assert (fact_rental (working s5) = fact_rental (working s)) as Hr05
    by (by rewrite Hr5, Hr4, Hr3, Hr2, Hr1).
  assert (fact_payment (working s6) = fact_payment (working s)) as Hp06
    by (by rewrite Hp6, Hp5, Hp4, Hp3, Hp2, Hp1).
  assert (last_sync_of "fact_rental" s5 = last_sync_of "fact_rental" s) as Hw5.
  { unfold s5, s4, s3, s2, s1.
    rewrite !(sync_table_other_watermark wall_clock source _ T_fact_rental)
      by done. done. }
  assert (last_sync_of "fact_payment" s6 = last_sync_of "fact_payment" s) as Hw6.
  { unfold s6, s5, s4, s3, s2, s1.
    rewrite !(sync_table_other_watermark wall_clock source _ T_fact_payment)
      by done. done. }
  rewrite Hf7, Hf6, Hc7, Hc6, Hs7, Hr7. split.
  - intros fact Hin Hnew. rewrite <- Hr05 in Hnew. rewrite <- Hw5.
    unfold s6 in Hin. cbn [sync_table] in Hin.
    rewrite sync_fact_rental_rows in Hin.
    destruct (upsert_loop_inserted
                (fun '(r_obj, _) => SakilaRental.rental_id r_obj)
                update_rental
                (insert_rental (get_surrogate_key_map (dim_film (working s5)))
                   (get_surrogate_key_map (dim_customer (working s5))))
                wall_clock ltac:(by intros [r f] now x)
                ltac:(by intros [r f] now k)
                (fun '(r_obj, film_id) fact =>
                   FactRental.film_key fact
                   = get_surrogate_key_map (dim_film (working s5)) !! film_id /\
                   FactRental.customer_key fact
                   = get_surrogate_key_map (dim_customer (working s5))
                       !! SakilaRental.customer_id r_obj /\
                   FactRental.store_key fact = None)
                (changes_rental source (last_sync_of "fact_rental" s5))
                (fact_rental (working s5)) (ticks s5)
                ltac:(by intros [r f] now k)
                ltac:(by intros [r f] [r' f'] now x)
                fact Hin Hnew)
      as ([r f] & Hsrc & Hk & Hfilm & Hcust & Hstore).
    exists r, f. done.
  - intros Hu fact Hin Hchanged. rewrite <- Hp06 in Hu. rewrite <- Hw6 in *.
    unfold s7 in Hin. cbn [sync_table] in Hin.
    rewrite sync_fact_payment_rows in Hin.
    destruct (upsert_loop_touched
                (fun '(p_obj, _) => SakilaPayment.payment_id p_obj)
                (update_payment
                   (get_surrogate_key_map (dim_customer (working s6)))
                   (get_surrogate_key_map (dim_store (working s6))))
                (insert_payment
                   (get_surrogate_key_map (dim_customer (working s6)))
                   (get_surrogate_key_map (dim_store (working s6))))
                wall_clock ltac:(by intros [p x] now r)
                ltac:(by intros [p x] now k)
                (fun '(p_obj, store_id) fact =>
                   FactPayment.customer_key fact
                   = get_surrogate_key_map (dim_customer (working s6))
                       !! SakilaPayment.customer_id p_obj /\
                   FactPayment.store_key fact
                   = get_surrogate_key_map (dim_store (working s6)) !! store_id)
                (changes_payment source (last_sync_of "fact_payment" s6))
                (fact_payment (working s6)) (ticks s6)
                ltac:(by intros [p x] now r)
                ltac:(by intros [p x] now k)
                Hu fact Hin Hchanged)
      as ([p x] & Hsrc & Hk & Hcust & Hstore).
    exists p, x. rewrite <- Hc6. done.
Qed.

Lemma rebuild_bridges_frame (db : TargetDB) :
  dim_film (rebuild_bridges source db) = dim_film db /\
  dim_customer (rebuild_bridges source db) = dim_customer db /\
  dim_store (rebuild_bridges source db) = dim_store db /\
  fact_rental (rebuild_bridges source db) = fact_rental db /\
  fact_payment (rebuild_bridges source db) = fact_payment db.
Proof. unfold rebuild_bridges. by destruct (bool_decide _ && bool_decide _). Qed.

Lemma upsert_keys_only (ks : list Z) (keys : list (Z * Z)) (k : Z) :
  k ∈ (foldl (fun keys k => upsert_key k keys) keys ks).*1 ->
  k ∈ keys.*1 \/ k ∈ ks.
Proof.
  revert keys. induction ks as [|k0 ks IH]; intros keys Hin; [by left|].
  simpl in Hin. apply IH in Hin as [Hin | Hin]; [|right; by right].
  unfold upsert_key in Hin. destruct (decide (k0 ∈ keys.*1)); [by left|].
  rewrite fmap_app in Hin. apply elem_of_app in Hin as [Hin | Hin]; [by left|].
  apply list_elem_of_singleton in Hin as ->. right. by left.
Qed.

(** X24. Facts are synchronized after the dimensions of the same load: after
    an incremental load, a rental fact the load inserted carries the film and
    customer keys that the dimension tables give once the load is over, and
    no store key; and, when the payment facts had unique natural keys before,
    so does every payment fact the load touched for its customer and store
    keys. *)
Theorem incremental_load_resolves_fact_keys (st : St) :
  natural_keys_unique (keys_of (fact_payment (committed st))) ->
  let db := committed (incremental_load wall_clock source st) in
  let film_map := get_surrogate_key_map (dim_film db) in
  let cust_map := get_surrogate_key_map (dim_customer db) in
  let store_map := get_surrogate_key_map (dim_store db) in
  (forall fact, fact ∈ fact_rental db ->
     FactRental.rental_id fact
       ∉ FactRental.rental_id <$> fact_rental (committed st) ->
     exists r_obj film_id,
       (r_obj, film_id)
         ∈ changes_rental source
             (last_sync_of "fact_rental" (get_target_session st)) /\
       SakilaRental.rental_id r_obj = FactRental.rental_id fact /\
       FactRental.film_key fact = film_map !! film_id /\
       FactRental.customer_key fact
       = cust_map !! SakilaRental.customer_id r_obj /\
       FactRental.store_key fact = None) /\
  (forall fact, fact ∈ fact_payment db ->
     FactPayment.payment_id fact
       ∈ changed_keys T_fact_payment source
           (last_sync_of "fact_payment" (get_target_session st)) ->
     exists p_obj store_id,
       (p_obj, store_id)
         ∈ changes_payment source
             (last_sync_of "fact_payment" (get_target_session st)) /\
       SakilaPayment.payment_id p_obj = FactPayment.payment_id fact /\
       FactPayment.customer_key fact
       = cust_map !! SakilaPayment.customer_id p_obj /\
       FactPayment.store_key fact = store_map !! store_id).
Proof.
  intros Hu. cbv zeta.
  destruct (incremental_load_bridges wall_clock source st) as [Hc _].
  cbv zeta in Hc. rewrite Hc.
  destruct (rebuild_bridges_frame
              (working
                 (run ((fun t => sync_table wall_clock t source) <$> all_tables)
                    (print StartingIncrementalLoad (get_target_session st)))))
    as (-> & -> & -> & -> & ->).
  destruct (run_all_tables_facts
              (print StartingIncrementalLoad (get_target_session st)))
    as [Hrental Hpayment].
  split; [exact Hrental|]. exact (Hpayment Hu).
Qed.

(** X25. After a full load every rental fact and every payment fact comes
    from a row extracted since [datetime.min] and carries the keys that the
    freshly loaded dimension tables give for it; no rental fact has a store
    key. *)
Theorem full_load_resolves_fact_keys (st : St) :
  let db := committed (full_load wall_clock source st) in
  let film_map := get_surrogate_key_map (dim_film db) in
  let cust_map := get_surrogate_key_map (dim_customer db) in
  let store_map := get_surrogate_key_map (dim_store db) in
  (forall fact, fact ∈ fact_rental db ->
     exists r_obj film_id,
       (r_obj, film_id) ∈ changes_rental source datetime_min /\
       SakilaRental.rental_id r_obj = FactRental.rental_id fact /\
       FactRental.film_key fact = film_map !! film_id /\
       FactRental.customer_key fact
       = cust_map !! SakilaRental.customer_id r_obj /\
       FactRental.store_key fact = None) /\
  (forall fact, fact ∈ fact_payment db ->
     exists p_obj store_id,
       (p_obj, store_id) ∈ changes_payment source datetime_min /\
       SakilaPayment.payment_id p_obj = FactPayment.payment_id fact /\
       FactPayment.customer_key fact
       = cust_map !! SakilaPayment.customer_id p_obj /\
       FactPayment.store_key fact = store_map !! store_id).
Proof.
  cbv zeta.
  destruct (full_load_bridges wall_clock source st) as [Hc _].
  cbv zeta in Hc. rewrite Hc.
  set (cleared := print DataCleared _) in *.
  destruct (rebuild_bridges_frame
              (working
                 (run ((fun t => sync_table wall_clock t source) <$> all_tables)
                    cleared)))
    as (-> & -> & -> & -> & ->).
  destruct (run_all_tables_facts cleared) as [Hrental Hpayment].
  assert (last_sync_of "fact_rental" cleared = datetime_min) as Hwr by done.
  assert (last_sync_of "fact_payment" cleared = datetime_min) as Hwp by done.
  rewrite Hwr in Hrental. rewrite Hwp in Hpayment.
  split.
  - intros fact Hin. apply Hrental; [done|].
    change (fact_rental (working cleared)) with (@nil FactRental.t).
    apply not_elem_of_nil.
  - intros fact Hin. apply Hpayment; [constructor|done|].
    pose proof (run_sync_tables_keys wall_clock source all_tables cleared
                  T_fact_payment (all_tables_NoDup)) as Hrun.
    cbv zeta in Hrun. rewrite decide_True in Hrun by apply all_tables_complete.
    destruct Hrun as (Hkeys & _).
    change (last_sync_of (table_name T_fact_payment) cleared)
      with datetime_min in Hkeys.
    change (table_keys T_fact_payment (working cleared))
      with (@nil (Z * Z)) in Hkeys.
    destruct (upsert_keys_only
                (changed_keys T_fact_payment source datetime_min) []
                (FactPayment.payment_id fact)) as [Hnil | Hin'];
      [|by apply elem_of_nil in Hnil|done].
    rewrite <- Hkeys. cbn [table_keys]. rewrite natural_keys_of.
    apply list_elem_of_fmap. by exists fact.
Qed.

End FactsAfterDimensions.

(** ** The further theorems at the sample data *)

Lemma generate_date_key_orders_days_witness :
  valid_date (datetime.date (ts 2005 5 24 0)) /\
  valid_date (datetime.date (ts 2005 5 26 0)) /\
  exists ka kb,
    generate_date_key (Some (ts 2005 5 24 0)) = Some ka /\
    generate_date_key (Some (ts 2005 5 26 0)) = Some kb.
Proof.
  assert (valid_date (datetime.date (ts 2005 5 24 0))) as Ha
    by (unfold valid_date, MINYEAR, MAXYEAR, _days_in_month; simpl; lia).
  assert (valid_date (datetime.date (ts 2005 5 26 0))) as Hb
    by (unfold valid_date, MINYEAR, MAXYEAR, _days_in_month; simpl; lia).
  split; [exact Ha|]. split; [exact Hb|].
  destruct (generate_date_key_orders_days (ts 2005 5 24 0) (ts 2005 5 26 0)
              Ha Hb) as (ka & kb & H1 & H2 & _).
  by exists ka, kb.
Defined.

Lemma key_map_lookup_is_table_lookup_witness :
  natural_keys_unique (keys_of (dim_film (working loaded_store))) /\
  (get_surrogate_key_map (dim_film (working loaded_store)) !! 7 = None
   <-> 7 ∉ natural_key <$> dim_film (working loaded_store)).
Proof.
  assert (natural_keys_unique (keys_of (dim_film (working loaded_store))))
    as Hunique by (vm_compute; apply NoDup_singleton).
  split; [exact Hunique|].
  exact (proj1 (proj2 (key_map_lookup_is_table_lookup
                         (dim_film (working loaded_store)) 7 Hunique))).
Defined.

Lemma film_rows_after_sync_witness :
  natural_keys_unique (keys_of (dim_film (working loaded_store))) /\
  (forall i row, dim_film (working loaded_store) !! i = Some row ->
     DimFilm.film_id row
       ∉ SakilaFilm.film_id
           <$> changes_film late_film_3 (last_sync_of "dim_film" loaded_store) ->
     dim_film (working (sync_dim_film clock_2024 late_film_3 loaded_store)) !! i
     = Some row).
Proof.
  assert (natural_keys_unique (keys_of (dim_film (working loaded_store))))
    as Hunique by (vm_compute; apply NoDup_singleton).
  split; [exact Hunique|].
  exact (proj1 (film_rows_after_sync clock_2024 late_film_3 loaded_store
                  Hunique)).
Defined.

Lemma customer_rows_after_sync_witness :
  natural_keys_unique (keys_of (dim_customer (working loaded_store))) /\
  (forall i row, dim_customer (working loaded_store) !! i = Some row ->
     DimCustomer.customer_id row
       ∉ (fun '(c, _, _) => SakilaCustomer.customer_id c)
           <$> changes_customer sample_source
                 (last_sync_of "dim_customer" loaded_store) ->
     dim_customer (working (sync_dim_customer clock_2024 sample_source
                              loaded_store)) !! i
     = Some row).
Proof.
  assert (natural_keys_unique (keys_of (dim_customer (working loaded_store))))
    as Hunique by (vm_compute; apply NoDup_singleton).
  split; [exact Hunique|].
  exact (proj1 (customer_rows_after_sync clock_2024 sample_source loaded_store
                  Hunique)).
Defined.

Lemma store_rows_after_sync_witness :
  natural_keys_unique (keys_of (dim_store (working loaded_store))) /\
  (forall i row, dim_store (working loaded_store) !! i = Some row ->
     DimStore.store_id row
       ∉ (fun '(s, _, _) => SakilaStore.store_id s)
           <$> changes_store sample_source
                 (last_sync_of "dim_store" loaded_store) ->
     dim_store (working (sync_dim_store clock_2024 sample_source loaded_store))
       !! i
     = Some row).
Proof.
  assert (natural_keys_unique (keys_of (dim_store (working loaded_store))))
    as Hunique by (vm_compute; apply NoDup_singleton).
  split; [exact Hunique|].
  exact (proj1 (store_rows_after_sync clock_2024 sample_source loaded_store
                  Hunique)).
Defined.

Lemma actor_and_category_rows_after_sync_witness :
  natural_keys_unique (keys_of (dim_actor (working loaded_store))) /\
  natural_keys_unique (keys_of (dim_category (working loaded_store))) /\
  (forall i row, dim_actor (working loaded_store) !! i = Some row ->
     DimActor.actor_id row
       ∉ SakilaActor.actor_id
           <$> changes_actor sample_source
                 (last_sync_of "dim_actor" loaded_store) ->
     dim_actor (working (sync_dim_actor clock_2024 sample_source loaded_store))
       !! i
     = Some row).
Proof.
  assert (natural_keys_unique (keys_of (dim_actor (working loaded_store))))
    as Ha by (vm_compute; apply NoDup_singleton).
  assert (natural_keys_unique (keys_of (dim_category (working loaded_store))))
    as Hc by (vm_compute; apply NoDup_singleton).
  split; [exact Ha|]. split; [exact Hc|].
  exact (proj1 (actor_and_category_rows_after_sync clock_2024 sample_source
                  loaded_store Ha Hc)).
Defined.

Lemma rental_rows_after_sync_witness :
  natural_keys_unique (keys_of (fact_rental (working loaded_store))) /\
  (forall i row, fact_rental (working loaded_store) !! i = Some row ->
     FactRental.rental_id row
       ∉ (fun '(r, _) => SakilaRental.rental_id r)
           <$> changes_rental sample_source
                 (last_sync_of "fact_rental" loaded_store) ->
     fact_rental (working (sync_fact_rental clock_2024 sample_source
                             loaded_store)) !! i
     = Some row).
Proof.
  assert (natural_keys_unique (keys_of (fact_rental (working loaded_store))))
    as Hunique by (vm_compute; apply NoDup_singleton).
  split; [exact Hunique|].
  exact (proj1 (rental_rows_after_sync clock_2024 sample_source loaded_store
                  Hunique)).
Defined.

Lemma payment_rows_after_sync_witness :
  natural_keys_unique (keys_of (fact_payment (working loaded_store))) /\
  (forall i row, fact_payment (working loaded_store) !! i = Some row ->
     FactPayment.payment_id row
       ∉ (fun '(p, _) => SakilaPayment.payment_id p)
           <$> changes_payment sample_source
                 (last_sync_of "fact_payment" loaded_store) ->
     fact_payment (working (sync_fact_payment clock_2024 sample_source
                              loaded_store)) !! i
     = Some row).
Proof.
  assert (natural_keys_unique (keys_of (fact_payment (working loaded_store))))
    as Hunique by (vm_compute; apply NoDup_singleton).
  split; [exact Hunique|].
  exact (proj1 (payment_rows_after_sync clock_2024 sample_source loaded_store
                  Hunique)).
Defined.

Lemma bridge_rebuild_is_idempotent_witness :
  exists st1,
    sync_bridge_tables sample_source loaded_store = Returned st1 /\
    exists st2,
      sync_bridge_tables sample_source st1 = Returned st2 /\
      working st2 = working st1.
Proof.
  assert (exists st1, sync_bridge_tables sample_source loaded_store
                      = Returned st1) as [st1 Hret]
    by (vm_compute; eexists; reflexivity).
  exists st1. split; [exact Hret|].
  destruct (proj1 (bridge_rebuild_is_idempotent sample_source loaded_store
                     st1 Hret)) as (st2 & Hagain & Hsame & _).
  exists st2. split; [exact Hagain|exact Hsame].
Defined.

Lemma load_dim_date_adds_nothing_without_a_range_witness :
  ~ (MINYEAR <= 2030 <= 2000 /\ 2000 <= MAXYEAR) /\
  load_dim_date loaded_store 2030 2000
  = Some (Returned (print DimDateComplete
                      (print GeneratingDimDate loaded_store))).
Proof.
  assert (~ (MINYEAR <= 2030 <= 2000 /\ 2000 <= MAXYEAR)) as Hbad by lia.
  split; [exact Hbad|].
  exact (proj1 (load_dim_date_adds_nothing_without_a_range loaded_store
                  2030 2000 Hbad)).
Defined.

Lemma load_dim_date_overflows_at_max_year_witness :
  MINYEAR <= 9990 <= MAXYEAR /\
  exists st',
    load_dim_date empty_store 9990 MAXYEAR = Some (Raised OverflowError st').
Proof.
  assert (MINYEAR <= 9990 <= MAXYEAR) as Hs by (unfold MINYEAR, MAXYEAR; lia).
  split; [exact Hs|].
  destruct (load_dim_date_overflows_at_max_year empty_store 9990 Hs)
    as (st' & rows & lost & Hload & _).
  exists st'. exact Hload.
Defined.

Lemma load_dim_date_fills_an_empty_calendar_witness :
  MINYEAR <= 2000 <= 2030 /\ 2030 < MAXYEAR /\
  dim_date (working empty_store) = [] /\
  exists st',
    load_dim_date empty_store 2000 2030 = Some (Returned st') /\
    Z.of_nat (length (dim_date (working st'))) = 11323.
Proof.
  assert (MINYEAR <= 2000 <= 2030) as Hs by (unfold MINYEAR; lia).
  assert (2030 < MAXYEAR) as He by (unfold MAXYEAR; lia).
  split; [exact Hs|]. split; [exact He|]. split; [reflexivity|].
  destruct (load_dim_date_fills_an_empty_calendar empty_store 2000 2030 Hs He
              eq_refl) as (st' & Hload & _ & Hlen & _).
  exists st'. split; [exact Hload|]. rewrite Hlen. reflexivity.
Defined.

Lemma date_keys_resolve_in_the_calendar_witness :
  MINYEAR <= 2000 <= MAXYEAR /\ MINYEAR <= 2030 < MAXYEAR /\
  valid_date (datetime.date (ts 2005 5 24 0)) /\
  2000 <= date.year (datetime.date (ts 2005 5 24 0)) <= 2030 /\
  exists st' k,
    load_dim_date empty_store 2000 2030 = Some (Returned st') /\
    generate_date_key (Some (ts 2005 5 24 0)) = Some k /\
    k ∈ DimDate.date_key <$> dim_date (working st').
Proof.
  assert (MINYEAR <= 2000 <= MAXYEAR) as Hs by (unfold MINYEAR, MAXYEAR; lia).
  assert (MINYEAR <= 2030 < MAXYEAR) as He by (unfold MINYEAR, MAXYEAR; lia).
  assert (valid_date (datetime.date (ts 2005 5 24 0))) as Hv
    by (unfold valid_date, MINYEAR, MAXYEAR, _days_in_month; simpl; lia).
  assert (2000 <= date.year (datetime.date (ts 2005 5 24 0)) <= 2030) as Hy
    by (simpl; lia).
  split; [exact Hs|]. split; [exact He|]. split; [exact Hv|].
  split; [exact Hy|].
  destruct (date_keys_resolve_in_the_calendar empty_store 2000 2030
              (ts 2005 5 24 0) Hs He Hv Hy)
    as (st' & k & Hload & Hkey & Hin & _).
  exists st', k. split; [exact Hload|]. split; [exact Hkey|exact Hin].
Defined.

Lemma reachable_stores_resolve_keys_witness :
  reachable clock_2024 loaded_store /\
  committed loaded_store = working loaded_store.
Proof.
  assert (reachable clock_2024 loaded_store) as Hreach
    by (apply reach_incremental_load, reach_empty).
  split; [exact Hreach|].
  exact (proj1 (reachable_stores_resolve_keys clock_2024 loaded_store Hreach)).
Defined.

Lemma incremental_load_resolves_fact_keys_witness :
  natural_keys_unique (keys_of (fact_payment (committed loaded_store))) /\
  (forall fact,
     fact ∈ fact_rental
              (committed (incremental_load clock_2024 late_film_2 loaded_store)) ->
     FactRental.rental_id fact
       ∉ FactRental.rental_id <$> fact_rental (committed loaded_store) ->
     exists r_obj film_id,
       (r_obj, film_id)
         ∈ changes_rental late_film_2
             (last_sync_of "fact_rental" (get_target_session loaded_store)) /\
       SakilaRental.rental_id r_obj = FactRental.rental_id fact /\
       FactRental.film_key fact
       = get_surrogate_key_map
           (dim_film
              (committed (incremental_load clock_2024 late_film_2 loaded_store)))
           !! film_id /\
       FactRental.customer_key fact
       = get_surrogate_key_map
           (dim_customer
              (committed (incremental_load clock_2024 late_film_2 loaded_store)))
           !! SakilaRental.customer_id r_obj /\
       FactRental.store_key fact = None).
Proof.
  assert (natural_keys_unique (keys_of (fact_payment (committed loaded_store))))
    as Hunique by (vm_compute; apply NoDup_singleton).
  split; [exact Hunique|].
  exact (proj1 (incremental_load_resolves_fact_keys clock_2024 late_film_2
                  loaded_store Hunique)).
Defined.
